(** * MediShift scheduler: a shallow embedding of the scheduling core

    The development embeds four parts of the repository:
    - the monthly call scheduler ([MonthlyCallScheduler], with the shorter
      duplicate of the class kept in
      "Monthly Call Scheduler (Backend logic).ts") and its metrics,
    - the validation that the callable function runs on a generated
      schedule ([Index]),
    - the yearly rotation engine ([YearlyScheduleEngine]),
    - the leave-request analyzer ([VacationAnalyzer]): the coverage,
      fairness, policy and conflict analyses, their synthesis and the
      search for alternative dates.

    Modelling conventions.
    - A JavaScript [Date] is a civil date of the single program-wide time
      zone, represented by the number of days since 1970-01-01 (a [Z]).
      [setDate(getDate() + k)] adds [k]; comparing two dates compares the
      day numbers; [toDateString] equality is equality of day numbers.
    - Counters, PGY levels, call ratios and points are integers ([Z]).
      The averages and scores of the monthly scorer and the rates of the
      fairness analysis are double-precision numbers ([JS.Number]: IEEE 754
      binary64 values with the operations of the Standard Library's
      [SpecFloat], rounded to nearest, ties to even), computed in the order
      of the source.  The coverage ratio of the analyzer, which the code
      only compares with the thresholds 0.5, 0.6 and 0.8 and with another
      ratio over the same number of residents, and the figures of the
      schedule metrics are exact rationals ([Q]).
    - A Firestore write throws when a field of the written data is
      [undefined]: no source sets [ignoreUndefinedProperties].
    - [Array.prototype.sort] is stable (ECMAScript 2019).
    - A [Map<string, _>] and an object used as a dictionary are [gmap]s;
      a [Map] that is iterated is an association list in insertion order.
    - What a function reads from the database is an argument of its model.
    - Console output is not modelled.  Fields of the emitted documents that
      no decision reads (display names, generated ids, creation stamps) are
      left out of the records. *)

From Stdlib Require Import ZArith QArith Qround Bool List Sorted Ascii String
  Lia SpecFloat.
From stdpp Require Import base option list gmap strings fin_maps pretty.

Import ListNotations.
Local Open Scope Z_scope.

(** ** JavaScript built-ins used by the sources *)

Module JS.

(** A civil date, as a day number. *)
Abbreviation Date := Z.

(** Days from 0000-03-01 based civil calendar to the epoch: the day number
    of the proleptic Gregorian date [y]-[m]-[d] with [m] in 1..12. *)
Definition daysFromCivil (y m d : Z) : Z :=
  let y' := if m <=? 2 then y - 1 else y in
  let era := y' / 400 in
  let yoe := y' - era * 400 in
  let mp := if 2 <? m then m - 3 else m + 9 in
  let doy := (153 * mp + 2) / 5 + d - 1 in
  let doe := yoe * 365 + yoe / 4 - yoe / 100 + doy in
  era * 146097 + doe - 719468.

(** The inverse: year, month (1..12) and day of month of a day number. *)
Definition civilFromDays (z : Z) : Z * Z * Z :=
  let z' := z + 719468 in
  let era := z' / 146097 in
  let doe := z' - era * 146097 in
  let yoe := (doe - doe / 1460 + doe / 36524 - doe / 146096) / 365 in
  let doy := doe - (365 * yoe + yoe / 4 - yoe / 100) in
  let mp := (5 * doy + 2) / 153 in
  let d := doy - (153 * mp + 2) / 5 + 1 in
  let m := if mp <? 10 then mp + 3 else mp - 9 in
  let y := yoe + era * 400 in
  (if m <=? 2 then y + 1 else y, m, d).

(** [new Date(year, month, day)]: the month is 0-based and overflows into
    the year, the day of month overflows into the neighbouring months
    (day 0 is the last day of the month before); years 0..99 mean
    1900..1999. *)
Definition newDate (year month day : Z) : Date :=
  let year := if (0 <=? year) && (year <=? 99) then 1900 + year else year in
  daysFromCivil (year + month / 12) (month mod 12 + 1) 1 + (day - 1).

Definition getFullYear (d : Date) : Z := fst (fst (civilFromDays d)).
Definition getMonth (d : Date) : Z := snd (fst (civilFromDays d)) - 1.
Definition getDate (d : Date) : Z := snd (civilFromDays d).

(** [getDay]: 0 is Sunday; 1970-01-01 was a Thursday. *)
Definition getDay (d : Date) : Z := (d + 4) mod 7.

(** [date.setDate(date.getDate() + k)] *)
Definition addDays (d : Date) (k : Z) : Date := d + k.

(** [toLocaleDateString('en-US', { weekday: 'long' })] *)
Definition weekdayLong (d : Date) : string :=
  match getDay d with
  | 0 => "Sunday"
  | 1 => "Monday"
  | 2 => "Tuesday"
  | 3 => "Wednesday"
  | 4 => "Thursday"
  | 5 => "Friday"
  | _ => "Saturday"
  end%string.

(** [String.prototype.toLowerCase], on the ASCII letters. *)
Definition lowerAscii (c : ascii) : ascii :=
  let n := nat_of_ascii c in
  if (Nat.leb 65 n && Nat.leb n 90)%bool then ascii_of_nat (n + 32) else c.

Fixpoint toLowerCase (s : string) : string :=
  match s with
  | EmptyString => EmptyString
  | String c s' => String (lowerAscii c) (toLowerCase s')
  end.

(** [Array.prototype.includes] on strings. *)
Definition includes (x : string) (l : list string) : bool :=
  existsb (String.eqb x) l.

(** [Array.prototype.sort] with the comparator [(a, b) => key(b) - key(a)]:
    the sort is stable, so elements with equal keys keep their order.
    [gtb k1 k2] tells that key [k1] is strictly greater than [k2], which is
    when the difference [k1 - k2] is positive (on doubles too: the
    difference of two doubles is positive exactly when the first is the
    greater, and NaN, which the sort reads as 0, when one of them is NaN or
    both are the same infinity). *)
Section SortDesc.
Context {A K : Type} (key : A -> K) (gtb : K -> K -> bool).

Fixpoint insertDesc (x : A) (l : list A) : list A :=
  match l with
  | [] => [x]
  | y :: l' =>
      if gtb (key y) (key x) then y :: insertDesc x l' else x :: y :: l'
  end.

Fixpoint sortDesc (l : list A) : list A :=
  match l with
  | [] => []
  | x :: l' => insertDesc x (sortDesc l')
  end.

End SortDesc.

(** [a > b] on the exact rationals. *)
Definition Qgtb (a b : Q) : bool := negb (Qle_bool a b).

(** *** Double-precision numbers

    A [Number] is an IEEE 754 binary64 value: a signed zero, a signed
    infinity, NaN, or [(-1)^s * m * 2^e] with a mantissa of at most 53 bits.
    The arithmetic is that of [SpecFloat] at precision 53: every operation
    returns the double nearest to the exact result (ties to even). *)
Abbreviation Number := spec_float.

Definition prec : Z := 53.
Definition emax : Z := 1024.

(** The double of an integer (exact below 2^53). *)
Definition ofZ (z : Z) : Number := binary_normalize prec emax z 0 false.

Definition add (x y : Number) : Number := SFadd prec emax x y.
Definition sub (x y : Number) : Number := SFsub prec emax x y.
Definition mul (x y : Number) : Number := SFmul prec emax x y.
Definition div (x y : Number) : Number := SFdiv prec emax x y.

(** A decimal literal [n/d] (such as [1.2], written [literal 12 10]): the
    double nearest to it. *)
Definition literal (n d : Z) : Number := div (ofZ n) (ofZ d).

(** [x < y], [x <= y], [x === y] and [x > y]; all false when an operand is
    NaN. *)
Definition ltb (x y : Number) : bool := SFltb x y.
Definition leb (x y : Number) : bool := SFleb x y.
Definition eqb (x y : Number) : bool := SFeqb x y.
Definition gtb (x y : Number) : bool := SFltb y x.

Definition isNaN (x : Number) : bool :=
  match x with
  | S754_nan => true
  | _ => false
  end.

(** [Math.max(a, b)]: NaN when an operand is NaN; of the two zeros, the
    positive one. *)
Definition mathMax (a b : Number) : Number :=
  match SFcompare a b with
  | None => S754_nan
  | Some Lt => b
  | Some Gt => a
  | Some Eq =>
      match a, b with
      | S754_zero true, S754_zero false => b
      | _, _ => a
      end
  end.

(** [Math.round]: the nearest integer, halves towards plus infinity, from
    the exact value of the double; a result of zero keeps the sign of the
    argument. *)
Definition mathRound (x : Number) : Number :=
  match x with
  | S754_finite s m e =>
      if 0 <=? e then x
      else
        let twice := 2 * (if s then Z.neg m else Z.pos m) in
        let n := Z.shiftr (twice + Z.shiftl 1 (- e)) (1 - e) in
        if n =? 0 then S754_zero s else ofZ n
  | _ => x
  end.

(** [x || d] on a number: [d] when [x] is a zero or NaN. *)
Definition orElse (x d : Number) : Number :=
  match x with
  | S754_zero _ | S754_nan => d
  | _ => x
  end.

End JS.

(** ** The shared data model (the fields the schedulers read) *)

Inductive RotationType :=
| CORE_NSX | MANDATORY_OFF_SERVICE | EXAM_LEAVE | HOLIDAY_LEAVE | FLEXIBLE.

Inductive Team := Red | Blue.

Inductive HolidayType := Christmas | NewYear.

Inductive LeaveStatus :=
| PendingAnalysis | PendingApproval | Approved | Denied
| FlaggedForReview | AnalysisFailed.

Inductive StaffingLevel := Normal | Shortage.

(** The type of a call: the four types of a [CallAssignment], and ['None'],
    which only a [DayRequirements] carries. *)
Inductive CallType := Night | Weekend | Holiday | PostCall | NoCall.

Inductive AssignmentStatus := Scheduled | StatusPostCall.

#[global] Instance RotationType_eq_dec : EqDecision RotationType.
Proof. solve_decision. Defined.
#[global] Instance Team_eq_dec : EqDecision Team.
Proof. solve_decision. Defined.
#[global] Instance HolidayType_eq_dec : EqDecision HolidayType.
Proof. solve_decision. Defined.
#[global] Instance LeaveStatus_eq_dec : EqDecision LeaveStatus.
Proof. solve_decision. Defined.
#[global] Instance StaffingLevel_eq_dec : EqDecision StaffingLevel.
Proof. solve_decision. Defined.
#[global] Instance CallType_eq_dec : EqDecision CallType.
Proof. solve_decision. Defined.
#[global] Instance AssignmentStatus_eq_dec : EqDecision AssignmentStatus.
Proof. solve_decision. Defined.

Record Resident := {
  id : string;
  pgyLevel : Z;
  specialty : string;
  onService : bool;
  isChief : bool;
  callExempt : bool
}.

Record RotationAssignment := {
  ra_residentId : string;
  rotationName : string;
  rotationType : RotationType;
  team : option Team;
  holidayType : option HolidayType
}.

Record RotationBlock := {
  blockNumber : Z;
  startDate : JS.Date;
  endDate : JS.Date;
  assignments : list RotationAssignment
}.

Record AcademicYear := {
  ay_id : string;
  blocks : list RotationBlock
}.

Record LeaveRequest := {
  lr_residentId : string;
  lr_status : LeaveStatus;
  lr_startDate : JS.Date;
  lr_endDate : JS.Date
}.

Record CallAssignment := {
  ca_residentId : string;
  ca_date : JS.Date;
  ca_type : CallType;
  ca_points : Z;
  ca_isHoliday : bool;
  ca_team : option Team;
  ca_status : AssignmentStatus
}.

Record ParoRule := { minDays : Z; maxDays : Z; calls : Z }.

Record MandatoryRule := {
  mr_blockNumber : Z;
  mr_pgyLevels : list Z;
  mr_rotationName : string
}.

(** [AppConfiguration]: [callRatios] is an object keyed by PGY level;
    [weekendDefinition] and [holidays] may be absent. *)
Record AppConfiguration := {
  paroHardCaps : list ParoRule;
  callRatios : gmap Z Z;
  maxWeekendsPerRotation : Z;
  weekendDefinition : option (list string);
  holidays : option (list JS.Date);
  mandatoryRotations : list MandatoryRule;
  examLeave : list MandatoryRule
}.

#[global] Instance CallAssignment_eq_dec : EqDecision CallAssignment.
Proof. solve_decision. Defined.

(** A [Map<string, number>] of counts, in insertion order:
    [m.set(k, (m.get(k) || 0) + 1)]. *)
Fixpoint countUp (k : string) (m : list (string * Z)) : list (string * Z) :=
  match m with
  | [] => [(k, 1)]
  | (k', c) :: m' =>
      if String.eqb k' k then (k', c + 1) :: m' else (k', c) :: countUp k m'
  end.

(** [m.get(k)] *)
Definition getCount (m : list (string * Z)) (k : string) : option Z :=
  option_map snd (List.find (fun e => String.eqb (fst e) k) m).

(** The calls per resident, post-call markers left out, as
    [validateGeneratedSchedule] and [calculateScheduleMetrics] count
    them. *)
Definition countCalls (assignments : list CallAssignment)
  : list (string * Z) :=
  fold_left (fun m a =>
               if bool_decide (ca_type a = PostCall) then m
               else countUp (ca_residentId a) m)
            assignments [].

(** ** The monthly call scheduler (class [MonthlyCallScheduler]) *)

Module MonthlyCallScheduler.

Record CallStats := {
  totalCalls : Z;
  weekendCalls : Z;
  holidayCalls : Z;
  nightCalls : Z;
  lastCallDate : option JS.Date;
  consecutiveDays : Z;
  callDates : list JS.Date;
  points : Z
}.

#[global] Instance CallStats_inhabited : Inhabited CallStats :=
  populate {| totalCalls := 0; weekendCalls := 0; holidayCalls := 0;
              nightCalls := 0; lastCallDate := None; consecutiveDays := 0;
              callDates := []; points := 0 |}.

Record DayRequirements := {
  dr_date : JS.Date;
  dr_dayOfWeek : Z;
  dr_isWeekend : bool;
  dr_isHoliday : bool;
  dr_callType : CallType;
  dr_requiredCoverage : nat;
  dr_priority : Z
}.

(** The fields the constructor stores; [callStats] is the mutable part and
    is threaded through the functions below. *)
Record Scheduler := {
  residents : list Resident;
  config : AppConfiguration;
  academicYear : AcademicYear;
  approvedLeave : list LeaveRequest;
  month : Z;
  year : Z;
  existingAssignments : list CallAssignment
}.

Section Methods.
Variable this : Scheduler.

Definition loadHolidays : list JS.Date :=
  default [] (holidays (config this))
  ++ [JS.newDate (year this) 0 1;
      JS.newDate (year this) 6 4;
      JS.newDate (year this) 11 25].

Definition isHoliday (date : JS.Date) : bool :=
  existsb (fun h => h =? date) loadHolidays.

Definition isWeekend (date : JS.Date) : bool :=
  let dayName := JS.weekdayLong date in
  let weekendDays :=
    default ["Friday"; "Saturday"; "Sunday"]%string
            (weekendDefinition (config this)) in
  JS.includes (JS.toLowerCase dayName) (map JS.toLowerCase weekendDays).

Definition getCurrentBlock (date : JS.Date) : option RotationBlock :=
  List.find (fun b => (startDate b <=? date) && (date <=? endDate b))
            (blocks (academicYear this)).

Definition findRotation (b : RotationBlock) (residentId : string)
  : option RotationAssignment :=
  List.find (fun a => String.eqb (ra_residentId a) residentId) (assignments b).

Definition isOnLeave (residentId : string) (date : JS.Date) : bool :=
  existsb (fun leave =>
             String.eqb (lr_residentId leave) residentId
             && bool_decide (lr_status leave = Approved)
             && (lr_startDate leave <=? date)
             && (date <=? lr_endDate leave))
          (approvedLeave this).

Definition hasRequestedTimeOff (residentId : string) (date : JS.Date) : bool :=
  existsb (fun leave =>
             String.eqb (lr_residentId leave) residentId
             && bool_decide (lr_status leave = PendingApproval)
             && (lr_startDate leave <=? date)
             && (date <=? lr_endDate leave))
          (approvedLeave this).

Definition getDaysBetween (date1 date2 : JS.Date) : Z := Z.abs (date2 - date1).

Definition getLastCallDate (sorted : list CallAssignment) : option JS.Date :=
  match sorted with
  | [] => None
  | a :: _ => Some (ca_date a)
  end.

(** [getLastCallDate] sorts the array it is given in place, newest first,
    before [callDates] is read from the same array. *)
Definition initialStats (resident : Resident) : CallStats :=
  let existingCalls :=
    filter (fun a => ca_residentId a = id resident /\ ca_type a <> PostCall)
           (existingAssignments this) in
  let sorted := JS.sortDesc ca_date Z.gtb existingCalls in
  {| totalCalls := Z.of_nat (length existingCalls);
     weekendCalls :=
       Z.of_nat (length (filter (fun a => ca_type a = Weekend) existingCalls));
     holidayCalls :=
       Z.of_nat (length (filter (fun a => ca_type a = Holiday) existingCalls));
     nightCalls :=
       Z.of_nat (length (filter (fun a => ca_type a = Night) existingCalls));
     lastCallDate := getLastCallDate sorted;
     consecutiveDays := 0;
     callDates := map ca_date sorted;
     points := fold_left (fun sum a => sum + ca_points a) existingCalls 0 |}.

Definition initializeCallStats : gmap string CallStats :=
  fold_left (fun cs resident => <[id resident := initialStats resident]> cs)
            (residents this) ∅.

Definition isPostCall (callStats : gmap string CallStats)
    (residentId : string) (date : JS.Date) : bool :=
  let stats := callStats !!! residentId in
  match lastCallDate stats with
  | None => false
  | Some last => getDaysBetween last date <? 2
  end.

Definition getWorkingDaysForBlock (block : option RotationBlock) : Z :=
  match block with
  | None => 28
  | Some b =>
      Z.of_nat (length (filter (fun d => isHoliday d = false)
                  (seqZ (startDate b) (endDate b - startDate b + 1))))
  end.

Definition getMaxCalls (resident : Resident) (workingDays : Z)
    (staffingLevel : StaffingLevel) : Z :=
  if isChief resident && callExempt resident then 0
  else
    let paroRule :=
      List.find (fun rule => (minDays rule <=? workingDays)
                             && (workingDays <=? maxDays rule))
                (paroHardCaps (config this)) in
    let paroHardCap :=
      match paroRule with Some rule => calls rule | None => 8 end in
    match callRatios (config this) !! pgyLevel resident with
    | None => paroHardCap
    | Some callRatio =>
        if callRatio =? 0 then paroHardCap
        else
          let pgyTarget := workingDays / callRatio in
          match staffingLevel with
          | Normal => Z.min paroHardCap pgyTarget
          | Shortage => paroHardCap
          end
    end.

Definition checkPAROCompliance (callStats : gmap string CallStats)
    (residentId : string) (date : JS.Date) : bool :=
  let stats := callStats !!! residentId in
  let lookback := 28 in
  let lookbackDate := JS.addDays date (- lookback) in
  let recentCalls :=
    Z.of_nat (length (filter (fun d => lookbackDate <= d /\ d < date)
                             (callDates stats))) in
  recentCalls + 1 <=? lookback / 4.

Definition isEligibleForCall (callStats : gmap string CallStats)
    (resident : Resident) (date : JS.Date) (staffingLevel : StaffingLevel)
  : bool :=
  let stats := callStats !!! id resident in
  match getCurrentBlock date with
  | None => false
  | Some block =>
      match findRotation block (id resident) with
      | None => false
      | Some rotation =>
          if negb (bool_decide (rotationType rotation = CORE_NSX)) then false
          else if isOnLeave (id resident) date then false
          else if isPostCall callStats (id resident) date then false
          else
            let workingDays := getWorkingDaysForBlock (Some block) in
            let maxCalls := getMaxCalls resident workingDays staffingLevel in
            if maxCalls <=? totalCalls stats then false
            else if isWeekend date
                    && (let maxWeekends :=
                          if maxWeekendsPerRotation (config this) =? 0 then 2
                          else maxWeekendsPerRotation (config this) in
                        maxWeekends <=? weekendCalls stats)
            then false
            else if negb (checkPAROCompliance callStats (id resident) date)
            then false
            else true
      end
  end.

(** *** Scoring *)

Definition getAverageCallCount (callStats : gmap string CallStats)
  : JS.Number :=
  if bool_decide (length (residents this) = 0%nat) then JS.ofZ 0
  else
    let total := map_fold (fun _ stats total => total + totalCalls stats)
                          0 callStats in
    JS.div (JS.ofZ total) (JS.ofZ (Z.of_nat (length (residents this)))).

Definition getAveragePoints (callStats : gmap string CallStats)
  : JS.Number :=
  if bool_decide (length (residents this) = 0%nat) then JS.ofZ 0
  else
    let total := map_fold (fun _ stats total => total + points stats)
                          0 callStats in
    JS.div (JS.ofZ total) (JS.ofZ (Z.of_nat (length (residents this)))).

Definition rotationTeam (date : JS.Date) (residentId : string) : option Team :=
  match getCurrentBlock date with
  | None => None
  | Some block =>
      match findRotation block residentId with
      | None => None
      | Some rotation => team rotation
      end
  end.

Definition getResidentTeam (residentId : string) (date : JS.Date)
  : option Team := rotationTeam date residentId.

Definition getTeamCallBalance (callStats : gmap string CallStats)
    (t : Team) : JS.Number :=
  let mid := JS.newDate (year this) (month this) 15 in
  let members :=
    filter (fun resident => rotationTeam mid (id resident) = Some t)
           (residents this) in
  let teamCalls :=
    fold_left (fun sum resident => sum + totalCalls (callStats !!! id resident))
              members 0 in
  let teamMembers := Z.of_nat (length members) in
  if teamMembers =? 0 then JS.ofZ 0
  else
    let teamAverage := JS.div (JS.ofZ teamCalls) (JS.ofZ teamMembers) in
    let overallAverage := getAverageCallCount callStats in
    JS.mathRound (JS.mul (JS.sub overallAverage teamAverage) (JS.ofZ 5)).

Definition calculateCallPoints (callType : CallType) : Z :=
  match callType with
  | Night => 1
  | Weekend => 2
  | Holiday => 3
  | _ => 0
  end.

Definition getRequiredResidentCount (callType : CallType) : nat :=
  match callType with
  | Holiday => 2
  | Weekend => 1
  | Night => 1
  | _ => 0
  end.

Definition requiresPostCall (callType : CallType) : bool :=
  match callType with
  | Night | Weekend | Holiday => true
  | _ => false
  end.

(** The [score] field of [scoreResident]'s result. *)
Definition scoreResident (callStats : gmap string CallStats)
    (resident : Resident) (date : JS.Date) (callType : CallType)
  : JS.Number :=
  let stats := callStats !!! id resident in
  let score := JS.ofZ 100 in
  let avgCalls := getAverageCallCount callStats in
  let callDifference := JS.sub (JS.ofZ (totalCalls stats)) avgCalls in
  let fairnessScore :=
    JS.mathMax (JS.ofZ 0)
               (JS.sub (JS.ofZ 30) (JS.mul callDifference (JS.ofZ 10))) in
  let score := JS.add score fairnessScore in
  let score :=
    match lastCallDate stats with
    | Some last =>
        let daysSince := getDaysBetween last date in
        let restScore := Z.min (daysSince * 3) 30 in
        JS.add score (JS.ofZ restScore)
    | None => JS.add score (JS.ofZ 30)
    end in
  let score :=
    match callType with
    | Weekend | Holiday => JS.add score (JS.ofZ (pgyLevel resident * 2))
    | _ => score
    end in
  let avgPoints := getAveragePoints callStats in
  let pointDiff := JS.sub (JS.ofZ (points stats)) avgPoints in
  let pointScore := JS.mathMax (JS.ofZ 0) (JS.sub (JS.ofZ 20) pointDiff) in
  let score := JS.add score pointScore in
  let score :=
    match rotationTeam date (id resident) with
    | Some t => JS.add score (getTeamCallBalance callStats t)
    | None => score
    end in
  let score :=
    if hasRequestedTimeOff (id resident) date
    then JS.sub score (JS.ofZ 50) else score in
  JS.mathMax (JS.ofZ 0) score.

(** *** Selection *)

Definition eligibleResidents (callStats : gmap string CallStats)
    (date : JS.Date) (staffingLevel : StaffingLevel)
    (excludeIds : list string) : list Resident :=
  List.filter (fun resident =>
                 negb (JS.includes (id resident) excludeIds)
                 && isEligibleForCall callStats resident date staffingLevel)
              (residents this).

Definition selectBestResident (callStats : gmap string CallStats)
    (date : JS.Date) (callType : CallType) (staffingLevel : StaffingLevel)
    (excludeIds : list string) : option Resident :=
  let eligible := eligibleResidents callStats date staffingLevel excludeIds in
  let scoredResidents :=
    map (fun resident =>
           (resident, scoreResident callStats resident date callType))
        eligible in
  let sorted := JS.sortDesc snd JS.gtb scoredResidents in
  match sorted with
  | [] => None
  | s :: _ => Some (fst s)
  end.

(** *** Emitting assignments *)

Definition createCallAssignment (resident : Resident) (date : JS.Date)
    (callType : CallType) (isHol : bool) : CallAssignment :=
  {| ca_residentId := id resident;
     ca_date := date;
     ca_type := callType;
     ca_points := calculateCallPoints callType;
     ca_isHoliday := isHol;
     ca_team := getResidentTeam (id resident) date;
     ca_status := Scheduled |}.

Definition createPostCallAssignments (callAssignment : CallAssignment)
    (callType : CallType) : list CallAssignment :=
  if negb (requiresPostCall callType) then []
  else
    let postCallDate := JS.addDays (ca_date callAssignment) 1 in
    if negb (JS.getMonth postCallDate =? month this) then []
    else [ {| ca_residentId := ca_residentId callAssignment;
              ca_date := postCallDate;
              ca_type := PostCall;
              ca_points := 0;
              ca_isHoliday := ca_isHoliday callAssignment;
              ca_team := ca_team callAssignment;
              ca_status := StatusPostCall |} ].

(** The stats object of the resident is updated in place. *)
Definition updateStats (dayReq : DayRequirements) (stats : CallStats)
  : CallStats :=
  {| totalCalls := totalCalls stats + 1;
     weekendCalls :=
       if dr_isWeekend dayReq then weekendCalls stats + 1
       else weekendCalls stats;
     holidayCalls :=
       if dr_isHoliday dayReq then holidayCalls stats + 1
       else holidayCalls stats;
     nightCalls :=
       if bool_decide (dr_callType dayReq = Night) then nightCalls stats + 1
       else nightCalls stats;
     lastCallDate := Some (dr_date dayReq);
     consecutiveDays := consecutiveDays stats;
     callDates := callDates stats ++ [dr_date dayReq];
     points := points stats + calculateCallPoints (dr_callType dayReq) |}.

Definition updateResidentStats (callStats : gmap string CallStats)
    (residentId : string) (dayReq : DayRequirements)
  : gmap string CallStats :=
  alter (updateStats dayReq) residentId callStats.

Definition dayRequirement (day : Z) : DayRequirements :=
  let date := JS.newDate (year this) (month this) day in
  let dayOfWeek := JS.getDay date in
  let isWe := isWeekend date in
  let isHol := isHoliday date in
  let '(callType, priority) :=
    if isHol then (Holiday, 3)
    else if isWe then (Weekend, 2)
    else if (1 <=? dayOfWeek) && (dayOfWeek <=? 4) then (Night, 1)
    else (NoCall, 0) in
  {| dr_date := date;
     dr_dayOfWeek := dayOfWeek;
     dr_isWeekend := isWe;
     dr_isHoliday := isHol;
     dr_callType := callType;
     dr_requiredCoverage := getRequiredResidentCount callType;
     dr_priority := priority |}.

Definition calculateDayRequirements (daysInMonth : Z) : list DayRequirements :=
  map dayRequirement (seqZ 1 daysInMonth).

(** *** The main loop *)

(** The state of a run: the call statistics and the assignments emitted so
    far. *)
Definition RunState : Type := gmap string CallStats * list CallAssignment.

(** The inner loop [for (i = 0; i < requiredResidents; i++)], with [n]
    iterations left; [selected] is [selectedResidents]. *)
Fixpoint fillDay (n : nat) (staffingLevel : StaffingLevel)
    (dayReq : DayRequirements) (selected : list Resident) (st : RunState)
  : RunState :=
  match n with
  | O => st
  | S n' =>
      let '(callStats, out) := st in
      match selectBestResident callStats (dr_date dayReq) (dr_callType dayReq)
              staffingLevel (map id selected) with
      | None => fillDay n' staffingLevel dayReq selected st
      | Some bestResident =>
          let assignment :=
            createCallAssignment bestResident (dr_date dayReq)
              (dr_callType dayReq) (dr_isHoliday dayReq) in
          let callStats' :=
            updateResidentStats callStats (id bestResident) dayReq in
          let postCallAssignments :=
            createPostCallAssignments assignment (dr_callType dayReq) in
          fillDay n' staffingLevel dayReq (selected ++ [bestResident])
            (callStats', out ++ [assignment] ++ postCallAssignments)
      end
  end.

(** One iteration of [for (const dayReq of dayRequirements)]. *)
Definition processDay (staffingLevel : StaffingLevel) (st : RunState)
    (dayReq : DayRequirements) : RunState :=
  if bool_decide (dr_callType dayReq = NoCall) then st
  else fillDay (getRequiredResidentCount (dr_callType dayReq))
         staffingLevel dayReq [] st.

Definition sortedDayRequirements : list DayRequirements :=
  let daysInMonth := JS.getDate (JS.newDate (year this) (month this + 1) 0) in
  JS.sortDesc dr_priority Z.gtb (calculateDayRequirements daysInMonth).

(** [generateSchedule] started from the statistics [callStats]. *)
Definition runSchedule (staffingLevel : StaffingLevel)
    (callStats : gmap string CallStats) : RunState :=
  fold_left (processDay staffingLevel) sortedDayRequirements (callStats, []).

(** [new MonthlyCallScheduler(...).generateSchedule(staffingLevel)]: the
    constructor initialises the statistics. *)
Definition generateSchedule (staffingLevel : StaffingLevel)
  : list CallAssignment :=
  snd (runSchedule staffingLevel initializeCallStats).

End Methods.


(** The number of days of the scheduled month. *)
Definition daysInMonth (this : Scheduler) : Z :=
  JS.getDate (JS.newDate (year this) (month this + 1) 0).

(** The assignment [generateSchedule] makes for [best] on the day of
    [dayReq]. *)
Definition callFor (this : Scheduler) (best : Resident)
    (dayReq : DayRequirements) : CallAssignment :=
  createCallAssignment this best (dr_date dayReq) (dr_callType dayReq)
    (dr_isHoliday dayReq).

(** The post-call marker of an assignment. *)
Definition postCallOf (a : CallAssignment) : CallAssignment :=
  {| ca_residentId := ca_residentId a;
     ca_date := JS.addDays (ca_date a) 1;
     ca_type := PostCall;
     ca_points := 0;
     ca_isHoliday := ca_isHoliday a;
     ca_team := ca_team a;
     ca_status := StatusPostCall |}.

(** The states of a run under staffing level [s]: the initial statistics
    with nothing emitted, and the state after a selection on a day of the
    month that needs a call. *)
Inductive Reached (this : Scheduler) (s : StaffingLevel) : RunState -> Prop :=
| Reached_start : Reached this s (initializeCallStats this, [])
| Reached_call (callStats : gmap string CallStats)
    (out : list CallAssignment) (day : Z) (excludeIds : list string)
    (best : Resident) :
    Reached this s (callStats, out) ->
    1 <= day <= daysInMonth this ->
    dr_callType (dayRequirement this day) <> NoCall ->
    selectBestResident this callStats (dr_date (dayRequirement this day))
      (dr_callType (dayRequirement this day)) s excludeIds = Some best ->
    Reached this s
      (updateResidentStats callStats (id best) (dayRequirement this day),
       out ++ [callFor this best (dayRequirement this day)]
           ++ createPostCallAssignments this
                (callFor this best (dayRequirement this day))
                (dr_callType (dayRequirement this day))).

(** [maxWeekends] of [isEligibleForCall]:
    [config.maxWeekendsPerRotation || 2]. *)
Definition maxWeekends (this : Scheduler) : Z :=
  if maxWeekendsPerRotation (config this) =? 0 then 2
  else maxWeekendsPerRotation (config this).

(** *** Metrics *)

Record ScheduleMetrics := {
  sm_totalCalls : Z;
  sm_totalWeekendCalls : Z;
  sm_totalNightCalls : Z;
  sm_totalHolidayCalls : Z;
  sm_coverageRate : Q;
  sm_fairnessIndex : Q;
  sm_violations : list (Resident * Z * Z);
  sm_residentDistribution : list (string * Z)
}.

(** The running sums of [reduce]: [(acc[i - 1] || 0) + val]. *)
Fixpoint cumulative (acc : Z) (l : list Z) : list Z :=
  match l with
  | [] => []
  | v :: l' => (acc + v) :: cumulative (acc + v) l'
  end.

(** [values.sort((a, b) => a - b)] is the stable ascending sort. *)
Definition calculateGiniCoefficient (values : list Z) : Q :=
  if (length values =? 0)%nat then 0%Q
  else
    let sorted := JS.sortDesc (fun v : Z => v) Z.ltb values in
    let n := Z.of_nat (length sorted) in
    let cumSum := cumulative 0 sorted in
    let totalSum := List.last cumSum 0 in
    if totalSum =? 0 then 0%Q
    else
      let lorenzCurve :=
        map (fun s => (inject_Z s / inject_Z totalSum)%Q) cumSum in
      let giniSum :=
        fold_left (fun g '(i, l) =>
                     (g + (inject_Z (i + 1) / inject_Z n - l))%Q)
                  (combine (seqZ 0 n) lorenzCurve) 0%Q in
      (giniSum / inject_Z n)%Q.

Section Metrics.
Variable this : Scheduler.

Definition calculateCoverageRate (assignments : list CallAssignment) : Q :=
  let daysInMonth := JS.getDate (JS.newDate (year this) (month this + 1) 0) in
  let coveredDays :=
    Z.of_nat (length (List.filter
      (fun day =>
         existsb (fun a => negb (bool_decide (ca_type a = PostCall))
                           && (ca_date a
                               =? JS.newDate (year this) (month this) day))
                 assignments)
      (seqZ 1 daysInMonth))) in
  (inject_Z coveredDays / inject_Z daysInMonth)%Q.

(** A violation is kept as the resident, the calls and the maximum that
    the message is made of. *)
Definition calculateScheduleMetrics (assignments : list CallAssignment)
  : ScheduleMetrics :=
  let residentDistribution := countCalls assignments in
  let violations :=
    flat_map (fun resident =>
                let calls :=
                  default 0 (getCount residentDistribution (id resident)) in
                let block :=
                  getCurrentBlock this
                    (JS.newDate (year this) (month this) 15) in
                let workingDays := getWorkingDaysForBlock this block in
                let maxCalls := getMaxCalls this resident workingDays Normal in
                if maxCalls <? calls then [(resident, calls, maxCalls)]
                else [])
             (residents this) in
  let fairnessIndex :=
    calculateGiniCoefficient (map snd residentDistribution) in
  {| sm_totalCalls :=
       Z.of_nat (length (List.filter
         (fun a => negb (bool_decide (ca_type a = PostCall))) assignments));
     sm_totalWeekendCalls :=
       Z.of_nat (length (List.filter
         (fun a => bool_decide (ca_type a = Weekend)) assignments));
     sm_totalNightCalls :=
       Z.of_nat (length (List.filter
         (fun a => bool_decide (ca_type a = Night)) assignments));
     sm_totalHolidayCalls :=
       Z.of_nat (length (List.filter
         (fun a => bool_decide (ca_type a = Holiday)) assignments));
     sm_coverageRate := calculateCoverageRate assignments;
     sm_fairnessIndex := fairnessIndex;
     sm_violations := violations;
     sm_residentDistribution := residentDistribution |}.

End Metrics.

End MonthlyCallScheduler.

(** ** The validation of the callable function [generateMonthlySchedule] *)

Module Index.

(** The errors are kept as the resident and the count that the message is
    made of. *)
Record ValidationResult := {
  isValid : bool;
  errors : list (Resident * Z)
}.

Definition validateGeneratedSchedule (assignments : list CallAssignment)
    (residents : list Resident) : ValidationResult :=
  let residentCallCounts := countCalls assignments in
  let errors :=
    flat_map (fun '(residentId, count) =>
                match List.find (fun r => String.eqb (id r) residentId)
                                residents with
                | Some resident =>
                    if 8 <? count then [(resident, count)] else []
                | None => []
                end)
             residentCallCounts in
  {| isValid := (length errors =? 0)%nat; errors := errors |}.

End Index.


(** ** The duplicate class of "Monthly Call Scheduler (Backend logic).ts" *)

Module MonthlyCallSchedulerBackendLogic.

Record Scheduler := {
  residents : list Resident;
  config : AppConfiguration;
  academicYear : AcademicYear;
  approvedLeave : list LeaveRequest;
  month : Z;
  year : Z
}.

Section Methods.
Variable this : Scheduler.

Definition getWorkingDaysForBlock (block : option RotationBlock) : Z :=
  match block with
  | None => 28
  | Some _ => 28
  end.

Definition getMaxCalls (resident : Resident) (workingDays : Z)
    (staffingLevel : StaffingLevel) : Z :=
  if isChief resident && callExempt resident then 0
  else
    let paroRule :=
      List.find (fun rule => (minDays rule <=? workingDays)
                             && (workingDays <=? maxDays rule))
                (paroHardCaps (config this)) in
    let paroHardCap :=
      match paroRule with Some rule => calls rule | None => 8 end in
    let callRatio :=
      match callRatios (config this) !! pgyLevel resident with
      | Some ratio => if ratio =? 0 then 99 else ratio
      | None => 99
      end in
    let pgyTarget := workingDays / callRatio in
    match staffingLevel with
    | Normal => Z.min paroHardCap pgyTarget
    | Shortage => paroHardCap
    end.

(** [callCounts.get(id) || 0] *)
Definition getOr0 (m : gmap string Z) (k : string) : Z := default 0 (m !! k).

(** [None] stands for the [TypeError] of calling [map] on an absent
    [weekendDefinition]. *)
Definition isAvailable (resident : Resident) (date : JS.Date)
    (callCounts weekendCounts : gmap string Z)
    (staffingLevel : StaffingLevel) : option bool :=
  let block :=
    List.find (fun b => (startDate b <=? date) && (date <=? endDate b))
              (blocks (academicYear this)) in
  let rotation :=
    match block with
    | Some b =>
        List.find (fun a => String.eqb (ra_residentId a) (id resident))
                  (assignments b)
    | None => None
    end in
  match rotation with
  | None => Some false
  | Some rot =>
      if negb (bool_decide (rotationType rot = CORE_NSX)) then Some false
      else if existsb (fun l => (lr_startDate l <=? date)
                                && (date <=? lr_endDate l)
                                && String.eqb (lr_residentId l) (id resident))
                      (approvedLeave this)
      then Some false
      else
        let workingDays := getWorkingDaysForBlock block in
        let maxCalls := getMaxCalls resident workingDays staffingLevel in
        if maxCalls <=? getOr0 callCounts (id resident) then Some false
        else
          match weekendDefinition (config this) with
          | None => None
          | Some def =>
              let weekendDef := map JS.toLowerCase def in
              let dayName := JS.toLowerCase (JS.weekdayLong date) in
              if JS.includes dayName weekendDef
                 && (maxWeekendsPerRotation (config this)
                     <=? getOr0 weekendCounts (id resident))
              then Some false
              else Some true
          end
  end.

(** [Array.prototype.filter] with a callback that may throw. *)
Fixpoint filterThrowing {A : Type} (f : A -> option bool) (l : list A)
  : option (list A) :=
  match l with
  | [] => Some []
  | x :: l' =>
      match f x with
      | None => None
      | Some keep =>
          match filterThrowing f l' with
          | None => None
          | Some r => Some (if keep then x :: r else r)
          end
      end
  end.

(** The main scheduling loop over the days that are left; the list of
    eligible residents of a day is computed and dropped. *)
Fixpoint schedulingLoop (days : list Z) (callCounts weekendCounts : gmap string Z)
    (staffingLevel : StaffingLevel) (assignments : list CallAssignment)
  : option (list CallAssignment) :=
  match days with
  | [] => Some assignments
  | day :: rest =>
      let currentDate := JS.newDate (year this) (month this) day in
      match filterThrowing
              (fun res => isAvailable res currentDate callCounts weekendCounts
                            staffingLevel)
              (residents this) with
      | None => None
      | Some eligibleResidents =>
          schedulingLoop rest callCounts weekendCounts staffingLevel assignments
      end
  end.

Definition generateSchedule (staffingLevel : StaffingLevel)
  : option (list CallAssignment) :=
  let assignments : list CallAssignment := [] in
  let daysInMonth := JS.getDate (JS.newDate (year this) (month this + 1) 0) in
  let callCounts : gmap string Z :=
    fold_left (fun m r => <[id r := 0]> m) (residents this) ∅ in
  let weekendCounts : gmap string Z :=
    fold_left (fun m r => <[id r := 0]> m) (residents this) ∅ in
  schedulingLoop (seqZ 1 daysInMonth) callCounts weekendCounts staffingLevel
    assignments.

End Methods.

(** The maps [callCounts] and [weekendCounts] as [generateSchedule] builds
    them. *)
Definition zeroCounts (this : Scheduler) : gmap string Z :=
  fold_left (fun m r => <[id r := 0]> m) (residents this) ∅.

(** The resident reaches the weekend check of [isAvailable] on the date:
    on the core rotation in the block of the date, no leave request of any
    status over the date, and a maximum above the count. *)
Definition reachesWeekendCheck (this : Scheduler) (resident : Resident)
    (date : JS.Date) (callCounts : gmap string Z) (s : StaffingLevel)
  : Prop :=
  exists block rot,
    List.find (fun b => (startDate b <=? date) && (date <=? endDate b))
              (blocks (academicYear this)) = Some block
    /\ List.find (fun a => String.eqb (ra_residentId a) (id resident))
                 (assignments block) = Some rot
    /\ rotationType rot = CORE_NSX
    /\ (forall l, In l (approvedLeave this) ->
                  lr_residentId l = id resident ->
                  ~ (lr_startDate l <= date <= lr_endDate l))
    /\ getOr0 callCounts (id resident) < getMaxCalls this resident 28 s.

End MonthlyCallSchedulerBackendLogic.

(** ** The yearly rotation engine (class [YearlyScheduleEngine]) *)

Module YearlyScheduleEngine.

Definition BLOCKS_PER_YEAR : nat := 13.
Definition DAYS_PER_BLOCK : Z := 28.

(** The constructor's arguments.  [startYear] is the number that
    [academicYearId.split('-').map(Number)] puts first.  The external
    rotators are read by the validation phase only. *)
Record Engine := {
  residents : list Resident;
  config : AppConfiguration;
  academicYearId : string;
  startYear : Z
}.

(** [Omit<RotationAssignment, 'residentId'>], as the phases build it: no
    phase before the team balancing gives a [team]. *)
Record Rotation := {
  r_rotationName : string;
  r_rotationType : RotationType;
  r_holidayType : option HolidayType
}.

(** [schedule]: one row per block, one cell per resident; [None] is
    [null]. *)
Abbreviation Grid := (list (list (option RotationAssignment))).

(** A loop whose body may throw: [None] is the exception. *)
Fixpoint forEachM {S A : Type} (body : S -> A -> option S) (l : list A) (s : S)
  : option S :=
  match l with
  | [] => Some s
  | x :: l' =>
      match body s x with
      | None => None
      | Some s' => forEachM body l' s'
      end
  end.

Section Methods.
Variable this : Engine.

Definition emptySchedule : Grid :=
  replicate BLOCKS_PER_YEAR (replicate (length (residents this)) None).

Definition generateBlockDates : list (JS.Date * JS.Date) :=
  map (fun i : nat =>
         let start := JS.newDate (startYear this) 6 1
                      + DAYS_PER_BLOCK * Z.of_nat i in
         (start, start + DAYS_PER_BLOCK - 1))
      (seq 0 BLOCKS_PER_YEAR).

(** [this.schedule[block][resIndex] === null]; reading a cell of a row that
    does not exist throws. *)
Definition isSlotEmpty (schedule : Grid) (block : Z) (resIndex : nat)
  : option bool :=
  if block <? 0 then None
  else
    match schedule !! Z.to_nat block with
    | None => None
    | Some row =>
        Some (match row !! resIndex with
              | Some None => true
              | _ => false
              end)
    end.

Definition assign (schedule : Grid) (block : Z) (resIndex : nat)
    (rotation : Rotation) : option Grid :=
  match isSlotEmpty schedule block resIndex with
  | None => None
  | Some false => Some schedule
  | Some true =>
      match residents this !! resIndex with
      | None => None
      | Some resident =>
          let cell :=
            {| ra_residentId := id resident;
               rotationName := r_rotationName rotation;
               rotationType := r_rotationType rotation;
               team := None;
               holidayType := r_holidayType rotation |} in
          Some (alter (fun row => <[resIndex := Some cell]> row)
                      (Z.to_nat block) schedule)
      end
  end.

Definition indexedResidents : list (nat * Resident) :=
  imap (fun resIndex resident => (resIndex, resident)) (residents this).

(** The body shared by phases 1 and 2: every resident whose PGY level the
    rule lists gets the rule's rotation in the rule's block. *)
Definition applyRule (rtype : RotationType) (schedule : Grid)
    (rule : MandatoryRule) : option Grid :=
  forEachM (fun g '(resIndex, resident) =>
              if existsb (Z.eqb (pgyLevel resident)) (mr_pgyLevels rule)
              then assign g (mr_blockNumber rule - 1) resIndex
                     {| r_rotationName := mr_rotationName rule;
                        r_rotationType := rtype;
                        r_holidayType := None |}
              else Some g)
           indexedResidents schedule.

Definition phase1_AssignMandatoryRotations (schedule : Grid) : option Grid :=
  forEachM (applyRule MANDATORY_OFF_SERVICE)
           (mandatoryRotations (config this)) schedule.

Definition phase2_AssignExamBlocks (schedule : Grid) : option Grid :=
  forEachM (applyRule EXAM_LEAVE) (examLeave (config this)) schedule.

Definition phase3_AssignHolidayBlocks (schedule : Grid) : option Grid :=
  let seniors :=
    JS.sortDesc (fun s : nat * Resident => pgyLevel (snd s)) Z.gtb
      (List.filter (fun s : nat * Resident => 4 <=? pgyLevel (snd s))
                   indexedResidents) in
  forEachM (fun g '(idx, senior) =>
              let blockToAssign : Z := if Nat.even idx then 6 else 7 in
              match isSlotEmpty g (blockToAssign - 1) (fst senior) with
              | None => None
              | Some false => Some g
              | Some true =>
                  assign g (blockToAssign - 1) (fst senior)
                    {| r_rotationName := "Holiday Leave";
                       r_rotationType := HOLIDAY_LEAVE;
                       r_holidayType :=
                         Some (if blockToAssign =? 6 then Christmas
                               else NewYear) |}
              end)
           (imap (fun idx senior => (idx, senior)) seniors) schedule.

Definition phase4_AssignCoreNeurosurgeryRotations (schedule : Grid)
  : option Grid :=
  forEachM (fun g block =>
              forEachM (fun g' resIndex =>
                          match isSlotEmpty g' (Z.of_nat block) resIndex with
                          | None => None
                          | Some false => Some g'
                          | Some true =>
                              assign g' (Z.of_nat block) resIndex
                                {| r_rotationName := "Neurosurgery - Core";
                                   r_rotationType := CORE_NSX;
                                   r_holidayType := None |}
                          end)
                       (seq 0 (length (residents this))) g)
           (seq 0 BLOCKS_PER_YEAR) schedule.

Definition isCore (a : RotationAssignment) : bool :=
  bool_decide (rotationType a = CORE_NSX).

(** First pass of phase 6: the cells of a row already tagged with [t]. *)
Definition countTeam (t : Team) (row : list (option RotationAssignment)) : Z :=
  Z.of_nat (length (List.filter
    (fun cell => match cell with
                 | Some a => isCore a && bool_decide (team a = Some t)
                 | None => false
                 end) row)).

Definition setTeam (t : Team) (a : RotationAssignment) : RotationAssignment :=
  {| ra_residentId := ra_residentId a;
     rotationName := rotationName a;
     rotationType := rotationType a;
     team := Some t;
     holidayType := holidayType a |}.

(** Second pass of phase 6 over the cells that are left, with the running
    counts. *)
Fixpoint assignTeams (redTeamCount blueTeamCount : Z)
    (row : list (option RotationAssignment))
  : list (option RotationAssignment) :=
  match row with
  | [] => []
  | cell :: rest =>
      match cell with
      | Some a =>
          if isCore a && bool_decide (team a = None) then
            if redTeamCount <=? blueTeamCount
            then Some (setTeam Red a)
                 :: assignTeams (redTeamCount + 1) blueTeamCount rest
            else Some (setTeam Blue a)
                 :: assignTeams redTeamCount (blueTeamCount + 1) rest
          else cell :: assignTeams redTeamCount blueTeamCount rest
      | None => cell :: assignTeams redTeamCount blueTeamCount rest
      end
  end.

Definition balanceBlock (row : list (option RotationAssignment))
  : list (option RotationAssignment) :=
  assignTeams (countTeam Red row) (countTeam Blue row) row.

Definition phase6_BalanceTeams (schedule : Grid) : Grid :=
  fold_left (fun g block => alter balanceBlock block g)
            (seq 0 BLOCKS_PER_YEAR) schedule.

Definition formatScheduleForFirestore (schedule : Grid) : AcademicYear :=
  let blockDates := generateBlockDates in
  {| ay_id := academicYearId this;
     blocks :=
       map (fun blockNum : nat =>
              {| blockNumber := Z.of_nat blockNum + 1;
                 startDate := fst (default (0, 0) (blockDates !! blockNum));
                 endDate := snd (default (0, 0) (blockDates !! blockNum));
                 assignments :=
                   omap (fun cell => cell) (default [] (schedule !! blockNum))
              |})
           (seq 0 BLOCKS_PER_YEAR) |}.

(** Phases 0 and 5 are empty and phase 7 only reports on the console, so
    the grid goes through phases 1, 2, 3, 4 and 6.  [None] is an exception
    thrown by a phase, which [generateSchedule] rethrows. *)
Definition generateSchedule : option AcademicYear :=
  match phase1_AssignMandatoryRotations emptySchedule with
  | None => None
  | Some g1 =>
      match phase2_AssignExamBlocks g1 with
      | None => None
      | Some g2 =>
          match phase3_AssignHolidayBlocks g2 with
          | None => None
          | Some g3 =>
              match phase4_AssignCoreNeurosurgeryRotations g3 with
              | None => None
              | Some g4 =>
                  Some (formatScheduleForFirestore (phase6_BalanceTeams g4))
              end
          end
      end
  end.

End Methods.

(** The teams of the CORE_NSX rows of a block, in row order. *)
Definition coreTeams (b : RotationBlock) : list (option Team) :=
  map team (List.filter isCore (assignments b)).

(** The number of tags [t] in a list of tags. *)
Definition countTag (t : Team) (tags : list (option Team)) : Z :=
  Z.of_nat (length (List.filter (fun x => bool_decide (x = Some t)) tags)).

(** The number of CORE_NSX rows of the block tagged [t]. *)
Definition teamCount (t : Team) (b : RotationBlock) : Z :=
  countTag t (coreTeams b).

(** Red, Blue, Red, ... ([n] tags, starting with [t]). *)
Fixpoint alternating (n : nat) (t : Team) : list (option Team) :=
  match n with
  | O => []
  | S n' => Some t :: alternating n' (match t with Red => Blue | Blue => Red end)
  end.

(** No cell of the row carries a team. *)
Definition untagged (row : list (option RotationAssignment)) : Prop :=
  Forall (fun cell => match cell with
                      | Some a => team a = None
                      | None => True
                      end) row.

(** The CORE_NSX cells of a row, in order. *)
Definition coreCells (row : list (option RotationAssignment))
  : list RotationAssignment :=
  List.filter isCore (omap (fun cell => cell) row).

Definition otherTeam (t : Team) : Team :=
  match t with Red => Blue | Blue => Red end.

(** The rule names a block of the year. *)
Definition blockInRange (rule : MandatoryRule) : Prop :=
  1 <= mr_blockNumber rule <= 13.

(** *** The grid of the phases *)

(** The cell of block index [b] and resident index [i]. *)
Definition cellAt (g : Grid) (b i : nat)
  : option (option RotationAssignment) :=
  match g !! b with
  | Some row => row !! i
  | None => None
  end.

(** The cell [assign] writes for [resident]. *)
Definition cellOf (resident : Resident) (rotation : Rotation)
  : RotationAssignment :=
  {| ra_residentId := id resident;
     rotationName := r_rotationName rotation;
     rotationType := r_rotationType rotation;
     team := None;
     holidayType := r_holidayType rotation |}.

(** 13 rows, each with one cell per resident. *)
Definition shaped (this : Engine) (g : Grid) : Prop :=
  length g = BLOCKS_PER_YEAR
  /\ forall b row, g !! b = Some row -> length row = length (residents this).

(** Where the rotation [a] of resident [r] in the block of index [b] comes
    from: a mandatory-rotation or exam-leave rule that names the block and
    lists the PGY level of the resident; the holiday leave of a senior in
    block 6 (Christmas) or 7 (New Year); or the core rotation. *)
Definition rotationSource (this : Engine) (b : nat) (r : Resident)
    (a : RotationAssignment) : Prop :=
  ra_residentId a = id r
  /\ match rotationType a with
     | MANDATORY_OFF_SERVICE =>
         exists rule,
           In rule (mandatoryRotations (config this))
           /\ mr_blockNumber rule = Z.of_nat b + 1
           /\ In (pgyLevel r) (mr_pgyLevels rule)
           /\ rotationName a = mr_rotationName rule
           /\ holidayType a = None
     | EXAM_LEAVE =>
         exists rule,
           In rule (examLeave (config this))
           /\ mr_blockNumber rule = Z.of_nat b + 1
           /\ In (pgyLevel r) (mr_pgyLevels rule)
           /\ rotationName a = mr_rotationName rule
           /\ holidayType a = None
     | HOLIDAY_LEAVE =>
         4 <= pgyLevel r
         /\ rotationName a = "Holiday Leave"%string
         /\ ((b = 5%nat /\ holidayType a = Some Christmas)
             \/ (b = 6%nat /\ holidayType a = Some NewYear))
     | CORE_NSX =>
         rotationName a = "Neurosurgery - Core"%string
         /\ holidayType a = None
     | FLEXIBLE => False
     end.

(** The invariant of the phases: the grid is shaped, and every cell that
    is filled holds a rotation of a type in [T] for the resident of its
    column, with a source. *)
Definition sound (this : Engine) (T : RotationType -> Prop) (g : Grid)
  : Prop :=
  shaped this g
  /\ forall b i a,
       cellAt g b i = Some (Some a) ->
       T (rotationType a)
       /\ team a = None
       /\ exists r, residents this !! i = Some r /\ rotationSource this b r a.

(** The cells that are filled in [g] are the same in [g']. *)
Definition keeps (g g' : Grid) : Prop :=
  forall b i a, cellAt g b i = Some (Some a) -> cellAt g' b i = Some (Some a).

(** Every cell of the grid is filled. *)
Definition full (this : Engine) (g : Grid) : Prop :=
  forall b i, (b < BLOCKS_PER_YEAR)%nat -> (i < length (residents this))%nat ->
              exists a, cellAt g b i = Some (Some a).

(** The rule lists the PGY level of some resident of the roster. *)
Definition ruleMatches (this : Engine) (rule : MandatoryRule) : Prop :=
  exists r, In r (residents this) /\ In (pgyLevel r) (mr_pgyLevels rule).

(** [a'] is [a] with, possibly, a team. *)
Definition retag (a a' : RotationAssignment) : Prop :=
  a' = a \/ exists t, a' = setTeam t a.

(** The types a phase may have written: phase 1, phases 1 and 2, any
    phase. *)
Definition isMandatory (t : RotationType) : Prop := t = MANDATORY_OFF_SERVICE.
Definition isMandatoryOrExam (t : RotationType) : Prop :=
  t = MANDATORY_OFF_SERVICE \/ t = EXAM_LEAVE.

(** The residents a rule names are placed in the block of the rule, with a
    rotation of a type in [T]. *)
Definition placed (this : Engine) (T : RotationType -> Prop)
    (rule : MandatoryRule) (g : Grid) : Prop :=
  forall i r,
    residents this !! i = Some r -> In (pgyLevel r) (mr_pgyLevels rule) ->
    1 <= mr_blockNumber rule <= 13
    /\ exists a, cellAt g (Z.to_nat (mr_blockNumber rule - 1)) i
                 = Some (Some a)
                 /\ T (rotationType a).

(** The rule makes the engine fail: it names no block of the year and
    lists the PGY level of a resident. *)
Definition failing (this : Engine) (rule : MandatoryRule) : Prop :=
  ~ blockInRange rule /\ ruleMatches this rule.

Definition failingb (this : Engine) (rule : MandatoryRule) : bool :=
  negb ((1 <=? mr_blockNumber rule) && (mr_blockNumber rule <=? 13))
  && existsb (fun r => existsb (Z.eqb (pgyLevel r)) (mr_pgyLevels rule))
             (residents this).

End YearlyScheduleEngine.

(** ** The leave-request analyzer (vacation-analyzer) *)

Module VacationAnalyzer.

Inductive RiskLevel := Low | Medium | High.
Inductive Decision := Approve | Flagged | Deny.
Inductive Severity := SevHigh | SevMedium.
Inductive ConflictType := Call | OR | Clinic.

#[global] Instance RiskLevel_eq_dec : EqDecision RiskLevel.
Proof. solve_decision. Defined.
#[global] Instance Decision_eq_dec : EqDecision Decision.
Proof. solve_decision. Defined.
#[global] Instance Severity_eq_dec : EqDecision Severity.
Proof. solve_decision. Defined.

Record CoverageAnalysis := {
  riskLevel : RiskLevel;
  availableResidents : Z;
  totalResidents : Z;
  overlappingLeaveCount : Z;
  coverageRatio : Q;
  criticalDates : list JS.Date
}.

Record FairnessAnalysis := {
  score : Z;
  recommendations : list string
}.

Record Conflict := {
  c_type : ConflictType;
  c_date : JS.Date;
  c_severity : Severity
}.

Record PolicyCompliance := {
  isCompliant : bool;
  violations : list string
}.

(** The two collections that [analyzeCoverageImpact] queries. *)
Record Db := {
  db_residents : list Resident;
  db_leaveRequests : list LeaveRequest
}.

(** The classification of the coverage ratio, before the adjustment for
    critical dates. *)
Definition ratioRiskLevel (coverageRatio : Q) : RiskLevel :=
  if Qle_bool (8 # 10) coverageRatio then Low
  else if Qle_bool (6 # 10) coverageRatio then Medium
  else High.

(** The weekend days of the request's range. *)
Definition weekendDates (request : LeaveRequest) : list JS.Date :=
  List.filter (fun current =>
                 let dayOfWeek := JS.getDay current in
                 (dayOfWeek =? 0) || (dayOfWeek =? 6))
              (seqZ (lr_startDate request)
                    (lr_endDate request - lr_startDate request + 1)).

Definition analyzeCoverageImpact (db : Db) (request : LeaveRequest)
  : CoverageAnalysis :=
  let total :=
    Z.of_nat (length (List.filter
      (fun r => onService r && String.eqb (specialty r) "Neurosurgery")
      (db_residents db))) in
  let overlappingSnapshot :=
    List.filter (fun l => bool_decide (lr_status l = Approved)
                          && (lr_startDate request <=? lr_endDate l))
                (db_leaveRequests db) in
  let overlappingLeave :=
    List.filter (fun leave =>
                   (lr_startDate leave <=? lr_endDate request)
                   && negb (String.eqb (lr_residentId leave)
                                       (lr_residentId request)))
                overlappingSnapshot in
  let overlappingCount := Z.of_nat (length overlappingLeave) in
  let available := total - overlappingCount - 1 in
  let ratio := (inject_Z available / inject_Z total)%Q in
  let critical := weekendDates request in
  let risk := ratioRiskLevel ratio in
  let risk :=
    if (2 <? Z.of_nat (length critical)) && bool_decide (risk = Low)
    then Medium
    else if 4 <? Z.of_nat (length critical) then High
    else risk in
  {| riskLevel := risk;
     availableResidents := available;
     totalResidents := total;
     overlappingLeaveCount := overlappingCount;
     coverageRatio := ratio;
     criticalDates := critical |}.

(** The [decision] field of [generateRecommendation]'s result. *)
Definition generateRecommendation (fairness : FairnessAnalysis)
    (coverage : CoverageAnalysis) (conflicts : list Conflict)
    (policyCompliance : PolicyCompliance) : Decision :=
  let criticalConflicts :=
    List.filter (fun c => bool_decide (c_severity c = SevHigh)) conflicts in
  if (0 <? length criticalConflicts)%nat then Deny
  else if negb (isCompliant policyCompliance)
          && (1 <? length (violations policyCompliance))%nat then Deny
  else if bool_decide (riskLevel coverage = High)
          && negb (Qle_bool (5 # 10) (coverageRatio coverage)) then Deny
  else
    let concerns : list string :=
      (if bool_decide (riskLevel coverage = Medium)
       then ["medium coverage risk"] else [])
      ++ (if score fairness <? 40 then ["low fairness score"] else [])
      ++ (if (0 <? length conflicts)%nat then ["minor conflicts"] else [])
      ++ (if negb (isCompliant policyCompliance)
          then ["policy concerns"] else []) in
    if (2 <=? length concerns)%nat then Flagged
    else if (length concerns =? 1)%nat then Flagged
    else Approve.

(** What [performComprehensiveAnalysis] has at hand once its reads are
    joined and the fairness and policy checks are made. *)
Record AnalysisInputs := {
  ai_fairness : FairnessAnalysis;
  ai_coverage : CoverageAnalysis;
  ai_conflicts : list Conflict;
  ai_policy : PolicyCompliance
}.

Definition performComprehensiveAnalysis (inp : AnalysisInputs) : Decision :=
  generateRecommendation (ai_fairness inp) (ai_coverage inp)
    (ai_conflicts inp) (ai_policy inp).

Definition withStatus (request : LeaveRequest) (s : LeaveStatus)
  : LeaveRequest :=
  {| lr_residentId := lr_residentId request;
     lr_status := s;
     lr_startDate := lr_startDate request;
     lr_endDate := lr_endDate request |}.

(** Whether [generateRecommendation]'s result has a [reason]: each of its
    denying and flagging branches sets one, the approving branch returns
    [decision] and [notes] only.  [performComprehensiveAnalysis] hands the
    field on as [denialReason]. *)
Definition denialReasonDefined (recommendation : Decision) : bool :=
  match recommendation with
  | Deny | Flagged => true
  | Approve => false
  end.

(** The transaction of the trigger: it stages the report, whose
    [denialReason] field is the analysis result's, and then the update of
    the request, whose [denialJustification] is the same value.  Staging
    data with an [undefined] field throws; [None] stands for the exception.
    Otherwise the request is left with the new status. *)
Definition runTransaction (request : LeaveRequest)
    (recommendation : Decision) : option LeaveRequest :=
  if denialReasonDefined recommendation
  then Some (withStatus request
               (if bool_decide (recommendation = Deny) then Denied
                else PendingApproval))
  else None.

(** The trigger [analyzeLeaveRequest], as the request document it leaves
    behind.  [fetched] is [None] when the analysis throws.  The [catch]
    block, which an exception of the analysis or of the transaction
    reaches, writes the status 'Analysis Failed'.  The notification written
    after the transaction has every field defined. *)
Definition analyzeLeaveRequest (request : LeaveRequest)
    (fetched : option AnalysisInputs) : LeaveRequest :=
  if negb (bool_decide (lr_status request = PendingAnalysis)) then request
  else
    let attempt :=
      match fetched with
      | Some inp => runTransaction request (performComprehensiveAnalysis inp)
      | None => None
      end in
    match attempt with
    | Some updated => updated
    | None => withStatus request AnalysisFailed
    end.

(** *** The remaining steps of the analysis *)

(** The inclusive length of a leave in days:
    [Math.ceil((end - start) / (1000 * 60 * 60 * 24)) + 1]. *)
Definition leaveDays (leave : LeaveRequest) : Z :=
  lr_endDate leave - lr_startDate leave + 1.

(** [x || d] on a number. *)
Definition orDefault (d x : Z) : Z := if x =? 0 then d else x.

Definition recentDaysOff (historicalLeave : list LeaveRequest) : Z :=
  let approvedLeave :=
    List.filter (fun l => bool_decide (lr_status l = Approved))
                historicalLeave in
  fold_left (fun sum leave => sum + leaveDays leave) approvedLeave 0.

Definition historicalRate (request : LeaveRequest)
    (historicalLeave : list LeaveRequest) : JS.Number :=
  let samePeriodRequests :=
    List.filter (fun l => JS.getMonth (lr_startDate l)
                          =? JS.getMonth (lr_startDate request))
                historicalLeave in
  let approvedCount :=
    length (List.filter (fun l => bool_decide (lr_status l = Approved))
                        samePeriodRequests) in
  if (0 <? length samePeriodRequests)%nat
  then JS.div (JS.ofZ (Z.of_nat approvedCount))
              (JS.ofZ (Z.of_nat (length samePeriodRequests)))
  else JS.literal 5 10.

(** [peerData.averageDaysOff || 10] *)
Definition peerAverageOf (averageDaysOff : JS.Number) : JS.Number :=
  JS.orElse averageDaysOff (JS.ofZ 10).

Definition peerComparisonOf (historicalLeave : list LeaveRequest)
    (averageDaysOff : JS.Number) : JS.Number :=
  let peerAverage := peerAverageOf averageDaysOff in
  if JS.gtb peerAverage (JS.ofZ 0)
  then JS.div (JS.ofZ (recentDaysOff historicalLeave)) peerAverage
  else JS.ofZ 1.

(** [calculateFairness]; [averageDaysOff] is [peerData.averageDaysOff], the
    number that [getPeerComparisonData] computed. *)
Definition calculateFairness (request : LeaveRequest)
    (historicalLeave : list LeaveRequest) (resident : Resident)
    (averageDaysOff : JS.Number) : FairnessAnalysis :=
  let recent := recentDaysOff historicalLeave in
  let rate := historicalRate request historicalLeave in
  let peerAverage := peerAverageOf averageDaysOff in
  let peerComparison := peerComparisonOf historicalLeave averageDaysOff in
  let score := 100 in
  let score :=
    if 15 <? recent then score - 30
    else if 10 <? recent then score - 20
    else if 5 <? recent then score - 10
    else score in
  let score :=
    if JS.gtb peerComparison (JS.literal 15 10) then score - 20
    else if JS.gtb peerComparison (JS.literal 12 10) then score - 10
    else if JS.ltb peerComparison (JS.literal 5 10) then score + 10
    else score in
  let score := score + pgyLevel resident * 2 in
  let score := Z.max 0 (Z.min 100 score) in
  {| score := score;
     recommendations :=
       (if JS.gtb (JS.ofZ recent) peerAverage
        then ["Consider deferring to allow peers equal opportunity"]
        else [])
       ++ (if JS.ltb rate (JS.literal 3 10)
           then ["This period historically has low approval rates"]
           else []) |}.

(** [config.leavePolicy] *)
Record LeavePolicy := {
  minNoticeDays : Z;
  maxConsecutiveDays : Z;
  annualLimit : Z
}.

(** The three numbers [checkPolicyCompliance] compares: the days of notice,
    the days of the request and the approved days of leave that started
    this calendar year.  [today] is the day of [Date.now()]: the request
    starts at midnight, so the notice rounds up to whole days. *)
Definition daysNotice (request : LeaveRequest) (today : JS.Date) : Z :=
  lr_startDate request - today.

Definition yearDaysUsed (historicalLeave : list LeaveRequest)
    (today : JS.Date) : Z :=
  let yearStart := JS.newDate (JS.getFullYear today) 0 1 in
  let yearLeave :=
    List.filter (fun l => bool_decide (lr_status l = Approved)
                          && (yearStart <=? lr_startDate l))
                historicalLeave in
  fold_left (fun sum leave => sum + leaveDays leave) yearLeave 0.

Definition minNoticeOf (policy : option LeavePolicy) : Z :=
  orDefault 30 (from_option minNoticeDays 0 policy).
Definition maxConsecutiveOf (policy : option LeavePolicy) : Z :=
  orDefault 14 (from_option maxConsecutiveDays 0 policy).
Definition annualLimitOf (policy : option LeavePolicy) : Z :=
  orDefault 21 (from_option annualLimit 0 policy).

(** [checkPolicyCompliance]; [requestType] is [request.type] and [policy]
    is [config.leavePolicy]. *)
Definition checkPolicyCompliance (request : LeaveRequest)
    (requestType : string) (historicalLeave : list LeaveRequest)
    (policy : option LeavePolicy) (today : JS.Date) : PolicyCompliance :=
  let minNotice := minNoticeOf policy in
  let maxConsecutive := maxConsecutiveOf policy in
  let limit := annualLimitOf policy in
  let requestDays := leaveDays request in
  let violations :=
    (if (daysNotice request today <? minNotice)
        && negb (String.eqb requestType "Compassionate")
     then ["Less than " +:+ pretty minNotice +:+ " days notice provided"]
     else [])
    ++ (if maxConsecutive <? requestDays
        then ["Exceeds maximum " +:+ pretty maxConsecutive
              +:+ " consecutive days"]
        else [])
    ++ (if limit <? yearDaysUsed historicalLeave today + requestDays
        then ["Would exceed annual limit of " +:+ pretty limit +:+ " days"]
        else []) in
  {| isCompliant := (length violations =? 0)%nat;
     violations := violations |}.

(** *** Schedule conflicts *)

(** A day of a weekly schedule: its date and the residents of its OR and
    clinic assignments. *)
Record WeekDay := {
  wd_date : JS.Date;
  wd_or : list string;
  wd_clinic : list string
}.

(** The collections [monthlySchedules] and [weeklySchedules], by document
    id; a monthly schedule is its [assignments], a weekly schedule its
    [days]. *)
Record ScheduleDb := {
  monthlySchedules : gmap string (list CallAssignment);
  weeklySchedules : gmap string (list WeekDay)
}.

(** [n.toString().padStart(2, '0')] *)
Definition pad2 (n : Z) : string :=
  let s := pretty n in
  if (String.length s <? 2)%nat then "0" +:+ s else s.

(** [`${d.getFullYear()}-${(d.getMonth() + 1).toString().padStart(2, '0')}`] *)
Definition monthIdOf (d : JS.Date) : string :=
  pretty (JS.getFullYear d) +:+ "-" +:+ pad2 (JS.getMonth d + 1).

(** [getWeekNumber]: the ISO week of the date. *)
Definition getWeekNumber (d : JS.Date) : Z :=
  let dow := JS.getDay d in
  let date := d + 4 - (if dow =? 0 then 7 else dow) in
  let yearStart := JS.newDate (JS.getFullYear date) 0 1 in
  (* Math.ceil (x / 7) *)
  - ((- (date - yearStart + 1)) / 7).

(** [`${d.getFullYear()}-${getWeekNumber(d)}`] *)
Definition weekIdOf (d : JS.Date) : string :=
  pretty (JS.getFullYear d) +:+ "-" +:+ pretty (getWeekNumber d).

(** [[...new Set(l)]]: the first occurrences, in order. *)
Fixpoint uniqueFrom (seen : list string) (l : list string) : list string :=
  match l with
  | [] => []
  | x :: l' =>
      if JS.includes x seen then uniqueFrom seen l'
      else x :: uniqueFrom (x :: seen) l'
  end.

Definition unique (l : list string) : list string := uniqueFrom [] l.

(** The dates of the request's range. *)
Definition requestDates (request : LeaveRequest) : list JS.Date :=
  seqZ (lr_startDate request)
       (lr_endDate request - lr_startDate request + 1).

Definition sameDayAsSome (dates : list JS.Date) (d : JS.Date) : bool :=
  existsb (fun d' => d =? d') dates.

Definition checkScheduleConflicts (sdb : ScheduleDb) (request : LeaveRequest)
  : list Conflict :=
  let dates := requestDates request in
  let monthIds := unique (map monthIdOf dates) in
  let callConflicts :=
    flat_map
      (fun monthId =>
         match monthlySchedules sdb !! monthId with
         | None => []
         | Some assignments =>
             map (fun call =>
                    {| c_type := Call; c_date := ca_date call;
                       c_severity := SevHigh |})
                 (List.filter
                    (fun a => String.eqb (ca_residentId a)
                                         (lr_residentId request)
                              && sameDayAsSome dates (ca_date a))
                    assignments)
         end)
      monthIds in
  let weekIds := unique (map weekIdOf dates) in
  let clinicalConflicts :=
    flat_map
      (fun weekId =>
         match weeklySchedules sdb !! weekId with
         | None => []
         | Some days =>
             flat_map
               (fun day =>
                  if sameDayAsSome dates (wd_date day) then
                    map (fun _ => {| c_type := OR; c_date := wd_date day;
                                     c_severity := SevHigh |})
                        (List.filter
                           (fun rid => String.eqb rid (lr_residentId request))
                           (wd_or day))
                    ++ map (fun _ => {| c_type := Clinic;
                                        c_date := wd_date day;
                                        c_severity := SevMedium |})
                           (List.filter
                              (fun rid =>
                                 String.eqb rid (lr_residentId request))
                              (wd_clinic day))
                  else [])
               days
         end)
      weekIds in
  callConflicts ++ clinicalConflicts.

(** *** Alternative dates *)

Definition withDates (request : LeaveRequest) (s e : JS.Date) : LeaveRequest :=
  {| lr_residentId := lr_residentId request;
     lr_status := lr_status request;
     lr_startDate := s;
     lr_endDate := e |}.

(** The loop of [findAlternativeDates] over the offsets that are left. *)
Fixpoint alternativesLoop (db : Db) (request : LeaveRequest)
    (currentCoverage : CoverageAnalysis) (offsets : list Z)
    (alternatives : list JS.Date) : list JS.Date :=
  match offsets with
  | [] => alternatives
  | i :: rest =>
      let duration := leaveDays request in
      let searchStart := lr_startDate request - 14 in
      let testStart := searchStart + i in
      let testEnd := testStart + duration - 1 in
      if (testStart <=? lr_endDate request)
         && (lr_startDate request <=? testEnd)
      then alternativesLoop db request currentCoverage rest alternatives
      else
        let testCoverage :=
          analyzeCoverageImpact db (withDates request testStart testEnd) in
        let alternatives :=
          if bool_decide (riskLevel testCoverage = Low)
             && JS.Qgtb (coverageRatio testCoverage)
                        (coverageRatio currentCoverage)
          then alternatives ++ [testStart]
          else alternatives in
        if (3 <=? length alternatives)%nat then alternatives
        else alternativesLoop db request currentCoverage rest alternatives
  end.

Definition findAlternativeDates (db : Db) (request : LeaveRequest)
    (currentCoverage : CoverageAnalysis) : list JS.Date :=
  alternativesLoop db request currentCoverage (seqZ 0 28) [].

(** *** The whole analysis *)

(** What [performComprehensiveAnalysis] reads besides the two databases:
    the resident, the resident's leave requests of the last six months,
    the peers' average days off, the leave policy and the day of the
    analysis. *)
Record Fetched := {
  fe_resident : Resident;
  fe_requestType : string;
  fe_historicalLeave : list LeaveRequest;
  fe_averageDaysOff : JS.Number;
  fe_policy : option LeavePolicy;
  fe_today : JS.Date
}.

Definition gatherInputs (db : Db) (sdb : ScheduleDb) (request : LeaveRequest)
    (fe : Fetched) : AnalysisInputs :=
  {| ai_fairness :=
       calculateFairness request (fe_historicalLeave fe) (fe_resident fe)
         (fe_averageDaysOff fe);
     ai_coverage := analyzeCoverageImpact db request;
     ai_conflicts := checkScheduleConflicts sdb request;
     ai_policy :=
       checkPolicyCompliance request (fe_requestType fe)
         (fe_historicalLeave fe) (fe_policy fe) (fe_today fe) |}.

(** The [alternativeDates] of the analysis result. *)
Definition alternativeDatesOf (db : Db) (sdb : ScheduleDb)
    (request : LeaveRequest) (fe : Fetched) : list JS.Date :=
  let inp := gatherInputs db sdb request fe in
  if bool_decide (performComprehensiveAnalysis inp = Approve) then []
  else findAlternativeDates db request (ai_coverage inp).

(** The test of [weekendDates]: a Saturday or a Sunday. *)
Definition isSatSun (d : JS.Date) : bool :=
  (JS.getDay d =? 0) || (JS.getDay d =? 6).

(** The offers of [findAlternativeDates]: a start date within two weeks of
    the request, for a period of the same length that does not overlap the
    request, rated Low and with a better ratio than the request. *)
Definition goodAlternative (db : Db) (request : LeaveRequest)
    (currentCoverage : CoverageAnalysis) (s : JS.Date) : Prop :=
  lr_startDate request - 14 <= s <= lr_startDate request + 13
  /\ (lr_endDate request < s
      \/ s + leaveDays request - 1 < lr_startDate request)
  /\ riskLevel (analyzeCoverageImpact db
                  (withDates request s (s + leaveDays request - 1))) = Low
  /\ (coverageRatio currentCoverage
      < coverageRatio (analyzeCoverageImpact db
                         (withDates request s (s + leaveDays request - 1))))%Q.


End VacationAnalyzer.

(** ** Specification-side notions and concrete inputs *)

Module Spec.

(** "paroCap = first rule in config.paroHardCaps where
    rule.minDays <= W <= rule.maxDays; default 8." *)
Inductive ParoCap (caps : list ParoRule) (W : Z) : Z -> Prop :=
| ParoCap_first (pre : list ParoRule) (rule : ParoRule) (post : list ParoRule) :
    caps = pre ++ rule :: post ->
    Forall (fun r => ~ (minDays r <= W <= maxDays r)) pre ->
    minDays rule <= W <= maxDays rule ->
    ParoCap caps W (calls rule)
| ParoCap_default :
    Forall (fun r => ~ (minDays r <= W <= maxDays r)) caps ->
    ParoCap caps W 8.

(** The place of a double in the order of the doubles: the class (negative
    infinity, negative, zero, positive, positive infinity), then the
    exponent and the mantissa, both counted downwards for a negative
    number.  The two zeros share a place; NaN is given one beyond the
    infinities, which no comparison looks at. *)
Definition rank (x : JS.Number) : Z * Z * Z :=
  match x with
  | S754_infinity true => (-2, 0, 0)
  | S754_finite true m e => (-1, - e, Z.neg m)
  | S754_zero _ => (0, 0, 0)
  | S754_finite false m e => (1, e, Z.pos m)
  | S754_infinity false => (2, 0, 0)
  | S754_nan => (3, 0, 0)
  end.

Definition lexlt (a b : Z * Z * Z) : Prop :=
  let '(a1, a2, a3) := a in
  let '(b1, b2, b3) := b in
  a1 < b1 \/ (a1 = b1 /\ (a2 < b2 \/ (a2 = b2 /\ a3 < b3))).

(** The number of dates of [l] in the window [[lo, hi)]. *)
Fixpoint countInWindow (lo hi : JS.Date) (l : list JS.Date) : Z :=
  match l with
  | [] => 0
  | d :: l' =>
      (if (lo <=? d) && (d <? hi) then 1 else 0) + countInWindow lo hi l'
  end.

(** recentCalls(r, [lo, hi)): the calls of [residentId] recorded in the
    statistics whose date lies in the window. *)
Definition recentCalls (callStats : gmap string MonthlyCallScheduler.CallStats)
    (residentId : string) (lo hi : JS.Date) : Z :=
  countInWindow lo hi
    (MonthlyCallScheduler.callDates (callStats !!! residentId)).

(** An assignment that is a call, not a post-call marker. *)
Definition isCall (a : CallAssignment) : Prop := ca_type a <> PostCall.


(** The tie-break the scorer is described with: among the eligible
    residents with the score of the chosen one, the chosen one has the
    lowest call count and, among those, the smallest id. *)
Definition tieBreakByCountThenId (this : MonthlyCallScheduler.Scheduler)
    (callStats : gmap string MonthlyCallScheduler.CallStats)
    (date : JS.Date) (callType : CallType) (staffingLevel : StaffingLevel)
    (excludeIds : list string) : Prop :=
  forall best other,
    MonthlyCallScheduler.selectBestResident this callStats date callType
      staffingLevel excludeIds = Some best ->
    In other (MonthlyCallScheduler.eligibleResidents this callStats date
                staffingLevel excludeIds) ->
    JS.eqb
      (MonthlyCallScheduler.scoreResident this callStats other date callType)
      (MonthlyCallScheduler.scoreResident this callStats best date callType)
    = true ->
    let calls r := MonthlyCallScheduler.totalCalls (callStats !!! id r) in
    calls best < calls other
    \/ (calls best = calls other /\ String.leb (id best) (id other) = true).

(** The dates of the calls (post-call markers left out) of resident [k] in
    a list of assignments, in the order of the list. *)
Definition callsOf (k : string) (out : list CallAssignment) : list JS.Date :=
  map ca_date
      (List.filter (fun a => String.eqb (ca_residentId a) k
                             && negb (bool_decide (ca_type a = PostCall)))
                   out).

(** The statistics cover the roster and record, for resident [k], the
    dates [base] followed by the dates of the calls emitted for [k]. *)
Definition recorded (this : MonthlyCallScheduler.Scheduler) (k : string) (base : list JS.Date)
    (st : MonthlyCallScheduler.RunState) : Prop :=
  (forall r, In r (MonthlyCallScheduler.residents this) -> is_Some (fst st !! id r))
  /\ MonthlyCallScheduler.callDates (fst st !!! k) = base ++ callsOf k (snd st).

(** The same scheduler with the residents list replaced. *)
Definition withResidents (this : MonthlyCallScheduler.Scheduler)
    (rs : list Resident) : MonthlyCallScheduler.Scheduler :=
  {| MonthlyCallScheduler.residents := rs;
     MonthlyCallScheduler.config := MonthlyCallScheduler.config this;
     MonthlyCallScheduler.academicYear :=
       MonthlyCallScheduler.academicYear this;
     MonthlyCallScheduler.approvedLeave :=
       MonthlyCallScheduler.approvedLeave this;
     MonthlyCallScheduler.month := MonthlyCallScheduler.month this;
     MonthlyCallScheduler.year := MonthlyCallScheduler.year this;
     MonthlyCallScheduler.existingAssignments :=
       MonthlyCallScheduler.existingAssignments this |}.

(** The dates of the calls of resident [k] that fall on a day of the
    weekend definition. *)
Definition weekendCallsOf (this : MonthlyCallScheduler.Scheduler) (k : string)
    (out : list CallAssignment) : list JS.Date :=
  List.filter (MonthlyCallScheduler.isWeekend this) (callsOf k out).

(** The date of the last call: the last date of [l], or [o] when [l] is
    empty. *)
Definition lastOr (o : option JS.Date) (l : list JS.Date) : option JS.Date :=
  match l with
  | [] => o
  | _ => Some (List.last l 0)
  end.

(** Every date is two days or more from the one before it, the first one
    from [o]. *)
Fixpoint spacedFrom (o : option JS.Date) (l : list JS.Date) : Prop :=
  match l with
  | [] => True
  | d :: l' =>
      match o with
      | Some d0 => 2 <= Z.abs (d - d0)
      | None => True
      end /\ spacedFrom (Some d) l'
  end.

(** The calls (post-call markers left out) dated [d] in a list of
    assignments. *)
Definition callsOn (d : JS.Date) (out : list CallAssignment)
  : list CallAssignment :=
  List.filter (fun a => negb (bool_decide (ca_type a = PostCall))
                        && (ca_date a =? d)) out.

(** At most the required number of calls on the day, for residents with
    different ids. *)
Definition dayFilled (this : MonthlyCallScheduler.Scheduler) (d : JS.Date)
    (out : list CallAssignment) : Prop :=
  NoDup (map ca_residentId (callsOn d out))
  /\ (length (callsOn d out)
      <= if MonthlyCallScheduler.isHoliday this d then 2 else 1)%nat.

(** The sum of a list of integers. *)
Fixpoint sumZ (l : list Z) : Z :=
  match l with
  | [] => 0
  | x :: l' => x + sumZ l'
  end.

End Spec.

Module Examples.

Definition resident (rid : string) (pgy : Z) : Resident :=
  {| id := rid; pgyLevel := pgy; specialty := "Neurosurgery";
     onService := true; isChief := false; callExempt := false |}.

Definition core (rid : string) : RotationAssignment :=
  {| ra_residentId := rid; rotationName := "Neurosurgery - Core";
     rotationType := CORE_NSX; team := None; holidayType := None |}.

(** Block [n] of the academic year 2024-2025 (28 days, from July 1st 2024),
    with the residents [rids] on the core service. *)
Definition block2024 (rids : list string) (n : Z) : RotationBlock :=
  {| blockNumber := n;
     startDate := JS.newDate 2024 6 1 + 28 * (n - 1);
     endDate := JS.newDate 2024 6 1 + 28 * (n - 1) + 27;
     assignments := map core rids |}.

Definition year2024 (rids : list string) : AcademicYear :=
  {| ay_id := "2024-2025"; blocks := map (block2024 rids) (seqZ 1 13) |}.

(** One PARO rule (7 calls for 1 to 31 working days), ratio 1:4 for PGY-2,
    two weekends per rotation. *)
Definition config1 : AppConfiguration :=
  {| paroHardCaps := [ {| minDays := 1; maxDays := 31; calls := 7 |} ];
     callRatios := {[ 2 := 4 ]};
     maxWeekendsPerRotation := 2;
     weekendDefinition := Some ["Friday"; "Saturday"; "Sunday"]%string;
     holidays := None;
     mandatoryRotations := [];
     examLeave := [] |}.

(** The configuration of the "shortage mode" scenario: ratio 1:10 for
    PGY-2. *)
Definition config2 : AppConfiguration :=
  {| paroHardCaps := [ {| minDays := 1; maxDays := 31; calls := 7 |} ];
     callRatios := {[ 2 := 10 ]};
     maxWeekendsPerRotation := 2;
     weekendDefinition := Some ["Friday"; "Saturday"; "Sunday"]%string;
     holidays := None;
     mandatoryRotations := [];
     examLeave := [] |}.

(** The scheduler of the "shortage mode" scenario (February 2025). *)
Definition shortageScenario : MonthlyCallScheduler.Scheduler :=
  {| MonthlyCallScheduler.residents := [resident "r2" 2];
     MonthlyCallScheduler.config := config2;
     MonthlyCallScheduler.academicYear := year2024 ["r2"]%string;
     MonthlyCallScheduler.approvedLeave := [];
     MonthlyCallScheduler.month := 1;
     MonthlyCallScheduler.year := 2025;
     MonthlyCallScheduler.existingAssignments := [] |}.

(** June 2025 (which starts on a Sunday) with [rids] as the roster and
    [leave] as the approved leave. *)
Definition june2025 (rids : list string) (leave : list LeaveRequest)
  : MonthlyCallScheduler.Scheduler :=
  {| MonthlyCallScheduler.residents := map (fun rid => resident rid 2) rids;
     MonthlyCallScheduler.config := config1;
     MonthlyCallScheduler.academicYear := year2024 rids;
     MonthlyCallScheduler.approvedLeave := leave;
     MonthlyCallScheduler.month := 5;
     MonthlyCallScheduler.year := 2025;
     MonthlyCallScheduler.existingAssignments := [] |}.

(** A single resident, no leave. *)
Definition soloJune : MonthlyCallScheduler.Scheduler :=
  june2025 ["r1"]%string [].



(** Two residents that differ in their id only, listed in both orders. *)
Definition pairJuneBA : MonthlyCallScheduler.Scheduler :=
  june2025 ["b"; "a"]%string [].

Definition pairJuneAB : MonthlyCallScheduler.Scheduler :=
  Spec.withResidents pairJuneBA [resident "a" 2; resident "b" 2].

(** A night call of resident [rid] on a day of May 2025, as the schedule of
    May stores it. *)
Definition mayNight (rid : string) (day : Z) : CallAssignment :=
  {| ca_residentId := rid; ca_date := JS.newDate 2025 4 day;
     ca_type := Night; ca_points := 1; ca_isHoliday := false;
     ca_team := None; ca_status := Scheduled |}.

(** Three residents with calls behind them: "r1" (PGY-2) took the nights of
    May 12th and 15th, "r2" (PGY-1) the night of May 25th and "r3" (PGY-1)
    the night of May 26th.  The averages of the roster are thirds. *)
Definition thirdsJune : MonthlyCallScheduler.Scheduler :=
  {| MonthlyCallScheduler.residents :=
       [resident "r1" 2; resident "r2" 1; resident "r3" 1];
     MonthlyCallScheduler.config := config1;
     MonthlyCallScheduler.academicYear := year2024 ["r1"; "r2"; "r3"]%string;
     MonthlyCallScheduler.approvedLeave := [];
     MonthlyCallScheduler.month := 5;
     MonthlyCallScheduler.year := 2025;
     MonthlyCallScheduler.existingAssignments :=
       [mayNight "r1" 12; mayNight "r1" 15; mayNight "r2" 25;
        mayNight "r3" 26] |}.

(** A resident with seven nights on record, under a PARO cap of 10 calls
    and without a call ratio: the night of May 3rd, 29 days before June
    1st, and the six nights of May 4th (28 days before), 8th, 12th, 16th,
    20th and 24th. *)
Definition sixInWindow : MonthlyCallScheduler.Scheduler :=
  {| MonthlyCallScheduler.residents := [resident "r1" 2];
     MonthlyCallScheduler.config :=
       {| paroHardCaps := [ {| minDays := 1; maxDays := 31; calls := 10 |} ];
          callRatios := ∅;
          maxWeekendsPerRotation := 2;
          weekendDefinition := Some ["Friday"; "Saturday"; "Sunday"]%string;
          holidays := None;
          mandatoryRotations := [];
          examLeave := [] |};
     MonthlyCallScheduler.academicYear := year2024 ["r1"]%string;
     MonthlyCallScheduler.approvedLeave := [];
     MonthlyCallScheduler.month := 5;
     MonthlyCallScheduler.year := 2025;
     MonthlyCallScheduler.existingAssignments :=
       map (mayNight "r1") [3; 4; 8; 12; 16; 20; 24] |}.

(** The same month for the duplicate class. *)
Definition stubJune : MonthlyCallSchedulerBackendLogic.Scheduler :=
  {| MonthlyCallSchedulerBackendLogic.residents := [resident "r1" 2];
     MonthlyCallSchedulerBackendLogic.config := config1;
     MonthlyCallSchedulerBackendLogic.academicYear := year2024 ["r1"]%string;
     MonthlyCallSchedulerBackendLogic.approvedLeave := [];
     MonthlyCallSchedulerBackendLogic.month := 5;
     MonthlyCallSchedulerBackendLogic.year := 2025 |}.

(** Five residents (PGY 1 to 5); PGY-1 is off service in block 2. *)
Definition engine5 : YearlyScheduleEngine.Engine :=
  {| YearlyScheduleEngine.residents :=
       [resident "r1" 1; resident "r2" 2; resident "r3" 3;
        resident "r4" 4; resident "r5" 5];
     YearlyScheduleEngine.config :=
       {| paroHardCaps := []; callRatios := ∅; maxWeekendsPerRotation := 2;
          weekendDefinition := None; holidays := None;
          mandatoryRotations :=
            [ {| mr_blockNumber := 2; mr_pgyLevels := [1];
                 mr_rotationName := "Neurology" |} ];
          examLeave := [] |};
     YearlyScheduleEngine.academicYearId := "2025-2026";
     YearlyScheduleEngine.startYear := 2025 |}.

(** A three-week request (six weekend days) in a service of ten residents
    with nobody else on leave. *)
Definition db10 : VacationAnalyzer.Db :=
  {| VacationAnalyzer.db_residents :=
       map (fun n => resident (String (ascii_of_nat (97 + n)) "") 3) (seq 0 10);
     VacationAnalyzer.db_leaveRequests := [] |}.

(** The same service with three other residents on approved leave in
    June. *)
Definition db10busy : VacationAnalyzer.Db :=
  {| VacationAnalyzer.db_residents := VacationAnalyzer.db_residents db10;
     VacationAnalyzer.db_leaveRequests :=
       map (fun rid =>
              {| lr_residentId := rid; lr_status := Approved;
                 lr_startDate := JS.newDate 2025 5 1;
                 lr_endDate := JS.newDate 2025 5 30 |})
           ["b"; "c"; "d"]%string |}.

Definition request3weeks : LeaveRequest :=
  {| lr_residentId := "a"; lr_status := PendingAnalysis;
     lr_startDate := JS.newDate 2025 5 2; lr_endDate := JS.newDate 2025 5 22 |}.



(** A one-day request of resident "a" for Wednesday June 4th 2025. *)
Definition requestJune4 : LeaveRequest :=
  {| lr_residentId := "a"; lr_status := PendingAnalysis;
     lr_startDate := JS.newDate 2025 5 4; lr_endDate := JS.newDate 2025 5 4 |}.

(** What the analyzer reads for resident "a" on May 1st 2025: no leave
    history, no policy document. *)
Definition fetchedA : VacationAnalyzer.Fetched :=
  {| VacationAnalyzer.fe_resident := resident "a" 3;
     VacationAnalyzer.fe_requestType := "Vacation";
     VacationAnalyzer.fe_historicalLeave := [];
     VacationAnalyzer.fe_averageDaysOff := JS.ofZ 0;
     VacationAnalyzer.fe_policy := None;
     VacationAnalyzer.fe_today := JS.newDate 2025 4 1 |}.

Definition noSchedules : VacationAnalyzer.ScheduleDb :=
  {| VacationAnalyzer.monthlySchedules := ∅;
     VacationAnalyzer.weeklySchedules := ∅ |}.

(** The call schedule generated for [soloJune], stored as the monthly
    schedule of June 2025, and a weekly schedule with resident "a" in the
    OR and in clinic on June 4th. *)
Definition june4Clinical : VacationAnalyzer.WeekDay :=
  {| VacationAnalyzer.wd_date := JS.newDate 2025 5 4;
     VacationAnalyzer.wd_or := ["a"]%string;
     VacationAnalyzer.wd_clinic := ["a"]%string |}.

Definition storedJune : VacationAnalyzer.ScheduleDb :=
  {| VacationAnalyzer.monthlySchedules :=
       {[ "2025-06"%string
          := MonthlyCallScheduler.generateSchedule soloJune Normal ]};
     VacationAnalyzer.weeklySchedules :=
       {[ "2025-23"%string := [june4Clinical] ]} |}.

(** An approved leave of resident "a" of eleven days, May 1st to 11th
    2025. *)
Definition leaveMay11 : LeaveRequest :=
  {| lr_residentId := "a"; lr_status := Approved;
     lr_startDate := JS.newDate 2025 4 1; lr_endDate := JS.newDate 2025 4 11 |}.

(** A one-day request of resident "a" for Tuesday December 30th 2025, a
    day of the first ISO week of 2026, and that day with "a" in the OR. *)
Definition requestDec30 : LeaveRequest :=
  {| lr_residentId := "a"; lr_status := PendingAnalysis;
     lr_startDate := JS.newDate 2025 11 30;
     lr_endDate := JS.newDate 2025 11 30 |}.

Definition dec30Clinical : VacationAnalyzer.WeekDay :=
  {| VacationAnalyzer.wd_date := JS.newDate 2025 11 30;
     VacationAnalyzer.wd_or := ["a"]%string;
     VacationAnalyzer.wd_clinic := [] |}.

(** The week of that day stored under the ISO year and week, with and
    without a "W". *)
Definition storedIsoWeek : VacationAnalyzer.ScheduleDb :=
  {| VacationAnalyzer.monthlySchedules := ∅;
     VacationAnalyzer.weeklySchedules :=
       {[ "2026-1"%string := [dec30Clinical];
          "2026-W01"%string := [dec30Clinical] ]} |}.

(** The same week stored under the calendar year of the day. *)
Definition storedCalendarYearWeek : VacationAnalyzer.ScheduleDb :=
  {| VacationAnalyzer.monthlySchedules := ∅;
     VacationAnalyzer.weeklySchedules :=
       {[ "2025-1"%string := [dec30Clinical] ]} |}.

(** A request of resident "r1" for the first week of June 2025. *)
Definition requestR1 : LeaveRequest :=
  {| lr_residentId := "r1"; lr_status := PendingAnalysis;
     lr_startDate := JS.newDate 2025 5 1; lr_endDate := JS.newDate 2025 5 7 |}.

(** The first call of the schedule generated for [soloJune]: the weekend
    call of Sunday June 1st. *)
Definition june1Call : CallAssignment :=
  {| ca_residentId := "r1"; ca_date := JS.newDate 2025 5 1;
     ca_type := Weekend; ca_points := 2; ca_isHoliday := false;
     ca_team := None; ca_status := Scheduled |}.

(** The academic year the engine returns for [engine5]. *)
Definition year2025 : AcademicYear :=
  default {| ay_id := ""; blocks := [] |}
          (YearlyScheduleEngine.generateSchedule engine5).

(** June 2026 scheduled on that academic year. *)
Definition june2026 : MonthlyCallScheduler.Scheduler :=
  {| MonthlyCallScheduler.residents :=
       YearlyScheduleEngine.residents engine5;
     MonthlyCallScheduler.config := config1;
     MonthlyCallScheduler.academicYear := year2025;
     MonthlyCallScheduler.approvedLeave := [];
     MonthlyCallScheduler.month := 5;
     MonthlyCallScheduler.year := 2026;
     MonthlyCallScheduler.existingAssignments := [] |}.

(** The first call of the schedule generated for [june2026]. *)
Definition june5Call : CallAssignment :=
  {| ca_residentId := "r5"; ca_date := JS.newDate 2026 5 5;
     ca_type := Weekend; ca_points := 2; ca_isHoliday := false;
     ca_team := Some Red; ca_status := Scheduled |}.

(** A mandatory rotation for PGY-1 in a block 14. *)
Definition block14Rule : MandatoryRule :=
  {| mr_blockNumber := 14; mr_pgyLevels := [1];
     mr_rotationName := "Neurology" |}.

Definition engineBlock14 : YearlyScheduleEngine.Engine :=
  {| YearlyScheduleEngine.residents := [resident "r1" 1];
     YearlyScheduleEngine.config :=
       {| paroHardCaps := []; callRatios := ∅; maxWeekendsPerRotation := 2;
          weekendDefinition := None; holidays := None;
          mandatoryRotations := [block14Rule];
          examLeave := [] |};
     YearlyScheduleEngine.academicYearId := "2025-2026";
     YearlyScheduleEngine.startYear := 2025 |}.

(** [stubJune] with the configuration of the "shortage mode" scenario. *)
Definition stubShortage : MonthlyCallSchedulerBackendLogic.Scheduler :=
  {| MonthlyCallSchedulerBackendLogic.residents := [resident "r1" 2];
     MonthlyCallSchedulerBackendLogic.config := config2;
     MonthlyCallSchedulerBackendLogic.academicYear :=
       year2024 ["r1"]%string;
     MonthlyCallSchedulerBackendLogic.approvedLeave := [];
     MonthlyCallSchedulerBackendLogic.month := 5;
     MonthlyCallSchedulerBackendLogic.year := 2025 |}.

(** [stubJune] with a configuration that has no weekend definition. *)
Definition stubJuneNoWeekend : MonthlyCallSchedulerBackendLogic.Scheduler :=
  {| MonthlyCallSchedulerBackendLogic.residents := [resident "r1" 2];
     MonthlyCallSchedulerBackendLogic.config :=
       {| paroHardCaps := paroHardCaps config1;
          callRatios := callRatios config1;
          maxWeekendsPerRotation := 2;
          weekendDefinition := None;
          holidays := None;
          mandatoryRotations := [];
          examLeave := [] |};
     MonthlyCallSchedulerBackendLogic.academicYear :=
       year2024 ["r1"]%string;
     MonthlyCallSchedulerBackendLogic.approvedLeave := [];
     MonthlyCallSchedulerBackendLogic.month := 5;
     MonthlyCallSchedulerBackendLogic.year := 2025 |}.

End Examples.

(** * Properties *)

(** ** The calendar *)

Section Calendar.

Lemma newDate_epoch : JS.newDate 1970 0 1 = 0.
Proof. reflexivity. Qed.

(** The two conversions are inverse to each other on the days of 2020 to
    2029. *)
Lemma civil_roundtrip :
  forallb (fun d => let '(y, m, dd) := JS.civilFromDays d in
                    JS.daysFromCivil y m dd =? d)
          (seqZ (JS.newDate 2020 0 1)
                (JS.newDate 2030 0 1 - JS.newDate 2020 0 1)) = true.
Proof. vm_compute. reflexivity. Qed.

(** June 1st 2025 is a Sunday; months have their lengths, leap years
    included; month 12 is January of the next year. *)
Lemma calendar_samples :
  JS.weekdayLong (JS.newDate 2025 5 1) = "Sunday"%string
  /\ JS.civilFromDays (JS.newDate 2025 5 1) = (2025, 6, 1)
  /\ JS.getDate (JS.newDate 2025 6 0) = 30
  /\ JS.getDate (JS.newDate 2025 2 0) = 28
  /\ JS.getDate (JS.newDate 2024 2 0) = 29
  /\ JS.getDate (JS.newDate 2100 2 0) = 28
  /\ JS.getDate (JS.newDate 2000 2 0) = 29
  /\ JS.civilFromDays (JS.newDate 2025 12 1) = (2026, 1, 1)
  /\ JS.getMonth (JS.newDate 2025 11 31 + 1) = 0.
Proof. vm_compute. repeat split; reflexivity. Qed.

(** The blocks of the examples are the 28-day blocks that start on July 1st:
    block 13 of 2024-2025 runs from June 2nd to June 29th 2025. *)
Lemma block13_2024 :
  JS.civilFromDays (startDate (Examples.block2024 [] 13)) = (2025, 6, 2)
  /\ JS.civilFromDays (endDate (Examples.block2024 [] 13)) = (2025, 6, 29).
Proof. vm_compute. split; reflexivity. Qed.

End Calendar.

(** ** The call cap, [getMaxCalls] *)

Section MaxCalls.
Import MonthlyCallScheduler.

Lemma find_ParoCap (caps : list ParoRule) (W : Z) :
  Spec.ParoCap caps W
    (match List.find (fun rule => (minDays rule <=? W) && (W <=? maxDays rule))
                     caps with
     | Some rule => calls rule
     | None => 8
     end).
Proof.
  induction caps as [|rule caps IH]; simpl.
  - apply Spec.ParoCap_default. constructor.
  - destruct ((minDays rule <=? W) && (W <=? maxDays rule)) eqn:Hm.
    + apply andb_true_iff in Hm as [H1 H2].
      apply (Spec.ParoCap_first _ _ [] rule caps); [reflexivity|constructor|lia].
    + assert (Hno : ~ (minDays rule <= W <= maxDays rule)).
      { apply andb_false_iff in Hm as [H|H]; lia. }
      inversion IH as [pre r post Heq Hpre Hr Hc | Hall Hc].
      * rewrite Heq at 1.
        apply (Spec.ParoCap_first _ _ (rule :: pre) r post);
          [reflexivity | constructor; assumption | assumption].
      * apply Spec.ParoCap_default. constructor; assumption.
Qed.

(** C3, as the code has it.  In both classes [getMaxCalls] is 0 for a
    call-exempt chief; otherwise, with [paroCap] the [calls] of the first
    PARO rule whose day range contains the working days (8 when there is
    none), it is [min paroCap (floor (W / ratio))] in Normal mode and
    [paroCap] in Shortage mode when the PGY level has a call ratio other
    than 0.  When the PGY level has no call ratio, or a ratio of 0, the full
    class returns [paroCap] in both modes, and the duplicate class computes
    with a ratio of 99: [min paroCap (floor (W / 99))] in Normal mode and
    [paroCap] in Shortage mode. *)
Theorem getMaxCalls_two_tiered (this : Scheduler)
    (dup : MonthlyCallSchedulerBackendLogic.Scheduler) (r : Resident) (W : Z)
    (m : StaffingLevel) :
  let twoTiered paroCap ratio :=
    match m with
    | Normal => Z.min paroCap (W / ratio)
    | Shortage => paroCap
    end in
  let noRatio (config : AppConfiguration) :=
    callRatios config !! pgyLevel r = None
    \/ callRatios config !! pgyLevel r = Some 0 in
  ((isChief r = true /\ callExempt r = true -> getMaxCalls this r W m = 0)
   /\ (~ (isChief r = true /\ callExempt r = true) ->
       exists paroCap,
         Spec.ParoCap (paroHardCaps (config this)) W paroCap
         /\ (noRatio (config this) -> getMaxCalls this r W m = paroCap)
         /\ (forall ratio,
               callRatios (config this) !! pgyLevel r = Some ratio ->
               ratio <> 0 ->
               getMaxCalls this r W m = twoTiered paroCap ratio)))
  /\ ((isChief r = true /\ callExempt r = true ->
       MonthlyCallSchedulerBackendLogic.getMaxCalls dup r W m = 0)
      /\ (~ (isChief r = true /\ callExempt r = true) ->
          exists paroCap,
            Spec.ParoCap
              (paroHardCaps (MonthlyCallSchedulerBackendLogic.config dup)) W
              paroCap
            /\ (noRatio (MonthlyCallSchedulerBackendLogic.config dup) ->
                MonthlyCallSchedulerBackendLogic.getMaxCalls dup r W m
                = twoTiered paroCap 99)
            /\ (forall ratio,
                  callRatios (MonthlyCallSchedulerBackendLogic.config dup)
                  !! pgyLevel r = Some ratio ->
                  ratio <> 0 ->
                  MonthlyCallSchedulerBackendLogic.getMaxCalls dup r W m
                  = twoTiered paroCap ratio))).
Proof.
  cbv zeta.
  assert (Hb : ~ (isChief r = true /\ callExempt r = true) ->
               isChief r && callExempt r = false).
  { intros Hn. destruct (isChief r), (callExempt r); simpl; try reflexivity.
    exfalso. apply Hn. split; reflexivity. }
  split; split.
  - intros [Hc He]. unfold getMaxCalls. rewrite Hc, He. reflexivity.
  - intros Hn. unfold getMaxCalls. rewrite (Hb Hn).
    eexists. split; [apply find_ParoCap|]. split.
    + intros [-> | ->]; reflexivity.
    + intros ratio -> Hr.
      destruct (ratio =? 0) eqn:E; [lia|reflexivity].
  - intros [Hc He]. unfold MonthlyCallSchedulerBackendLogic.getMaxCalls.
    rewrite Hc, He. reflexivity.
  - intros Hn. unfold MonthlyCallSchedulerBackendLogic.getMaxCalls.
    rewrite (Hb Hn).
    eexists. split; [apply find_ParoCap|]. split.
    + intros [-> | ->]; reflexivity.
    + intros ratio -> Hr.
      destruct (ratio =? 0) eqn:E; [lia|reflexivity].
Qed.

(** The "shortage mode" scenario: PGY-2 with ratio 1:10 and 28 working
    days is capped at min(7, 2) = 2 calls in Normal mode and at 7 calls in
    Shortage mode, in both classes. *)
Lemma getMaxCalls_two_tiered_witness :
  let r2 := Examples.resident "r2" 2 in
  ~ (isChief r2 = true /\ callExempt r2 = true)
  /\ callRatios (config Examples.shortageScenario) !! pgyLevel r2 = Some 10
  /\ getMaxCalls Examples.shortageScenario r2 28 Normal = 2
  /\ getMaxCalls Examples.shortageScenario r2 28 Shortage = 7
  /\ MonthlyCallSchedulerBackendLogic.getMaxCalls Examples.stubShortage r2 28
       Normal = 2
  /\ MonthlyCallSchedulerBackendLogic.getMaxCalls Examples.stubShortage r2 28
       Shortage = 7.
Proof.
  cbv zeta.
  assert (Hcap : forall cap,
            Spec.ParoCap [ {| minDays := 1; maxDays := 31; calls := 7 |} ] 28
              cap -> cap = 7).
  { intros cap Hcap.
    inversion Hcap as [pre rule post Heq Hpre Hr Hc | Hall Hc].
    - destruct pre as [|p pre].
      + simpl in Heq. injection Heq as <-. reflexivity.
      + simpl in Heq. injection Heq as _ Heq. destruct pre; discriminate Heq.
    - inversion Hall as [|x l Hx Hl]. simpl in Hx. lia. }
  assert (Hnc : ~ (isChief (Examples.resident "r2" 2) = true
                   /\ callExempt (Examples.resident "r2" 2) = true)).
  { simpl. intros [H _]. discriminate H. }
  split; [exact Hnc|]. split; [reflexivity|].
  split; [|split; [|split]].
  - destruct (proj2 (proj1 (getMaxCalls_two_tiered Examples.shortageScenario
                              Examples.stubShortage
                              (Examples.resident "r2" 2) 28 Normal)) Hnc)
      as [cap [Hc [_ H]]].
    rewrite (H 10); [|reflexivity|lia].
    rewrite (Hcap cap Hc). reflexivity.
  - destruct (proj2 (proj1 (getMaxCalls_two_tiered Examples.shortageScenario
                              Examples.stubShortage
                              (Examples.resident "r2" 2) 28 Shortage)) Hnc)
      as [cap [Hc [_ H]]].
    rewrite (H 10); [|reflexivity|lia].
    exact (Hcap cap Hc).
  - destruct (proj2 (proj2 (getMaxCalls_two_tiered Examples.shortageScenario
                              Examples.stubShortage
                              (Examples.resident "r2" 2) 28 Normal)) Hnc)
      as [cap [Hc [_ H]]].
    rewrite (H 10); [|reflexivity|lia].
    rewrite (Hcap cap Hc). reflexivity.
  - destruct (proj2 (proj2 (getMaxCalls_two_tiered Examples.shortageScenario
                              Examples.stubShortage
                              (Examples.resident "r2" 2) 28 Shortage)) Hnc)
      as [cap [Hc [_ H]]].
    rewrite (H 10); [|reflexivity|lia].
    exact (Hcap cap Hc).
Defined.

(** C3 fails as stated for the duplicate class: a PGY-3 resident, for whom
    the configuration has no call ratio, is capped at 0 calls in Normal
    mode with 28 working days (floor (28 / 99)), not at the PARO cap of 7;
    the full class returns 7. *)
Lemma getMaxCalls_duplicate_without_ratio :
  let r3 := Examples.resident "r3" 3 in
  ~ (isChief r3 = true /\ callExempt r3 = true)
  /\ callRatios (MonthlyCallSchedulerBackendLogic.config Examples.stubJune)
     !! pgyLevel r3 = None
  /\ Spec.ParoCap
       (paroHardCaps (MonthlyCallSchedulerBackendLogic.config
                        Examples.stubJune)) 28 7
  /\ MonthlyCallSchedulerBackendLogic.getMaxCalls Examples.stubJune r3 28
       Normal = 0
  /\ MonthlyCallSchedulerBackendLogic.getMaxCalls Examples.stubJune r3 28
       Normal <> 7
  /\ getMaxCalls Examples.soloJune r3 28 Normal = 7.
Proof.
  cbv zeta. split; [|split; [|split; [|split; [|split]]]].
  - simpl. intros [H _]. discriminate H.
  - reflexivity.
  - apply (Spec.ParoCap_first _ _ []
             {| minDays := 1; maxDays := 31; calls := 7 |} []);
      [reflexivity|constructor|simpl; lia].
  - reflexivity.
  - discriminate.
  - reflexivity.
Qed.

(** C8. The cap in Shortage mode is never below the cap in Normal mode. *)
Theorem getMaxCalls_shortage_ge_normal (this : Scheduler) (r : Resident)
    (W : Z) :
  getMaxCalls this r W Shortage >= getMaxCalls this r W Normal.
Proof.
  unfold getMaxCalls.
  destruct (isChief r && callExempt r); [lia|].
  destruct (callRatios (config this) !! pgyLevel r) as [ratio|]; [|lia].
  destruct (ratio =? 0); lia.
Qed.

End MaxCalls.

(** ** The PARO 1-in-4 rolling rule *)

Section Paro.
Import MonthlyCallScheduler.

Lemma filter_window_count (lo hi : JS.Date) (l : list JS.Date) :
  Z.of_nat (length (filter (fun d => lo <= d /\ d < hi) l))
  = Spec.countInWindow lo hi l.
Proof.
  induction l as [|d l IH]; [reflexivity|].
  rewrite filter_cons. simpl Spec.countInWindow.
  destruct (decide (lo <= d /\ d < hi)) as [[H1 H2]|Hn].
  - assert (E : (lo <=? d) && (d <? hi) = true).
    { apply andb_true_iff. split; [apply Z.leb_le|apply Z.ltb_lt]; lia. }
    rewrite E. simpl length. lia.
  - assert (E : (lo <=? d) && (d <? hi) = false).
    { apply andb_false_iff.
      destruct (Z.leb_spec lo d); [|left; reflexivity].
      destruct (Z.ltb_spec d hi); [|right; reflexivity].
      exfalso. apply Hn. lia. }
    rewrite E. lia.
Qed.

Lemma checkPAROCompliance_spec (callStats : gmap string CallStats)
    (residentId : string) (date : JS.Date) :
  checkPAROCompliance callStats residentId date
  = (Spec.recentCalls callStats residentId (date - 28) date + 1 <=? 7).
Proof.
  unfold checkPAROCompliance, Spec.recentCalls, JS.addDays.
  rewrite filter_window_count. reflexivity.
Qed.

Lemma isEligibleForCall_paro (this : Scheduler)
    (callStats : gmap string CallStats) (r : Resident) (date : JS.Date)
    (s : StaffingLevel) :
  isEligibleForCall this callStats r date s = true ->
  checkPAROCompliance callStats (id r) date = true.
Proof.
  destruct (checkPAROCompliance callStats (id r) date) eqn:E; [reflexivity|].
  unfold isEligibleForCall. rewrite E.
  destruct (getCurrentBlock this date) as [block|]; [|discriminate].
  destruct (findRotation block (id r)) as [rotation|]; [|discriminate].
  repeat match goal with
         | |- (if ?c then false else (if _ then _ else _)) = true -> _ =>
             destruct c; [discriminate|]
         end.
  simpl. discriminate.
Qed.

(** C9. The seventh eligibility check fails exactly when the calls of the
    resident in the 28 days before [d] (from [d - 28], without [d] itself),
    plus one, exceed 7; so an eligible resident has at most 6 calls in that
    window. *)
Theorem paro_rolling_window (this : Scheduler)
    (callStats : gmap string CallStats) (r : Resident) (d : JS.Date)
    (s : StaffingLevel) :
  (checkPAROCompliance callStats (id r) d = false
   <-> Spec.recentCalls callStats (id r) (d - 28) d + 1 > 7)
  /\ (isEligibleForCall this callStats r d s = true ->
      Spec.recentCalls callStats (id r) (d - 28) d + 1 <= 7).
Proof.
  split.
  - rewrite checkPAROCompliance_spec. rewrite Z.leb_gt. lia.
  - intros H. apply isEligibleForCall_paro in H.
    rewrite checkPAROCompliance_spec in H. apply Z.leb_le in H. exact H.
Qed.

(** On June 1st 2025 the resident of [Examples.sixInWindow] has seven
    nights on record: the one of May 3rd lies before the window, the one of
    May 4th is its first day, and six nights in the window leave room for
    one more call. *)
Lemma paro_rolling_window_witness :
  let this := Examples.sixInWindow in
  let callStats := initializeCallStats this in
  let d := JS.newDate 2025 5 1 in
  isEligibleForCall this callStats (Examples.resident "r1" 2) d Normal = true
  /\ callDates (callStats !!! "r1"%string)
     = [d - 8; d - 12; d - 16; d - 20; d - 24; d - 28; d - 29]
  /\ Spec.recentCalls callStats "r1" (d - 28) d = 6
  /\ Spec.recentCalls callStats "r1" (d - 28) d + 1 <= 7.
Proof.
  cbv zeta.
  assert (E : isEligibleForCall Examples.sixInWindow
                (initializeCallStats Examples.sixInWindow)
                (Examples.resident "r1" 2) (JS.newDate 2025 5 1) Normal = true)
    by (vm_compute; reflexivity).
  split; [exact E|].
  split; [vm_compute; reflexivity|].
  split; [vm_compute; reflexivity|].
  exact (proj2 (paro_rolling_window Examples.sixInWindow
                  (initializeCallStats Examples.sixInWindow)
                  (Examples.resident "r1" 2) (JS.newDate 2025 5 1) Normal) E).
Defined.

End Paro.

(** ** The leave-request analyzer *)

Section Analyzer.
Import VacationAnalyzer.

Lemma analyzeLeaveRequest_reason (request : LeaveRequest)
    (inp : AnalysisInputs) :
  lr_status request = PendingAnalysis ->
  lr_status (analyzeLeaveRequest request (Some inp))
  = match performComprehensiveAnalysis inp with
    | Deny => Denied
    | Flagged => PendingApproval
    | Approve => AnalysisFailed
    end.
Proof.
  intros H. unfold analyzeLeaveRequest, runTransaction. rewrite H. simpl.
  destruct (performComprehensiveAnalysis inp); reflexivity.
Qed.



(** The approving branch of [generateRecommendation] sets no [reason]; the
    report then has an undefined [denialReason], staging it throws, and the
    request that the synthesis approves is left with the status
    'Analysis Failed'. *)
Lemma analyzer_approve_fails_to_write (request : LeaveRequest)
    (inp : AnalysisInputs) :
  lr_status request = PendingAnalysis ->
  performComprehensiveAnalysis inp = Approve ->
  lr_status (analyzeLeaveRequest request (Some inp)) = AnalysisFailed.
Proof.
  intros H Ha. rewrite (analyzeLeaveRequest_reason request inp H), Ha.
  reflexivity.
Qed.


(** C6, as the code has it: with more than 4 weekend days in the range the
    risk is High unless the coverage ratio alone gives Low; with more than
    2 weekend days and a ratio that alone gives Low the risk is Medium,
    also when there are more than 4 weekend days. *)
Theorem coverage_weekend_escalation (db : Db) (request : LeaveRequest) :
  let analysis := analyzeCoverageImpact db request in
  let weekendDays := Z.of_nat (length (weekendDates request)) in
  let base := ratioRiskLevel (coverageRatio analysis) in
  (weekendDays > 4 -> base <> Low -> riskLevel analysis = High)
  /\ (weekendDays > 2 -> base = Low -> riskLevel analysis = Medium).
Proof.
  unfold analyzeCoverageImpact. cbn [riskLevel coverageRatio].
  set (ratio := (_ / _)%Q).
  set (n := Z.of_nat (length (weekendDates request))).
  cbv zeta. split; intros Hn Hb.
  - destruct (ratioRiskLevel ratio); [contradiction| |];
      rewrite andb_false_r;
      (destruct (Z.ltb_spec 4 n); [reflexivity|lia]).
  - rewrite Hb.
    destruct (Z.ltb_spec 2 n); [reflexivity|lia].
Qed.

Lemma coverage_weekend_escalation_witness :
  riskLevel (analyzeCoverageImpact Examples.db10busy Examples.request3weeks)
  = High
  /\ riskLevel (analyzeCoverageImpact Examples.db10 Examples.request3weeks)
     = Medium.
Proof.
  split.
  - apply (proj1 (coverage_weekend_escalation Examples.db10busy
                    Examples.request3weeks)).
    + vm_compute. reflexivity.
    + vm_compute. discriminate.
  - apply (proj2 (coverage_weekend_escalation Examples.db10
                    Examples.request3weeks)).
    + vm_compute. reflexivity.
    + vm_compute. reflexivity.
Defined.

(** C6 fails as stated: a request with six weekend days and a coverage
    ratio of 9/10 gets risk level Medium, not High. *)
Lemma coverage_many_weekends_low_ratio_is_medium :
  Z.of_nat (length (weekendDates Examples.request3weeks)) > 4
  /\ riskLevel (analyzeCoverageImpact Examples.db10 Examples.request3weeks)
     = Medium
  /\ riskLevel (analyzeCoverageImpact Examples.db10 Examples.request3weeks)
     <> High.
Proof.
  repeat split; try (vm_compute; reflexivity).
  vm_compute. discriminate.
Qed.

End Analyzer.

(** ** The duplicate scheduler never emits an assignment *)

Section BackendLogic.
Import MonthlyCallSchedulerBackendLogic.

Lemma schedulingLoop_keeps (this : Scheduler) (days : list Z)
    (callCounts weekendCounts : gmap string Z) (s : StaffingLevel)
    (acc l : list CallAssignment) :
  schedulingLoop this days callCounts weekendCounts s acc = Some l -> l = acc.
Proof.
  induction days as [|day days IH]; simpl.
  - intros H. injection H as <-. reflexivity.
  - destruct (filterThrowing _ _); [exact IH|discriminate].
Qed.

Lemma isAvailable_defined (this : Scheduler) (def : list string)
    (res : Resident) (date : JS.Date) (callCounts weekendCounts : gmap string Z)
    (s : StaffingLevel) :
  weekendDefinition (config this) = Some def ->
  exists b, isAvailable this res date callCounts weekendCounts s = Some b.
Proof.
  intros Hdef. unfold isAvailable. rewrite Hdef.
  repeat match goal with
         | |- exists b, Some _ = Some b => eexists; reflexivity
         | |- exists b, match ?c with _ => _ end = Some b => destruct c
         end.
Qed.

Lemma filterThrowing_defined {A : Type} (f : A -> option bool) (l : list A) :
  (forall x, exists b, f x = Some b) ->
  exists r, filterThrowing f l = Some r.
Proof.
  intros Hf. induction l as [|x l [r IH]]; simpl.
  - eexists; reflexivity.
  - destruct (Hf x) as [b ->]. rewrite IH. eexists; reflexivity.
Qed.

Lemma schedulingLoop_defined (this : Scheduler) (def : list string)
    (days : list Z) (callCounts weekendCounts : gmap string Z)
    (s : StaffingLevel) (acc : list CallAssignment) :
  weekendDefinition (config this) = Some def ->
  schedulingLoop this days callCounts weekendCounts s acc = Some acc.
Proof.
  intros Hdef. induction days as [|day days IH]; simpl; [reflexivity|].
  destruct (filterThrowing_defined
              (fun res => isAvailable this res
                            (JS.newDate (year this) (month this) day)
                            callCounts weekendCounts s)
              (residents this)) as [r ->]; [|exact IH].
  intros x. eapply isAvailable_defined. exact Hdef.
Qed.

(** The duplicate's [getMaxCalls] reads a missing (or zero) call ratio as
    1:99 instead of returning the PARO cap: a resident without a ratio is
    capped at [min paroCap (floor (W / 99))] in Normal mode.  With a ratio
    on record the two classes agree. *)
Lemma getMaxCalls_missing_ratio (this : Scheduler) (r : Resident) (W : Z) :
  isChief r && callExempt r = false ->
  callRatios (config this) !! pgyLevel r = None ->
  exists paroCap,
    Spec.ParoCap (paroHardCaps (config this)) W paroCap
    /\ getMaxCalls this r W Normal = Z.min paroCap (W / 99)
    /\ getMaxCalls this r W Shortage = paroCap.
Proof.
  intros Hc Hr. unfold getMaxCalls. rewrite Hc, Hr.
  eexists. split; [apply find_ParoCap|]. split; reflexivity.
Qed.

Lemma getMaxCalls_agree (this : Scheduler)
    (full : MonthlyCallScheduler.Scheduler) (r : Resident) (W ratio : Z)
    (m : StaffingLevel) :
  MonthlyCallScheduler.config full = config this ->
  callRatios (config this) !! pgyLevel r = Some ratio ->
  ratio <> 0 ->
  getMaxCalls this r W m = MonthlyCallScheduler.getMaxCalls full r W m.
Proof.
  intros Hcfg Hr Hn.
  unfold getMaxCalls, MonthlyCallScheduler.getMaxCalls.
  rewrite Hcfg, Hr.
  destruct (Z.eqb_spec ratio 0); [contradiction|reflexivity].
Qed.

Lemma stubJune_empty : generateSchedule Examples.stubJune Normal = Some [].
Proof. vm_compute. reflexivity. Qed.

Lemma soloJune_length :
  length (MonthlyCallScheduler.generateSchedule Examples.soloJune Normal)
  = 14%nat.
Proof. vm_compute. reflexivity. Qed.

(** C10, as the code has it: the [generateSchedule] of the duplicate class
    never returns anything but the empty list, and returns it for every
    input whose configuration has a weekend definition (without one, the
    availability check may throw); the full implementation does emit
    assignments, so the two classes are not equivalent. *)
Theorem backend_logic_generateSchedule_empty :
  (forall (this : Scheduler) (s : StaffingLevel) (l : list CallAssignment),
     generateSchedule this s = Some l -> l = [])
  /\ (forall (this : Scheduler) (s : StaffingLevel),
        is_Some (weekendDefinition (config this)) ->
        generateSchedule this s = Some [])
  /\ (generateSchedule Examples.stubJune Normal = Some []
      /\ MonthlyCallScheduler.generateSchedule Examples.soloJune Normal <> []).
Proof.
  split; [|split; [|split]].
  - intros this s l. unfold generateSchedule. apply schedulingLoop_keeps.
  - intros this s [def Hdef]. unfold generateSchedule.
    eapply schedulingLoop_defined. exact Hdef.
  - exact stubJune_empty.
  - pose proof soloJune_length as E.
    destruct (MonthlyCallScheduler.generateSchedule Examples.soloJune Normal);
      [discriminate E|discriminate].
Qed.

Lemma backend_logic_generateSchedule_empty_witness :
  is_Some (weekendDefinition (config Examples.stubJune))
  /\ generateSchedule Examples.stubJune Shortage = Some [].
Proof.
  assert (H : is_Some (weekendDefinition (config Examples.stubJune))).
  { eexists. reflexivity. }
  split; [exact H|].
  exact (proj1 (proj2 backend_logic_generateSchedule_empty)
           Examples.stubJune Shortage H).
Defined.

(** C10 fails as stated: with a configuration that has no weekend
    definition the duplicate's [generateSchedule] throws on the first day of
    June 2025 instead of returning the empty list. *)
Lemma backend_logic_generateSchedule_throws :
  weekendDefinition (config Examples.stubJuneNoWeekend) = None
  /\ generateSchedule Examples.stubJuneNoWeekend Normal = None
  /\ generateSchedule Examples.stubJuneNoWeekend Normal <> Some [].
Proof.
  assert (E : generateSchedule Examples.stubJuneNoWeekend Normal = None)
    by (vm_compute; reflexivity).
  split; [reflexivity|]. split; [exact E|].
  rewrite E. discriminate.
Qed.

End BackendLogic.

(** ** The stable sort *)

Section SortLemmas.
Context {A K : Type} (key : A -> K) (gtb : K -> K -> bool).

Lemma insertDesc_In (x y : A) (l : list A) :
  In x (JS.insertDesc key gtb y l) <-> x = y \/ In x l.
Proof.
  induction l as [|z l IH]; simpl.
  - intuition congruence.
  - destruct (gtb (key z) (key y)); simpl; rewrite ?IH; intuition congruence.
Qed.

Lemma sortDesc_In (x : A) (l : list A) :
  In x (JS.sortDesc key gtb l) <-> In x l.
Proof.
  induction l as [|y l IH]; simpl; [tauto|].
  rewrite insertDesc_In, IH. intuition congruence.
Qed.

End SortLemmas.

(** ** Team balance in the yearly rotation engine *)

Section Yearly.
Import YearlyScheduleEngine.

Lemma forEachM_invariant {S A : Type} (P : S -> Prop)
    (body : S -> A -> option S) (l : list A) :
  (forall s x s', P s -> x ∈ l -> body s x = Some s' -> P s') ->
  forall s s', P s -> forEachM body l s = Some s' -> P s'.
Proof.
  induction l as [|x l IH]; intros Hbody s s' Hs; simpl.
  - intros H. injection H as <-. exact Hs.
  - destruct (body s x) as [s1|] eqn:E; [|discriminate].
    apply IH.
    + intros t y t' Ht Hy. apply Hbody; [exact Ht|]. right. exact Hy.
    + eapply Hbody; [exact Hs| |exact E]. left.
Qed.

Lemma forEachM_defined {S A : Type} (P : S -> Prop)
    (body : S -> A -> option S) (l : list A) :
  (forall s x, P s -> x ∈ l -> exists s', body s x = Some s' /\ P s') ->
  forall s, P s -> exists s', forEachM body l s = Some s' /\ P s'.
Proof.
  induction l as [|x l IH]; intros Hbody s Hs; simpl.
  - exists s. split; [reflexivity|exact Hs].
  - destruct (Hbody s x Hs) as [s1 [-> Hs1]]; [left|].
    apply IH; [|exact Hs1].
    intros t y Ht Hy. apply Hbody; [exact Ht|]. right. exact Hy.
Qed.

Lemma emptySchedule_untagged (this : Engine) :
  Forall untagged (emptySchedule this).
Proof.
  unfold emptySchedule. apply Forall_replicate.
  unfold untagged. apply Forall_replicate. exact I.
Qed.

Lemma assign_untagged (this : Engine) (g g' : Grid) (block : Z)
    (resIndex : nat) (rotation : Rotation) :
  Forall untagged g ->
  assign this g block resIndex rotation = Some g' ->
  Forall untagged g'.
Proof.
  intros Hg. unfold assign.
  destruct (isSlotEmpty g block resIndex) as [[|]|]; [|congruence|discriminate].
  destruct (residents this !! resIndex) as [resident|]; [|discriminate].
  intros H. injection H as <-.
  apply Forall_alter; [exact Hg|].
  intros row _ Hrow. unfold untagged. apply Forall_insert; [exact Hrow|].
  reflexivity.
Qed.

Lemma applyRule_untagged (this : Engine) (rtype : RotationType)
    (g g' : Grid) (rule : MandatoryRule) :
  Forall untagged g -> applyRule this rtype g rule = Some g' ->
  Forall untagged g'.
Proof.
  unfold applyRule. apply forEachM_invariant.
  intros s [resIndex resident] s' Hs _.
  destruct (existsb _ _).
  - apply assign_untagged. exact Hs.
  - congruence.
Qed.

Lemma phases_untagged (this : Engine) (g4 : Grid) :
  forall g1 g2 g3,
    phase1_AssignMandatoryRotations this (emptySchedule this) = Some g1 ->
    phase2_AssignExamBlocks this g1 = Some g2 ->
    phase3_AssignHolidayBlocks this g2 = Some g3 ->
    phase4_AssignCoreNeurosurgeryRotations this g3 = Some g4 ->
    Forall untagged g4.
Proof.
  intros g1 g2 g3 H1 H2 H3 H4.
  assert (U1 : Forall untagged g1).
  { revert H1. apply forEachM_invariant; [|apply emptySchedule_untagged].
    intros s rule s' Hs _. apply applyRule_untagged. exact Hs. }
  assert (U2 : Forall untagged g2).
  { revert H2. apply forEachM_invariant; [|exact U1].
    intros s rule s' Hs _. apply applyRule_untagged. exact Hs. }
  assert (U3 : Forall untagged g3).
  { revert H3. apply forEachM_invariant; [|exact U2].
    intros s [idx senior] s' Hs _. cbv zeta.
    destruct (isSlotEmpty s _ _) as [[|]|]; [|congruence|discriminate].
    apply assign_untagged. exact Hs. }
  revert H4. apply forEachM_invariant; [|exact U3].
  intros s block s' Hs _. apply forEachM_invariant; [|exact Hs].
  intros t resIndex t' Ht _.
  destruct (isSlotEmpty t _ _) as [[|]|]; [|congruence|discriminate].
  apply assign_untagged. exact Ht.
Qed.

Lemma balance_lookup (g : Grid) (idxs : list nat) (n : nat) :
  NoDup idxs ->
  fold_left (fun g block => alter balanceBlock block g) idxs g !! n
  = if decide (n ∈ idxs) then balanceBlock <$> g !! n else g !! n.
Proof.
  revert g. induction idxs as [|i idxs IH]; intros g Hnd; simpl.
  - destruct (decide (n ∈ [])) as [H|_]; [|reflexivity].
    apply elem_of_nil in H. contradiction.
  - apply NoDup_cons in Hnd as [Hi Hnd]. rewrite IH by exact Hnd.
    destruct (decide (n = i)) as [->|Hne].
    + destruct (decide (i ∈ idxs)); [contradiction|].
      destruct (decide (i ∈ i :: idxs)) as [_|H]; [|exfalso; apply H; left].
      apply list_lookup_alter_eq.
    + rewrite list_lookup_alter_ne by congruence.
      destruct (decide (n ∈ idxs)) as [H|H];
        destruct (decide (n ∈ i :: idxs)) as [H'|H']; try reflexivity.
      * exfalso. apply H'. right. exact H.
      * exfalso. apply elem_of_cons in H' as [?|?]; contradiction.
Qed.

Lemma phase6_lookup (g : Grid) (n : nat) :
  (n < BLOCKS_PER_YEAR)%nat ->
  phase6_BalanceTeams g !! n = balanceBlock <$> g !! n.
Proof.
  intros Hn. unfold phase6_BalanceTeams.
  rewrite balance_lookup by apply NoDup_seq.
  destruct (decide (n ∈ seq 0 BLOCKS_PER_YEAR)) as [_|H]; [reflexivity|].
  exfalso. apply H. apply elem_of_seq. lia.
Qed.

Lemma countTeam_untagged (t : Team) (row : list (option RotationAssignment)) :
  untagged row -> countTeam t row = 0.
Proof.
  unfold countTeam. induction 1 as [|cell row Hc _ IH]; [reflexivity|].
  simpl. destruct cell as [a|]; [|exact IH].
  rewrite Hc. rewrite andb_false_r. exact IH.
Qed.

Lemma coreCells_cons_Some (a : RotationAssignment)
    (row : list (option RotationAssignment)) :
  coreCells (Some a :: row)
  = if isCore a then a :: coreCells row else coreCells row.
Proof. reflexivity. Qed.

Lemma coreCells_cons_None (row : list (option RotationAssignment)) :
  coreCells (None :: row) = coreCells row.
Proof. reflexivity. Qed.

Lemma isCore_setTeam (t : Team) (a : RotationAssignment) :
  isCore (setTeam t a) = isCore a.
Proof. reflexivity. Qed.

Lemma assignTeams_alternating (row : list (option RotationAssignment)) :
  untagged row ->
  forall red blue,
    red = blue \/ red = blue + 1 ->
    map team (coreCells (assignTeams red blue row))
    = alternating (length (coreCells row))
        (if red =? blue then Red else Blue).
Proof.
  induction 1 as [|cell row Hc _ IH]; intros red blue Hrb; [reflexivity|].
  destruct cell as [a|]; cbn [assignTeams];
    [|rewrite !coreCells_cons_None; apply IH; exact Hrb].
  rewrite Hc. rewrite (bool_decide_eq_true_2 (None = None)) by reflexivity.
  rewrite andb_true_r. rewrite !coreCells_cons_Some.
  destruct (isCore a) eqn:Ea.
  - destruct Hrb as [->| ->].
    + rewrite Z.leb_refl, Z.eqb_refl.
      rewrite coreCells_cons_Some, isCore_setTeam, Ea.
      cbn [map length alternating team setTeam]. f_equal.
      rewrite (IH (blue + 1) blue) by (right; reflexivity).
      replace (blue + 1 =? blue) with false by (symmetry; apply Z.eqb_neq; lia).
      reflexivity.
    + replace (blue + 1 <=? blue) with false by (symmetry; apply Z.leb_gt; lia).
      replace (blue + 1 =? blue) with false by (symmetry; apply Z.eqb_neq; lia).
      rewrite coreCells_cons_Some, isCore_setTeam, Ea.
      cbn [map length alternating team setTeam]. f_equal.
      rewrite (IH (blue + 1) (blue + 1)) by (left; reflexivity).
      rewrite Z.eqb_refl. reflexivity.
  - rewrite coreCells_cons_Some, Ea. apply IH. exact Hrb.
Qed.

Lemma assignTeams_coreCells_length (row : list (option RotationAssignment)) :
  forall red blue,
    length (coreCells (assignTeams red blue row)) = length (coreCells row).
Proof.
  induction row as [|cell row IH]; intros red blue; [reflexivity|].
  destruct cell as [a|]; cbn [assignTeams];
    [|rewrite !coreCells_cons_None; apply IH].
  destruct (isCore a && bool_decide (team a = None)) eqn:E.
  - apply andb_true_iff in E as [Ea _].
    destruct (red <=? blue);
      rewrite !coreCells_cons_Some, isCore_setTeam, Ea; cbn [length];
      f_equal; apply IH.
  - rewrite !coreCells_cons_Some.
    destruct (isCore a); cbn [length]; [f_equal|]; apply IH.
Qed.

Lemma alternating_counts (n : nat) (t : Team) :
  0 <= countTag t (alternating n t) - countTag (otherTeam t) (alternating n t)
    <= 1.
Proof.
  revert t. induction n as [|n IH]; intros t; [unfold countTag; simpl; lia|].
  specialize (IH (otherTeam t)).
  replace (otherTeam (otherTeam t)) with t in IH by (destruct t; reflexivity).
  change (alternating (S n) t) with (Some t :: alternating n (otherTeam t)).
  unfold countTag in *. cbn [List.filter].
  rewrite bool_decide_eq_true_2 by reflexivity.
  rewrite bool_decide_eq_false_2 by (destruct t; discriminate).
  cbn [length]. lia.
Qed.

(** C7. In the academic year the engine returns there are 13 blocks, and in
    each block the CORE_NSX rows are tagged Red, Blue, Red, ... in row
    order: Red is given first, and the number of Red rows is the number of
    Blue rows or one more. *)
Theorem yearly_teams_balanced (this : Engine) (ay : AcademicYear) :
  generateSchedule this = Some ay ->
  length (blocks ay) = 13%nat
  /\ forall b, In b (blocks ay) ->
       coreTeams b = alternating (length (coreTeams b)) Red
       /\ teamCount Blue b <= teamCount Red b
       /\ Z.abs (teamCount Red b - teamCount Blue b) <= 1.
Proof.
  unfold generateSchedule.
  destruct (phase1_AssignMandatoryRotations this (emptySchedule this))
    as [g1|] eqn:H1; [|discriminate].
  destruct (phase2_AssignExamBlocks this g1) as [g2|] eqn:H2; [|discriminate].
  destruct (phase3_AssignHolidayBlocks this g2) as [g3|] eqn:H3;
    [|discriminate].
  destruct (phase4_AssignCoreNeurosurgeryRotations this g3) as [g4|] eqn:H4;
    [|discriminate].
  intros H. injection H as <-.
  pose proof (phases_untagged this g4 g1 g2 g3 H1 H2 H3 H4) as U4.
  split; [reflexivity|].
  intros b Hb. cbn [blocks formatScheduleForFirestore] in Hb.
  apply in_map_iff in Hb as [n [<- Hn]].
  apply in_seq in Hn.
  assert (Hteams : coreTeams
            {| blockNumber := Z.of_nat n + 1;
               startDate := (default (0, 0) (generateBlockDates this !! n)).1;
               endDate := (default (0, 0) (generateBlockDates this !! n)).2;
               assignments :=
                 omap (fun cell => cell)
                      (default [] (phase6_BalanceTeams g4 !! n)) |}
          = alternating
              (length (coreCells (default [] (phase6_BalanceTeams g4 !! n))))
              Red).
  { unfold coreTeams. cbn [assignments].
    rewrite phase6_lookup by (unfold BLOCKS_PER_YEAR in *; lia).
    destruct (g4 !! n) as [row|] eqn:Hrow; [|reflexivity].
    simpl. unfold balanceBlock.
    assert (Hu : untagged row).
    { eapply Forall_lookup_1; [exact U4|exact Hrow]. }
    rewrite !countTeam_untagged by exact Hu.
    fold (coreCells (assignTeams 0 0 row)).
    rewrite assignTeams_alternating by (auto).
    rewrite assignTeams_coreCells_length. reflexivity. }
  split; [|].
  - rewrite Hteams at 1. f_equal. rewrite Hteams.
    clear. generalize (length (coreCells (default [] (phase6_BalanceTeams g4 !! n)))).
    generalize Red. intros t k. revert t.
    induction k as [|k IH]; intros t; simpl; [reflexivity|]. f_equal. apply IH.
  - unfold teamCount. rewrite Hteams.
    pose proof (alternating_counts
                  (length (coreCells (default [] (phase6_BalanceTeams g4 !! n))))
                  Red) as Hc.
    change (otherTeam Red) with Blue in Hc. lia.
Qed.

Lemma isSlotEmpty_defined (g : Grid) (block : Z) (resIndex : nat) :
  length g = BLOCKS_PER_YEAR -> 0 <= block < 13 ->
  exists b, isSlotEmpty g block resIndex = Some b.
Proof.
  intros Hg Hb. unfold isSlotEmpty.
  destruct (Z.ltb_spec block 0); [lia|].
  destruct (lookup_lt_is_Some_2 g (Z.to_nat block)) as [row ->].
  - rewrite Hg. unfold BLOCKS_PER_YEAR. lia.
  - eexists. reflexivity.
Qed.

Lemma assign_defined (this : Engine) (g : Grid) (block : Z) (resIndex : nat)
    (rotation : Rotation) :
  length g = BLOCKS_PER_YEAR -> 0 <= block < 13 ->
  (resIndex < length (residents this))%nat ->
  exists g', assign this g block resIndex rotation = Some g'
             /\ length g' = BLOCKS_PER_YEAR.
Proof.
  intros Hg Hb Hi. unfold assign.
  destruct (isSlotEmpty_defined g block resIndex Hg Hb) as [[|] ->].
  - destruct (lookup_lt_is_Some_2 (residents this) resIndex Hi) as [r ->].
    eexists. split; [reflexivity|]. rewrite length_alter. exact Hg.
  - exists g. split; [reflexivity|exact Hg].
Qed.

Lemma indexedResidents_lt (this : Engine) (resIndex : nat) (r : Resident) :
  (resIndex, r) ∈ indexedResidents this ->
  (resIndex < length (residents this))%nat.
Proof.
  unfold indexedResidents. intros H.
  apply elem_of_lookup_imap in H as [i [x [Heq Hx]]].
  injection Heq as -> ->. eapply lookup_lt_Some. exact Hx.
Qed.

Lemma applyRule_defined (this : Engine) (rtype : RotationType) (g : Grid)
    (rule : MandatoryRule) :
  blockInRange rule -> length g = BLOCKS_PER_YEAR ->
  exists g', applyRule this rtype g rule = Some g'
             /\ length g' = BLOCKS_PER_YEAR.
Proof.
  intros Hr Hg. unfold applyRule.
  apply (forEachM_defined (fun g => length g = BLOCKS_PER_YEAR)); [|exact Hg].
  intros s [resIndex resident] Hs Hin.
  destruct (existsb _ _).
  - apply assign_defined; [exact Hs|unfold blockInRange in Hr; lia|].
    eapply indexedResidents_lt. exact Hin.
  - exists s. split; [reflexivity|exact Hs].
Qed.

(** The engine returns an academic year whenever the mandatory-rotation and
    exam-leave rules name blocks 1 to 13. *)
Lemma generateSchedule_defined (this : Engine) :
  Forall blockInRange (mandatoryRotations (config this)) ->
  Forall blockInRange (examLeave (config this)) ->
  is_Some (generateSchedule this).
Proof.
  intros Hm He. unfold generateSchedule.
  destruct (forEachM_defined (fun g : Grid => length g = BLOCKS_PER_YEAR)
              (applyRule this MANDATORY_OFF_SERVICE)
              (mandatoryRotations (config this))) with (s := emptySchedule this)
    as [g1 [H1 L1]].
  { intros s rule Hs Hin. apply applyRule_defined; [|exact Hs].
    eapply Forall_forall in Hm; [exact Hm|exact Hin]. }
  { unfold emptySchedule. apply length_replicate. }
  unfold phase1_AssignMandatoryRotations. rewrite H1.
  destruct (forEachM_defined (fun g : Grid => length g = BLOCKS_PER_YEAR)
              (applyRule this EXAM_LEAVE)
              (examLeave (config this))) with (s := g1)
    as [g2 [H2 L2]].
  { intros s rule Hs Hin. apply applyRule_defined; [|exact Hs].
    eapply Forall_forall in He; [exact He|exact Hin]. }
  { exact L1. }
  unfold phase2_AssignExamBlocks. rewrite H2.
  unfold phase3_AssignHolidayBlocks.
  match goal with
  | |- is_Some (match forEachM ?body ?l g2 with _ => _ end) =>
      destruct (forEachM_defined (fun g : Grid => length g = BLOCKS_PER_YEAR)
                  body l) with (s := g2) as [g3 [H3 L3]]
  end.
  { intros s [idx [resIndex senior]] Hs Hin. cbv zeta. cbn [fst].
    apply elem_of_lookup_imap in Hin as [i [x [Heq Hx]]].
    injection Heq as -> <-.
    apply list_elem_of_lookup_2 in Hx.
    apply list_elem_of_In in Hx.
    apply sortDesc_In in Hx. apply filter_In in Hx as [Hx _].
    apply list_elem_of_In in Hx. apply indexedResidents_lt in Hx.
    assert (Hblock : 0 <= (if Nat.even i then 6 else 7) - 1 < 13)
      by (destruct (Nat.even i); lia).
    destruct (isSlotEmpty_defined s ((if Nat.even i then 6 else 7) - 1)
                resIndex Hs Hblock) as [[|] ->].
    - apply assign_defined; assumption.
    - exists s. split; [reflexivity|exact Hs]. }
  { exact L2. }
  rewrite H3.
  unfold phase4_AssignCoreNeurosurgeryRotations.
  match goal with
  | |- is_Some (match forEachM ?body ?l g3 with _ => _ end) =>
      destruct (forEachM_defined (fun g : Grid => length g = BLOCKS_PER_YEAR)
                  body l) with (s := g3) as [g4 [H4 L4]]
  end.
  { intros s block Hs Hin. apply elem_of_seq in Hin.
    apply (forEachM_defined (fun g : Grid => length g = BLOCKS_PER_YEAR));
      [|exact Hs].
    intros t resIndex Ht Hi. apply elem_of_seq in Hi.
    assert (Hblock : 0 <= Z.of_nat block < 13)
      by (unfold BLOCKS_PER_YEAR in Hin; lia).
    destruct (isSlotEmpty_defined t (Z.of_nat block) resIndex Ht Hblock)
      as [[|] ->].
    - apply assign_defined; [assumption|assumption|lia].
    - exists t. split; [reflexivity|exact Ht]. }
  { exact L3. }
  rewrite H4. eexists. reflexivity.
Qed.

Lemma yearly_teams_balanced_witness :
  exists ay,
    generateSchedule Examples.engine5 = Some ay
    /\ forall b, In b (blocks ay) ->
         Z.abs (teamCount Red b - teamCount Blue b) <= 1.
Proof.
  destruct (generateSchedule Examples.engine5) as [ay|] eqn:E.
  - exists ay. split; [reflexivity|].
    intros b Hb.
    apply (proj2 (yearly_teams_balanced Examples.engine5 ay E) b Hb).
  - exfalso. vm_compute in E. discriminate E.
Defined.

End Yearly.

(** ** Selection in the monthly scheduler *)

Section SortHead.
Context {A : Type} (key : A -> JS.Number).

Lemma Qgtb_lt (a b : Q) : JS.Qgtb a b = true <-> (b < a)%Q.
Proof.
  unfold JS.Qgtb. rewrite negb_true_iff.
  split.
  - intros H. apply Qnot_le_lt. intros Hle.
    apply Qle_bool_iff in Hle. congruence.
  - intros H. destruct (Qle_bool a b) eqn:E; [|reflexivity].
    apply Qle_bool_iff in E. exfalso. eapply Qlt_not_le; eassumption.
Qed.

Lemma Qgtb_le (a b : Q) : JS.Qgtb a b = false <-> (a <= b)%Q.
Proof.
  unfold JS.Qgtb. rewrite negb_false_iff. apply Qle_bool_iff.
Qed.

(** [Math.round] reads the double: (0.6 - 0.5) * 5 is 0.4999999999999999
    and rounds to 0; a half rounds up. *)
Lemma mathRound_reads_the_double :
  JS.mul (JS.sub (JS.literal 6 10) (JS.literal 5 10)) (JS.ofZ 5)
  = S754_finite false 9007199254740990 (-54)
  /\ JS.mathRound
       (JS.mul (JS.sub (JS.literal 6 10) (JS.literal 5 10)) (JS.ofZ 5))
     = JS.ofZ 0
  /\ JS.mathRound (JS.literal 1 2) = JS.ofZ 1
  /\ JS.mathRound (JS.literal 5 2) = JS.ofZ 3
  /\ JS.mathRound (JS.literal (-3) 2) = JS.ofZ (-1)
  /\ JS.mathRound (JS.literal (-1) 2) = S754_zero true.
Proof.
  split; [vm_compute; reflexivity|]. split; [vm_compute; reflexivity|].
  split; [vm_compute; reflexivity|]. split; [vm_compute; reflexivity|].
  split; vm_compute; reflexivity.
Qed.

(** The comparisons of doubles that are not NaN are those of their
    ranks. *)
Lemma ltb_rank (x y : JS.Number) :
  JS.isNaN x = false -> JS.isNaN y = false ->
  (JS.ltb x y = true <-> Spec.lexlt (Spec.rank x) (Spec.rank y)).
Proof.
  unfold JS.ltb, SFltb.
  destruct x as [sx|sx| |sx mx ex], y as [sy|sy| |sy my ey];
    try discriminate; intros _ _;
    try (destruct sx); try (destruct sy);
    cbn [SFcompare Spec.rank Spec.lexlt];
    try (split; [discriminate|lia]);
    try (split; [lia|reflexivity]).
  - destruct (Z.compare_spec ex ey) as [->|H|H]; cbn [CompOpp].
    + change (Pos.compare_cont Eq mx my) with (Pos.compare mx my).
      destruct (Pos.compare_spec mx my) as [->|H|H]; cbn [CompOpp];
        (split; [try discriminate; intros _|try reflexivity; intros H']); lia.
    + split; [discriminate|lia].
    + split; [lia|reflexivity].
  - destruct (Z.compare_spec ex ey) as [->|H|H].
    + change (Pos.compare_cont Eq mx my) with (Pos.compare mx my).
      destruct (Pos.compare_spec mx my) as [->|H|H];
        (split; [try discriminate; intros _|try reflexivity; intros H']); lia.
    + split; [lia|reflexivity].
    + split; [discriminate|lia].
Qed.

Lemma leb_rank (x y : JS.Number) :
  JS.isNaN x = false -> JS.isNaN y = false ->
  (JS.leb x y = true <-> ~ Spec.lexlt (Spec.rank y) (Spec.rank x)).
Proof.
  unfold JS.leb, SFleb.
  destruct x as [sx|sx| |sx mx ex], y as [sy|sy| |sy my ey];
    try discriminate; intros _ _;
    try (destruct sx); try (destruct sy);
    cbn [SFcompare Spec.rank Spec.lexlt];
    try (split; [discriminate|lia]);
    try (split; [lia|reflexivity]).
  - destruct (Z.compare_spec ex ey) as [->|H|H]; cbn [CompOpp].
    + change (Pos.compare_cont Eq mx my) with (Pos.compare mx my).
      destruct (Pos.compare_spec mx my) as [->|H|H]; cbn [CompOpp];
        (split; [try discriminate; intros _|try reflexivity; intros H']); lia.
    + split; [discriminate|lia].
    + split; [lia|reflexivity].
  - destruct (Z.compare_spec ex ey) as [->|H|H].
    + change (Pos.compare_cont Eq mx my) with (Pos.compare mx my).
      destruct (Pos.compare_spec mx my) as [->|H|H];
        (split; [try discriminate; intros _|try reflexivity; intros H']); lia.
    + split; [lia|reflexivity].
    + split; [discriminate|lia].
Qed.

Lemma lexlt_trans (a b c : Z * Z * Z) :
  Spec.lexlt a b -> Spec.lexlt b c -> Spec.lexlt a c.
Proof.
  destruct a as [[a1 a2] a3], b as [[b1 b2] b3], c as [[c1 c2] c3].
  unfold Spec.lexlt. lia.
Qed.

Lemma lexlt_between (a b c : Z * Z * Z) :
  Spec.lexlt a c -> Spec.lexlt a b \/ Spec.lexlt b c.
Proof.
  destruct a as [[a1 a2] a3], b as [[b1 b2] b3], c as [[c1 c2] c3].
  unfold Spec.lexlt. lia.
Qed.

Lemma gtb_false_leb (x y : JS.Number) :
  JS.isNaN x = false -> JS.isNaN y = false ->
  JS.gtb x y = false -> JS.leb x y = true.
Proof.
  intros Hx Hy H. apply (leb_rank x y Hx Hy). intros Hlt.
  apply (ltb_rank y x Hy Hx) in Hlt. unfold JS.gtb in H.
  unfold JS.ltb in Hlt. congruence.
Qed.

(** The head of the sorted list is the first element of the list with the
    greatest key, when no key is NaN. *)
Lemma sortDesc_head (l : list A) :
  Forall (fun x => JS.isNaN (key x) = false) l ->
  match JS.sortDesc key JS.gtb l with
  | [] => l = []
  | h :: _ =>
      exists pre post,
        l = pre ++ h :: post
        /\ Forall (fun x => JS.ltb (key x) (key h) = true) pre
        /\ Forall (fun x => JS.leb (key x) (key h) = true) post
  end.
Proof.
  induction l as [|x l IH]; [reflexivity|].
  intros Hnan. apply Forall_cons_1 in Hnan as [Hx Hl].
  specialize (IH Hl).
  simpl. destruct (JS.sortDesc key JS.gtb l) as [|h t].
  - subst l. simpl. exists [], []. repeat split; constructor.
  - destruct IH as [pre [post [-> [Hpre Hpost]]]]. simpl.
    apply Forall_app in Hl as [Hnpre Hnh].
    apply Forall_cons_1 in Hnh as [Hh Hnpost].
    destruct (JS.gtb (key h) (key x)) eqn:E.
    + exists (x :: pre), post. repeat split; [|exact Hpost].
      constructor; assumption.
    + exists [], (pre ++ h :: post). repeat split; [constructor|].
      assert (Ehx : ~ Spec.lexlt (Spec.rank (key x)) (Spec.rank (key h))).
      { intros Hlt. apply (ltb_rank _ _ Hx Hh) in Hlt.
        unfold JS.gtb in E. unfold JS.ltb in Hlt. congruence. }
      apply Forall_app. split; [|constructor].
      * rewrite Forall_forall in Hpre, Hnpre. apply Forall_forall.
        intros y Hy. specialize (Hpre y Hy). specialize (Hnpre y Hy).
        apply (leb_rank _ _ Hnpre Hx). intros Hlt.
        apply (ltb_rank _ _ Hnpre Hh) in Hpre.
        apply Ehx. eapply lexlt_trans; eassumption.
      * apply gtb_false_leb; assumption.
      * rewrite Forall_forall in Hpost, Hnpost. apply Forall_forall.
        intros y Hy. specialize (Hpost y Hy). specialize (Hnpost y Hy).
        apply (leb_rank _ _ Hnpost Hx). intros Hlt.
        apply (leb_rank _ _ Hnpost Hh) in Hpost.
        destruct (lexlt_between _ (Spec.rank (key h)) _ Hlt); contradiction.
Qed.

End SortHead.

Section Selection.
Import MonthlyCallScheduler.

Lemma selectBestResident_split (this : Scheduler)
    (callStats : gmap string CallStats) (date : JS.Date) (callType : CallType)
    (s : StaffingLevel) (excludeIds : list string) :
  Forall (fun r =>
            JS.isNaN (scoreResident this callStats r date callType) = false)
         (eligibleResidents this callStats date s excludeIds) ->
  match selectBestResident this callStats date callType s excludeIds with
  | None => eligibleResidents this callStats date s excludeIds = []
  | Some best =>
      exists pre post,
        eligibleResidents this callStats date s excludeIds
        = pre ++ best :: post
        /\ Forall (fun r =>
                     JS.ltb (scoreResident this callStats r date callType)
                            (scoreResident this callStats best date callType)
                     = true) pre
        /\ Forall (fun r =>
                     JS.leb (scoreResident this callStats r date callType)
                            (scoreResident this callStats best date callType)
                     = true) post
  end.
Proof.
  unfold selectBestResident.
  set (E := eligibleResidents this callStats date s excludeIds).
  intros Hnan.
  pose proof (sortDesc_head (A := Resident * JS.Number) snd
                (map (fun r => (r, scoreResident this callStats r date callType))
                     E)) as H.
  assert (Hn : Forall (fun x : Resident * JS.Number => JS.isNaN (snd x) = false)
                 (map (fun r => (r, scoreResident this callStats r date
                                      callType)) E)).
  { rewrite Forall_map. exact Hnan. }
  specialize (H Hn). clear Hn.
  match type of H with
  | match ?sorted with _ => _ end => destruct sorted as [|[best sc] t]
  end.
  - apply map_eq_nil in H. exact H.
  - destruct H as [pre [post [Heq [Hpre Hpost]]]]. simpl.
    apply map_eq_app in Heq as [E1 [E2 [HE [H1 H2]]]].
    apply map_eq_cons in H2 as [r [E3 [HE2 [Hr H3]]]].
    injection Hr as -> <-. subst pre post E2.
    exists E1, E3. split; [exact HE|].
    rewrite !Forall_map in *. simpl in *. split; assumption.
Qed.

Lemma selectBestResident_eligible (this : Scheduler)
    (callStats : gmap string CallStats) (date : JS.Date) (callType : CallType)
    (s : StaffingLevel) (excludeIds : list string) (best : Resident) :
  selectBestResident this callStats date callType s excludeIds = Some best ->
  In best (residents this)
  /\ JS.includes (id best) excludeIds = false
  /\ isEligibleForCall this callStats best date s = true.
Proof.
  unfold selectBestResident. intros H.
  set (scored := map (fun r => (r, scoreResident this callStats r date
                                     callType))
                     (eligibleResidents this callStats date s excludeIds))
    in H.
  assert (Hin : In best (eligibleResidents this callStats date s excludeIds)).
  { destruct (JS.sortDesc snd JS.gtb scored) as [|[b sc] t] eqn:Es;
      [discriminate H|].
    injection H as <-.
    assert (Hh : In (b, sc) scored).
    { apply (sortDesc_In snd JS.gtb). rewrite Es. left. reflexivity. }
    unfold scored in Hh. apply in_map_iff in Hh as [r [Hr Hin]].
    injection Hr as -> _. exact Hin. }
  unfold eligibleResidents in Hin. apply filter_In in Hin as [Hin Hb].
  apply andb_true_iff in Hb as [Hex Hel].
  apply negb_true_iff in Hex. auto.
Qed.



Lemma createPostCallAssignments_type (this : Scheduler)
    (a a' : CallAssignment) (callType : CallType) :
  In a' (createPostCallAssignments this a callType) -> ca_type a' = PostCall.
Proof.
  unfold createPostCallAssignments.
  destruct (negb (requiresPostCall callType)); [intros []|].
  destruct (negb _); [intros []|].
  intros [<-|[]]. reflexivity.
Qed.




(** C4, as the code has it: the resident chosen is the first one, in the
    order of the residents list, among the eligible residents with the
    highest score: every eligible resident listed before the chosen one has
    a strictly lower score, every one listed after has a score that is not
    higher.  The scores are the doubles that the scorer computes, compared
    as doubles; none of them is NaN.  Nobody is chosen only when nobody is
    eligible.  The order of the residents list is thus an input of the
    schedule. *)
Theorem selectBestResident_first_highest (this : Scheduler)
    (callStats : gmap string CallStats) (date : JS.Date) (callType : CallType)
    (s : StaffingLevel) (excludeIds : list string) :
  let score r := scoreResident this callStats r date callType in
  Forall (fun r => JS.isNaN (score r) = false)
         (eligibleResidents this callStats date s excludeIds) ->
  match selectBestResident this callStats date callType s excludeIds with
  | None => eligibleResidents this callStats date s excludeIds = []
  | Some best =>
      exists pre post,
        eligibleResidents this callStats date s excludeIds
        = pre ++ best :: post
        /\ Forall (fun r => JS.ltb (score r) (score best) = true) pre
        /\ Forall (fun r => JS.leb (score r) (score best) = true) post
  end.
Proof.
  cbv zeta. apply selectBestResident_split.
Qed.

Lemma selectBestResident_first_highest_witness :
  let this := Examples.thirdsJune in
  let callStats := initializeCallStats this in
  let date := JS.newDate 2025 5 1 in
  let score r := scoreResident this callStats r date Weekend in
  Forall (fun r => JS.isNaN (score r) = false)
         (eligibleResidents this callStats date Normal [])
  /\ exists pre post,
       eligibleResidents this callStats date Normal []
       = pre ++ Examples.resident "r2" 1 :: post
       /\ Forall (fun r => JS.ltb (score r) (score (Examples.resident "r2" 1))
                           = true) pre
       /\ Forall (fun r => JS.leb (score r) (score (Examples.resident "r2" 1))
                           = true) post.
Proof.
  cbv zeta.
  assert (Hnan : Forall (fun r =>
                           JS.isNaN (scoreResident Examples.thirdsJune
                                       (initializeCallStats Examples.thirdsJune)
                                       r (JS.newDate 2025 5 1) Weekend)
                           = false)
                   (eligibleResidents Examples.thirdsJune
                      (initializeCallStats Examples.thirdsJune)
                      (JS.newDate 2025 5 1) Normal [])).
  { assert (He : eligibleResidents Examples.thirdsJune
                     (initializeCallStats Examples.thirdsJune)
                     (JS.newDate 2025 5 1) Normal []
                   = [Examples.resident "r1" 2; Examples.resident "r2" 1;
                      Examples.resident "r3" 1])
      by (vm_compute; reflexivity).
    rewrite He.
    repeat (constructor; [vm_compute; reflexivity|]). constructor. }
  split; [exact Hnan|].
  pose proof (selectBestResident_first_highest Examples.thirdsJune
                (initializeCallStats Examples.thirdsJune)
                (JS.newDate 2025 5 1) Weekend Normal [] Hnan) as H.
  assert (Hsel : selectBestResident Examples.thirdsJune
                   (initializeCallStats Examples.thirdsJune)
                   (JS.newDate 2025 5 1) Weekend Normal []
                 = Some (Examples.resident "r2" 1))
    by (vm_compute; reflexivity).
  rewrite Hsel in H. exact H.
Defined.

(** The scores are doubles.  In the roster of [Examples.thirdsJune] the
    exact scores of "r1" and "r2" for the weekend call of June 1st are both
    530/3; the doubles that the scorer computes are 176.66666666666666 for
    "r1" and 176.66666666666669 for "r2", and "r2" is chosen although "r1"
    is listed first. *)
Lemma scores_are_doubles :
  let this := Examples.thirdsJune in
  let callStats := initializeCallStats this in
  let date := JS.newDate 2025 5 1 in
  let score r := scoreResident this callStats r date Weekend in
  eligibleResidents this callStats date Normal []
  = [Examples.resident "r1" 2; Examples.resident "r2" 1;
     Examples.resident "r3" 1]
  /\ score (Examples.resident "r1" 2)
     = S754_finite false 6215905735693653 (-45)
  /\ score (Examples.resident "r2" 1)
     = S754_finite false 6215905735693654 (-45)
  /\ selectBestResident this callStats date Weekend Normal []
     = Some (Examples.resident "r2" 1).
Proof.
  cbv zeta.
  split; [vm_compute; reflexivity|].
  split; [vm_compute; reflexivity|].
  split; vm_compute; reflexivity.
Qed.

(** C4 fails as stated: of two residents that differ in their id only, the
    one listed first takes the first call of June 2025, although the other
    one is eligible with the same score, the same call count and the
    smaller id; and listing the two residents in the other order gives
    another schedule. *)
Lemma tie_goes_to_list_order :
  let this := Examples.pairJuneBA in
  let callStats := initializeCallStats this in
  let date := JS.newDate 2025 5 1 in
  selectBestResident this callStats date Weekend Normal []
  = Some (Examples.resident "b" 2)
  /\ In (Examples.resident "a" 2)
        (eligibleResidents this callStats date Normal [])
  /\ JS.eqb
       (scoreResident this callStats (Examples.resident "a" 2) date Weekend)
       (scoreResident this callStats (Examples.resident "b" 2) date Weekend)
     = true
  /\ totalCalls (callStats !!! "a"%string) = totalCalls (callStats !!! "b"%string)
  /\ String.ltb "a" "b" = true
  /\ ~ Spec.tieBreakByCountThenId this callStats date Weekend Normal []
  /\ Permutation (residents Examples.pairJuneAB) (residents this)
  /\ generateSchedule Examples.pairJuneAB Normal
     <> generateSchedule this Normal.
Proof.
  cbv zeta.
  assert (Hsel : selectBestResident Examples.pairJuneBA
                   (initializeCallStats Examples.pairJuneBA)
                   (JS.newDate 2025 5 1) Weekend Normal []
                 = Some (Examples.resident "b" 2))
    by (vm_compute; reflexivity).
  assert (Hin : In (Examples.resident "a" 2)
                   (eligibleResidents Examples.pairJuneBA
                      (initializeCallStats Examples.pairJuneBA)
                      (JS.newDate 2025 5 1) Normal []))
    by (vm_compute; right; left; reflexivity).
  assert (Hsc : JS.eqb
                  (scoreResident Examples.pairJuneBA
                     (initializeCallStats Examples.pairJuneBA)
                     (Examples.resident "a" 2) (JS.newDate 2025 5 1) Weekend)
                  (scoreResident Examples.pairJuneBA
                     (initializeCallStats Examples.pairJuneBA)
                     (Examples.resident "b" 2) (JS.newDate 2025 5 1) Weekend)
                = true)
    by (vm_compute; reflexivity).
  split; [exact Hsel|]. split; [exact Hin|]. split; [exact Hsc|].
  split; [vm_compute; reflexivity|]. split; [vm_compute; reflexivity|].
  split; [|split].
  - intros Hclaim.
    specialize (Hclaim (Examples.resident "b" 2) (Examples.resident "a" 2)
                  Hsel Hin Hsc).
    cbv beta zeta in Hclaim.
    assert (Ea : totalCalls (initializeCallStats Examples.pairJuneBA
                             !!! id (Examples.resident "a" 2)) = 0)
      by (vm_compute; reflexivity).
    assert (Eb : totalCalls (initializeCallStats Examples.pairJuneBA
                             !!! id (Examples.resident "b" 2)) = 0)
      by (vm_compute; reflexivity).
    rewrite Ea, Eb in Hclaim.
    destruct Hclaim as [H|[_ H]]; [lia|].
    vm_compute in H. discriminate H.
  - apply perm_swap.
  - assert (Ea : option_map ca_residentId
                   (head (generateSchedule Examples.pairJuneAB Normal))
                 = Some "a"%string) by (vm_compute; reflexivity).
    assert (Eb : option_map ca_residentId
                   (head (generateSchedule Examples.pairJuneBA Normal))
                 = Some "b"%string) by (vm_compute; reflexivity).
    intros H. rewrite H in Ea. rewrite Ea in Eb. discriminate Eb.
Qed.

(** C1 fails on the code.  With a single resident in June 2025 the
    weekend of Sunday June 1st is filled first; when the night of Monday
    June 2nd is filled later, the last call on record is that of Friday
    June 6th, and the resident gets the night right after the weekend
    call. *)
Theorem consecutive_calls_in_june_2025 :
  let out := generateSchedule Examples.soloJune Normal in
  let sunday :=
    {| ca_residentId := "r1"; ca_date := JS.newDate 2025 5 1;
       ca_type := Weekend; ca_points := 2; ca_isHoliday := false;
       ca_team := None; ca_status := Scheduled |} in
  let monday :=
    {| ca_residentId := "r1"; ca_date := JS.newDate 2025 5 2;
       ca_type := Night; ca_points := 1; ca_isHoliday := false;
       ca_team := None; ca_status := Scheduled |} in
  In sunday out /\ In monday out
  /\ Spec.isCall sunday /\ Spec.isCall monday
  /\ ca_residentId sunday = ca_residentId monday
  /\ ca_date monday = ca_date sunday + 1.
Proof.
  cbv zeta. split; [|split; [|split; [|split; [|split]]]].
  - vm_compute. left. reflexivity.
  - vm_compute. do 4 right. left. reflexivity.
  - discriminate.
  - discriminate.
  - reflexivity.
  - reflexivity.
Qed.




End Selection.

(** ** The statistics cover the roster

    The sources read a resident's statistics with [callStats.get(id)!]; the
    embedding reads them with a total lookup.  The constructor puts an entry
    for every resident and a run keeps the entries, so the lookup always
    finds one. *)

Section Coverage.
Import MonthlyCallScheduler.

Lemma initializeCallStats_covers (this : Scheduler) (r : Resident) :
  In r (residents this) -> is_Some (initializeCallStats this !! id r).
Proof.
  unfold initializeCallStats.
  assert (H : forall (l : list Resident) (m : gmap string CallStats),
             In r l \/ is_Some (m !! id r) ->
             is_Some (fold_left
                        (fun cs resident =>
                           <[id resident := initialStats this resident]> cs)
                        l m !! id r)).
  { induction l as [|x l IH]; intros m [Hin|Hm]; cbn [fold_left].
    - destruct Hin.
    - exact Hm.
    - apply IH. destruct Hin as [->|Hin]; [right|left; exact Hin].
      rewrite lookup_insert_eq. eexists. reflexivity.
    - apply IH. right.
      destruct (decide (id x = id r)) as [E|E].
      + rewrite E, lookup_insert_eq. eexists. reflexivity.
      + rewrite lookup_insert_ne by exact E. exact Hm. }
  intros Hin. apply H. left. exact Hin.
Qed.

Lemma updateResidentStats_covers (callStats : gmap string CallStats)
    (residentId k : string) (dayReq : DayRequirements) :
  is_Some (callStats !! k) ->
  is_Some (updateResidentStats callStats residentId dayReq !! k).
Proof.
  intros H. unfold updateResidentStats.
  destruct (decide (residentId = k)) as [->|E].
  - rewrite lookup_alter_eq. apply fmap_is_Some. exact H.
  - rewrite lookup_alter_ne by exact E. exact H.
Qed.

Lemma fillDay_covers (this : Scheduler) (s : StaffingLevel)
    (dayReq : DayRequirements) (k : string) (n : nat) :
  forall selected st,
    is_Some (fst st !! k) ->
    is_Some (fst (fillDay this n s dayReq selected st) !! k).
Proof.
  induction n as [|n IH]; intros selected [callStats out] H; [exact H|].
  cbn [fillDay].
  destruct (selectBestResident this callStats (dr_date dayReq)
              (dr_callType dayReq) s (map id selected)) as [best|].
  - apply IH. cbn [fst] in *. apply updateResidentStats_covers. exact H.
  - apply IH. exact H.
Qed.

Lemma runSchedule_covers (this : Scheduler) (s : StaffingLevel)
    (r : Resident) :
  In r (residents this) ->
  is_Some (fst (runSchedule this s (initializeCallStats this)) !! id r).
Proof.
  intros Hin. unfold runSchedule.
  assert (H : forall days st,
             is_Some (fst st !! id r) ->
             is_Some (fst (fold_left (processDay this s) days st) !! id r)).
  { induction days as [|d days IH]; intros st Hst; [exact Hst|].
    cbn [fold_left]. apply IH. unfold processDay.
    destruct (bool_decide (dr_callType d = NoCall)); [exact Hst|].
    apply fillDay_covers. exact Hst. }
  apply H. apply initializeCallStats_covers. exact Hin.
Qed.

End Coverage.

(** ** The statistics record the calls of a run *)

Section Bookkeeping.
Import MonthlyCallScheduler.

Lemma callsOf_app (k : string) (l1 l2 : list CallAssignment) :
  Spec.callsOf k (l1 ++ l2) = Spec.callsOf k l1 ++ Spec.callsOf k l2.
Proof. unfold Spec.callsOf. rewrite List.filter_app, map_app. reflexivity. Qed.

Lemma callsOf_postCall (this : Scheduler) (k : string) (a : CallAssignment)
    (callType : CallType) :
  Spec.callsOf k (createPostCallAssignments this a callType) = [].
Proof.
  unfold createPostCallAssignments.
  destruct (negb (requiresPostCall callType)); [reflexivity|].
  destruct (negb _); [reflexivity|].
  unfold Spec.callsOf. simpl. rewrite andb_false_r. reflexivity.
Qed.

Lemma lookup_total_updateResidentStats_eq (callStats : gmap string CallStats)
    (k : string) (dayReq : DayRequirements) :
  is_Some (callStats !! k) ->
  updateResidentStats callStats k dayReq !!! k
  = updateStats dayReq (callStats !!! k).
Proof.
  intros [st Hst]. unfold updateResidentStats.
  rewrite !lookup_total_alt, lookup_alter_eq, Hst. reflexivity.
Qed.

Lemma lookup_total_updateResidentStats_ne (callStats : gmap string CallStats)
    (j k : string) (dayReq : DayRequirements) :
  j <> k ->
  updateResidentStats callStats j dayReq !!! k = callStats !!! k.
Proof.
  intros Hne. unfold updateResidentStats.
  rewrite !lookup_total_alt, lookup_alter_ne by exact Hne. reflexivity.
Qed.

Lemma fillDay_recorded (this : Scheduler) (s : StaffingLevel)
    (dayReq : DayRequirements) (k : string) (base : list JS.Date) (n : nat) :
  dr_callType dayReq <> PostCall ->
  forall selected st,
    Spec.recorded this k base st ->
    Spec.recorded this k base (fillDay this n s dayReq selected st).
Proof.
  intros Hct. induction n as [|n IH]; intros selected [callStats out] Hrec;
    [exact Hrec|].
  cbn [fillDay].
  destruct (selectBestResident this callStats (dr_date dayReq)
              (dr_callType dayReq) s (map id selected)) as [best|] eqn:Hsel;
    [|apply IH; exact Hrec].
  apply IH. unfold Spec.recorded in *. destruct Hrec as [Hcov Hdates].
  cbn [fst snd] in *.
  apply selectBestResident_eligible in Hsel as [Hin _].
  split.
  - intros r Hr. apply updateResidentStats_covers. apply Hcov. exact Hr.
  - rewrite !callsOf_app, callsOf_postCall, app_nil_r.
    unfold Spec.callsOf at 2. cbn [List.filter createCallAssignment ca_residentId
                                ca_type].
    rewrite (bool_decide_eq_false_2 _ Hct). cbn [negb]. rewrite andb_true_r.
    destruct (String.eqb_spec (id best) k) as [<-|Hne].
    + rewrite lookup_total_updateResidentStats_eq by (apply Hcov; exact Hin).
      cbn [callDates updateStats map ca_date]. rewrite Hdates.
      rewrite <- app_assoc. reflexivity.
    + rewrite lookup_total_updateResidentStats_ne by exact Hne.
      cbn [map]. rewrite app_nil_r. exact Hdates.
Qed.

(** At the end of a run the statistics of a resident hold the dates of the
    existing calls followed by the dates of the calls the run gave to the
    resident: the look-back of the PARO check counts the resident's own
    prior calls. *)
Lemma runSchedule_recorded (this : Scheduler) (s : StaffingLevel) (k : string) :
  let st := runSchedule this s (initializeCallStats this) in
  callDates (fst st !!! k)
  = callDates (initializeCallStats this !!! k)
    ++ Spec.callsOf k (generateSchedule this s).
Proof.
  cbv zeta. unfold generateSchedule.
  assert (H : forall days st,
             Spec.recorded this k (callDates (initializeCallStats this !!! k)) st ->
             Spec.recorded this k (callDates (initializeCallStats this !!! k))
               (fold_left (processDay this s) days st)).
  { induction days as [|d days IH]; intros st Hst; [exact Hst|].
    cbn [fold_left]. apply IH. unfold processDay.
    destruct (bool_decide (dr_callType d = NoCall)); [exact Hst|].
    destruct (decide (dr_callType d = PostCall)) as [E|E].
    - rewrite E. exact Hst.
    - apply fillDay_recorded; assumption. }
  apply H. split.
  - intros r Hr. apply initializeCallStats_covers. exact Hr.
  - cbn [snd]. rewrite app_nil_r. reflexivity.
Qed.

End Bookkeeping.

(** ** More on the leave-request analyzer *)

Section AnalyzerMore.
Import VacationAnalyzer.

Lemma Qle_bool_false (a b : Q) : Qle_bool a b = false <-> (b < a)%Q.
Proof.
  split.
  - intros H. apply Qnot_le_lt. intros Hle.
    apply Qle_bool_iff in Hle. congruence.
  - intros H. destruct (Qle_bool a b) eqn:E; [|reflexivity].
    apply Qle_bool_iff in E. exfalso. eapply Qlt_not_le; eassumption.
Qed.

Lemma highConflicts_nonempty (conflicts : list Conflict) :
  (0 <? length (List.filter (fun c => bool_decide (c_severity c = SevHigh))
                            conflicts))%nat = true
  <-> exists c, In c conflicts /\ c_severity c = SevHigh.
Proof.
  rewrite Nat.ltb_lt. split.
  - intros H.
    destruct (List.filter _ conflicts) as [|c l] eqn:E; [simpl in H; lia|].
    assert (Hin : In c (c :: l)) by (left; reflexivity).
    rewrite <- E in Hin. apply filter_In in Hin as [Hin Hs].
    apply bool_decide_eq_true in Hs. eauto.
  - intros [c [Hin Hs]].
    assert (Hf : In c (List.filter
                         (fun c => bool_decide (c_severity c = SevHigh))
                         conflicts)).
    { apply filter_In. split; [exact Hin|]. apply bool_decide_eq_true.
      exact Hs. }
    destruct (List.filter _ conflicts); [destruct Hf|simpl; lia].
Qed.

Lemma generateRecommendation_approve (fairness : FairnessAnalysis)
    (coverage : CoverageAnalysis) (conflicts : list Conflict)
    (policy : PolicyCompliance) :
  generateRecommendation fairness coverage conflicts policy = Approve
  <-> conflicts = []
      /\ isCompliant policy = true
      /\ 40 <= score fairness
      /\ riskLevel coverage <> Medium
      /\ ~ (riskLevel coverage = High
            /\ (coverageRatio coverage < 5 # 10)%Q).
Proof.
  unfold generateRecommendation.
  destruct conflicts as [|c conflicts].
  - cbn [List.filter length Nat.ltb Nat.leb].
    destruct (isCompliant policy) eqn:Ec; cbn [negb andb].
    + destruct (bool_decide_reflect (riskLevel coverage = High)) as [EH|EH];
        destruct (Qle_bool (5 # 10) (coverageRatio coverage)) eqn:Eq;
        cbn [negb andb];
        try (split; [discriminate|];
             intros (_ & _ & _ & _ & H5); exfalso; apply H5;
             split; [exact EH|apply Qle_bool_false; exact Eq]);
        (destruct (bool_decide_reflect (riskLevel coverage = Medium))
           as [EM|EM];
         destruct (Z.ltb_spec (score fairness) 40) as [Es|Es];
         cbn [app length Nat.leb Nat.eqb];
         (split;
          [ intros H; try discriminate H;
            repeat split; try assumption; try lia;
            try (intros [Hr Hq]; first [contradiction
                 | apply Qle_bool_iff in Eq;
                   exact (Qlt_not_le _ _ Hq Eq)])
          | intros (_ & _ & H3 & H4 & _);
            first [reflexivity | contradiction | lia] ])).
    + split; [|intros (_ & H & _); discriminate H].
      destruct (length (violations policy)) as [|[|n]]; [| |discriminate];
        (destruct (bool_decide (riskLevel coverage = High)
                   && negb (Qle_bool (5 # 10) (coverageRatio coverage)));
         [discriminate|]);
        destruct (bool_decide (riskLevel coverage = Medium));
        destruct (score fairness <? 40); simpl; discriminate.
  - split; [|intros (H & _); discriminate H].
    destruct (0 <? length _)%nat; [discriminate|].
    destruct (negb (isCompliant policy)
              && (1 <? length (violations policy))%nat); [discriminate|].
    destruct (bool_decide (riskLevel coverage = High)
              && negb (Qle_bool (5 # 10) (coverageRatio coverage)));
      [discriminate|].
    destruct (bool_decide (riskLevel coverage = Medium));
      destruct (score fairness <? 40);
      destruct (negb (isCompliant policy)); simpl; discriminate.
Qed.

(** X1. The synthesis approves exactly the requests without any
    conflict whose policy check is compliant, whose fairness score is at
    least 40 and whose coverage risk is Low, or High with a ratio of at
    least one half: a High risk by itself is not counted as a concern. *)
Theorem recommendation_approve_iff (fairness : FairnessAnalysis)
    (coverage : CoverageAnalysis) (conflicts : list Conflict)
    (policy : PolicyCompliance) :
  generateRecommendation fairness coverage conflicts policy = Approve
  <-> conflicts = []
      /\ isCompliant policy = true
      /\ 40 <= score fairness
      /\ riskLevel coverage <> Medium
      /\ ~ (riskLevel coverage = High
            /\ (coverageRatio coverage < 5 # 10)%Q).
Proof. apply generateRecommendation_approve. Qed.

Lemma recommendation_approve_iff_witness :
  generateRecommendation {| score := 100; recommendations := [] |}
    (analyzeCoverageImpact Examples.db10 Examples.requestJune4) []
    {| isCompliant := true; violations := [] |} = Approve.
Proof.
  apply (proj2 (recommendation_approve_iff _ _ _ _)).
  split; [reflexivity|]. split; [reflexivity|].
  split; [cbn [score]; lia|].
  split; [vm_compute; discriminate|].
  vm_compute. intros [H _]. discriminate H.
Defined.


Lemma generateRecommendation_deny (fairness : FairnessAnalysis)
    (coverage : CoverageAnalysis) (conflicts : list Conflict)
    (policy : PolicyCompliance) :
  generateRecommendation fairness coverage conflicts policy = Deny
  <-> (exists c, In c conflicts /\ c_severity c = SevHigh)
      \/ (isCompliant policy = false
          /\ (2 <= length (violations policy))%nat)
      \/ (riskLevel coverage = High
          /\ (coverageRatio coverage < 5 # 10)%Q).
Proof.
  unfold generateRecommendation.
  pose proof (highConflicts_nonempty conflicts) as Hhigh.
  destruct (0 <? length (List.filter _ conflicts))%nat.
  { split; [intros _; left; apply Hhigh; reflexivity|reflexivity]. }
  assert (Hno : ~ exists c, In c conflicts /\ c_severity c = SevHigh).
  { intros H. apply Hhigh in H. discriminate H. }
  destruct (isCompliant policy) eqn:Ec; cbn [negb andb].
  - destruct (bool_decide_reflect (riskLevel coverage = High)) as [EH|EH];
      destruct (Qle_bool (5 # 10) (coverageRatio coverage)) eqn:Eq;
      cbn [negb andb];
      try (split; [intros _; right; right; split;
                   [exact EH|apply Qle_bool_false; exact Eq]|reflexivity]);
      (split;
       [ match goal with
         | |- context [(2 <=? ?n)%nat] =>
             destruct (2 <=? n)%nat; [|destruct (n =? 1)%nat]
         end; discriminate
       | intros [H|[[H _]|[Hr Hq]]];
         [ contradiction | discriminate H
         | first [contradiction
                 | apply Qle_bool_iff in Eq;
                   exfalso; exact (Qlt_not_le _ _ Hq Eq)] ] ]).
  - destruct (Nat.ltb_spec 1 (length (violations policy))) as [Hv|Hv].
    { split; [intros _; right; left; split; [reflexivity|lia]|reflexivity]. }
    destruct (bool_decide_reflect (riskLevel coverage = High)) as [EH|EH];
      destruct (Qle_bool (5 # 10) (coverageRatio coverage)) eqn:Eq;
      cbn [negb andb];
      try (split; [intros _; right; right; split;
                   [exact EH|apply Qle_bool_false; exact Eq]|reflexivity]);
      (split;
       [ match goal with
         | |- context [(2 <=? ?n)%nat] =>
             destruct (2 <=? n)%nat; [|destruct (n =? 1)%nat]
         end; discriminate
       | intros [H|[[_ H]|[Hr Hq]]];
         [ contradiction | lia
         | first [contradiction
                 | apply Qle_bool_iff in Eq;
                   exfalso; exact (Qlt_not_le _ _ Hq Eq)] ] ]).
Qed.

(** X2. The synthesis denies exactly the requests with a conflict of
    high severity, or with two or more policy violations, or with a High
    coverage risk whose ratio is below one half. *)
Theorem recommendation_deny_iff (fairness : FairnessAnalysis)
    (coverage : CoverageAnalysis) (conflicts : list Conflict)
    (policy : PolicyCompliance) :
  generateRecommendation fairness coverage conflicts policy = Deny
  <-> (exists c, In c conflicts /\ c_severity c = SevHigh)
      \/ (isCompliant policy = false
          /\ (2 <= length (violations policy))%nat)
      \/ (riskLevel coverage = High
          /\ (coverageRatio coverage < 5 # 10)%Q).
Proof. apply generateRecommendation_deny. Qed.

Lemma recommendation_deny_iff_witness :
  generateRecommendation {| score := 100; recommendations := [] |}
    (analyzeCoverageImpact Examples.db10 Examples.requestJune4) []
    {| isCompliant := false;
       violations := ["Insufficient notice"; "Exceeds annual limit"]%string |}
  = Deny.
Proof.
  apply (proj2 (recommendation_deny_iff _ _ _ _)).
  right. left. split; [reflexivity|]. simpl. lia.
Defined.

(** The trigger leaves alone a request that it has analysed. *)
Lemma analyzeLeaveRequest_settled (request : LeaveRequest)
    (fetched : option AnalysisInputs) :
  lr_status (analyzeLeaveRequest request fetched) = PendingAnalysis ->
  False.
Proof.
  unfold analyzeLeaveRequest.
  destruct (bool_decide_reflect (lr_status request = PendingAnalysis))
    as [E|E]; cbn [negb].
  - destruct fetched as [inp|]; [|discriminate].
    unfold runTransaction.
    destruct (denialReasonDefined (performComprehensiveAnalysis inp));
      [|discriminate].
    cbn [lr_status withStatus].
    destruct (bool_decide (performComprehensiveAnalysis inp = Deny));
      discriminate.
  - exact E.
Qed.

(** X3. A second run of the trigger on the request document it has
    written changes nothing, whatever the second analysis finds; and a
    request that is not pending analysis is left as it is. *)
Theorem analyzeLeaveRequest_once (request : LeaveRequest)
    (fetched fetched' : option AnalysisInputs) :
  analyzeLeaveRequest (analyzeLeaveRequest request fetched) fetched'
  = analyzeLeaveRequest request fetched.
Proof.
  pose proof (analyzeLeaveRequest_settled request fetched) as H.
  unfold analyzeLeaveRequest at 1.
  destruct (bool_decide_reflect
              (lr_status (analyzeLeaveRequest request fetched)
               = PendingAnalysis)) as [E|E]; [contradiction|reflexivity].
Qed.


Ltac q_contra :=
  exfalso;
  match goal with
  | H1 : (?a < ?b)%Q, H2 : (?b <= ?a)%Q |- _ => exact (Qlt_not_le _ _ H1 H2)
  end.

Ltac analyzer_cases :=
  repeat match goal with
         | H : _ /\ _ |- _ => destruct H
         | H : _ \/ _ |- _ => destruct H
         end;
  first [ discriminate | reflexivity | lia | q_contra
        | split; first [assumption | lia]
        | left; assumption
        | right; split; assumption ].

Lemma coverage_counts (db : Db) (request : LeaveRequest) :
  let a := analyzeCoverageImpact db request in
  0 <= totalResidents a
  /\ 0 <= overlappingLeaveCount a
  /\ availableResidents a
     = totalResidents a - overlappingLeaveCount a - 1
  /\ coverageRatio a
     = (inject_Z (availableResidents a) / inject_Z (totalResidents a))%Q.
Proof.
  cbv zeta. unfold analyzeCoverageImpact.
  cbn [totalResidents overlappingLeaveCount availableResidents coverageRatio].
  repeat split; lia.
Qed.

(** X4. The requester is always taken off the count: with at least one
    resident on the service the coverage ratio is below 1, and at most
    (total - 1) / total. *)
Theorem coverage_ratio_below_one (db : Db) (request : LeaveRequest) :
  let a := analyzeCoverageImpact db request in
  0 < totalResidents a ->
  (coverageRatio a <= inject_Z (totalResidents a - 1)
                      / inject_Z (totalResidents a))%Q
  /\ (coverageRatio a < 1)%Q.
Proof.
  cbv zeta. intros Ht.
  destruct (coverage_counts db request) as (H0 & Ho & Ha & Hr).
  rewrite Hr.
  assert (Hpos : (0 < inject_Z (totalResidents
                                  (analyzeCoverageImpact db request)))%Q).
  { change 0%Q with (inject_Z 0). rewrite <- Zlt_Qlt. exact Ht. }
  split.
  - apply Qle_shift_div_l; [exact Hpos|].
    unfold Qdiv. rewrite <- Qmult_assoc.
    rewrite (Qmult_comm (/ _)), Qmult_inv_r, Qmult_1_r.
    + rewrite <- Zle_Qle. lia.
    + intros E. rewrite E in Hpos. discriminate Hpos.
  - apply Qlt_shift_div_r; [exact Hpos|].
    rewrite Qmult_1_l. rewrite <- Zlt_Qlt. lia.
Qed.

Lemma coverage_ratio_below_one_witness :
  (coverageRatio (analyzeCoverageImpact Examples.db10 Examples.request3weeks)
   < 1)%Q.
Proof.
  apply (coverage_ratio_below_one Examples.db10 Examples.request3weeks).
  vm_compute. reflexivity.
Defined.

Lemma coverage_risk_cases (db : Db) (request : LeaveRequest) :
  let a := analyzeCoverageImpact db request in
  let n := Z.of_nat (length (weekendDates request)) in
  (riskLevel a = Low <-> (8 # 10 <= coverageRatio a)%Q /\ n <= 2)
  /\ (riskLevel a = High
      <-> (coverageRatio a < 6 # 10)%Q
          \/ ((coverageRatio a < 8 # 10)%Q /\ 4 < n)).
Proof.
  cbv zeta. unfold analyzeCoverageImpact, ratioRiskLevel.
  cbn [riskLevel coverageRatio].
  set (ratio := (_ / _)%Q).
  set (n := Z.of_nat (length (weekendDates request))).
  destruct (Qle_bool (8 # 10) ratio) eqn:E8;
    [apply Qle_bool_iff in E8;
     assert (E6 : (6 # 10 <= ratio)%Q)
       by (eapply Qle_trans; [|exact E8]; discriminate)
    |apply Qle_bool_false in E8;
     destruct (Qle_bool (6 # 10) ratio) eqn:E6;
     [apply Qle_bool_iff in E6|apply Qle_bool_false in E6]];
    destruct (Z.ltb_spec 2 n) as [H2|H2];
    destruct (Z.ltb_spec 4 n) as [H4|H4]; try lia;
    cbn [bool_decide decide_rel andb];
    (split; split; intros H; analyzer_cases).
Qed.


Lemma calculateFairness_score (request : LeaveRequest)
    (historicalLeave : list LeaveRequest) (resident : Resident)
    (averageDaysOff : JS.Number) :
  0 <= pgyLevel resident ->
  50 <= score (calculateFairness request historicalLeave resident
                 averageDaysOff) <= 100.
Proof.
  intros Hp. unfold calculateFairness. cbn [score].
  destruct (15 <? recentDaysOff historicalLeave);
    [|destruct (10 <? recentDaysOff historicalLeave);
      [|destruct (5 <? recentDaysOff historicalLeave)]];
    (destruct (JS.gtb (peerComparisonOf historicalLeave averageDaysOff)
                      (JS.literal 15 10));
     [|destruct (JS.gtb (peerComparisonOf historicalLeave averageDaysOff)
                        (JS.literal 12 10));
       [|destruct (JS.ltb (peerComparisonOf historicalLeave averageDaysOff)
                          (JS.literal 5 10))]]);
    lia.
Qed.


(** The peer comparison is a quotient of doubles: with eleven days off and
    peers at 55/6 days on average it is 1.2000000000000002, which is above
    1.2, and the score of a PGY-3 resident is 100 - 20 - 10 + 6. *)
Lemma fairness_compares_doubles :
  let average := JS.div (JS.ofZ 55) (JS.ofZ 6) in
  peerComparisonOf [Examples.leaveMay11] average
  = S754_finite false 5404319552844596 (-52)
  /\ JS.literal 12 10 = S754_finite false 5404319552844595 (-52)
  /\ score (calculateFairness Examples.requestJune4 [Examples.leaveMay11]
              (Examples.resident "a" 3) average) = 76.
Proof.
  cbv zeta. split; [vm_compute; reflexivity|].
  split; vm_compute; reflexivity.
Qed.




Lemma checkPolicyCompliance_compliant (request : LeaveRequest)
    (requestType : string) (historicalLeave : list LeaveRequest)
    (policy : option LeavePolicy) (today : JS.Date) :
  isCompliant (checkPolicyCompliance request requestType historicalLeave
                 policy today) = true
  <-> (minNoticeOf policy <= daysNotice request today
       \/ requestType = "Compassionate"%string)
      /\ leaveDays request <= maxConsecutiveOf policy
      /\ yearDaysUsed historicalLeave today + leaveDays request
         <= annualLimitOf policy.
Proof.
  unfold checkPolicyCompliance. cbn [isCompliant].
  destruct (Z.ltb_spec (daysNotice request today) (minNoticeOf policy))
    as [H1|H1];
    destruct (String.eqb_spec requestType "Compassionate") as [Ht|Ht];
    destruct (Z.ltb_spec (maxConsecutiveOf policy) (leaveDays request))
      as [H2|H2];
    destruct (Z.ltb_spec (annualLimitOf policy)
                (yearDaysUsed historicalLeave today + leaveDays request))
      as [H3|H3];
    cbn [negb andb app length Nat.eqb];
    (split;
     [ intros H; try discriminate H;
       repeat split; first [lia | left; lia | right; assumption]
     | intros ([H|H] & H' & H''); first [reflexivity | lia | contradiction] ]).
Qed.

(** At most three violations are reported, one per rule, and the
    policy check is compliant exactly when the notice is long enough (or
    the request is compassionate), the request is not longer than the
    consecutive-days limit and the year's approved days plus the request
    stay within the annual limit. *)
Theorem policy_compliance_rules (request : LeaveRequest)
    (requestType : string) (historicalLeave : list LeaveRequest)
    (policy : option LeavePolicy) (today : JS.Date) :
  let result :=
    checkPolicyCompliance request requestType historicalLeave policy today in
  (length (violations result) <= 3)%nat
  /\ (isCompliant result = true
      <-> (minNoticeOf policy <= daysNotice request today
           \/ requestType = "Compassionate"%string)
          /\ leaveDays request <= maxConsecutiveOf policy
          /\ yearDaysUsed historicalLeave today + leaveDays request
             <= annualLimitOf policy).
Proof.
  cbv zeta. split; [|apply checkPolicyCompliance_compliant].
  unfold checkPolicyCompliance. cbn [violations].
  rewrite !length_app.
  repeat match goal with
         | |- context [if ?c then _ else _] => destruct c
         end; simpl; lia.
Qed.

Lemma policy_compliance_rules_witness :
  isCompliant (checkPolicyCompliance Examples.requestJune4 "Vacation" []
                 None (JS.newDate 2025 4 1)) = true.
Proof.
  apply (proj2 (policy_compliance_rules Examples.requestJune4 "Vacation" []
                  None (JS.newDate 2025 4 1))).
  vm_compute. split; [left; discriminate|]. split; discriminate.
Defined.


(** X6. The whole analysis, for a resident with a PGY level of 0 or more,
    approves a request exactly when it has no schedule conflict at all, it
    complies with the leave policy, and its coverage ratio [r] and number
    of weekend days [n] satisfy one of: [r >= 8/10] with [n <= 2];
    [5/10 <= r < 6/10]; [6/10 <= r < 8/10] with [n > 4].  A ratio between
    6/10 and 8/10 with up to 4 weekend days, and a ratio of 8/10 or more
    with more than 2 weekend days, are flagged instead. *)
Theorem analysis_approves_iff (db : Db) (sdb : ScheduleDb)
    (request : LeaveRequest) (fe : Fetched) :
  0 <= pgyLevel (fe_resident fe) ->
  let r := coverageRatio (analyzeCoverageImpact db request) in
  let n := Z.of_nat (length (weekendDates request)) in
  performComprehensiveAnalysis (gatherInputs db sdb request fe) = Approve
  <-> checkScheduleConflicts sdb request = []
      /\ ((minNoticeOf (fe_policy fe) <= daysNotice request (fe_today fe)
           \/ fe_requestType fe = "Compassionate"%string)
          /\ leaveDays request <= maxConsecutiveOf (fe_policy fe)
          /\ yearDaysUsed (fe_historicalLeave fe) (fe_today fe)
             + leaveDays request <= annualLimitOf (fe_policy fe))
      /\ (((8 # 10 <= r)%Q /\ n <= 2)
          \/ ((5 # 10 <= r)%Q /\ (r < 6 # 10)%Q)
          \/ ((6 # 10 <= r)%Q /\ (r < 8 # 10)%Q /\ 4 < n)).
Proof.
  intros Hp. cbv zeta.
  unfold performComprehensiveAnalysis, gatherInputs.
  cbn [ai_fairness ai_coverage ai_conflicts ai_policy].
  rewrite generateRecommendation_approve.
  rewrite checkPolicyCompliance_compliant.
  pose proof (calculateFairness_score request (fe_historicalLeave fe)
                (fe_resident fe) (fe_averageDaysOff fe) Hp) as [Hs _].
  destruct (coverage_risk_cases db request) as [HL HH]. cbv zeta in HL, HH.
  set (r := coverageRatio (analyzeCoverageImpact db request)) in *.
  set (n := Z.of_nat (length (weekendDates request))) in *.
  assert (Hcov : (riskLevel (analyzeCoverageImpact db request) <> Medium
                  /\ ~ (riskLevel (analyzeCoverageImpact db request) = High
                        /\ (r < 5 # 10)%Q))
                 <-> (((8 # 10 <= r)%Q /\ n <= 2)
                      \/ ((5 # 10 <= r)%Q /\ (r < 6 # 10)%Q)
                      \/ ((6 # 10 <= r)%Q /\ (r < 8 # 10)%Q /\ 4 < n))).
  { destruct (riskLevel (analyzeCoverageImpact db request)) eqn:Er.
    - destruct (proj1 HL eq_refl) as [H8 Hn].
      split; [intros _; left; split; assumption|].
      intros _. split; [discriminate|intros [H _]; discriminate H].
    - split; [intros [H _]; contradiction|].
      intros H. exfalso.
      destruct H as [H|[[H5 H6]|(H6 & H8 & Hn)]].
      + apply HL in H. discriminate H.
      + assert (E : Medium = High) by (apply HH; left; exact H6).
        discriminate E.
      + assert (E : Medium = High) by (apply HH; right; split; assumption).
        discriminate E.
    - destruct (proj1 HH eq_refl) as [H6|[H8 Hn]].
      + split.
        * intros [_ H]. right. left. split; [|exact H6].
          apply Qnot_lt_le. intros H5. apply H. split; [reflexivity|exact H5].
        * intros [[H8 _]|[[H5 _]|(H6' & _)]].
          -- exfalso. apply (Qlt_not_le _ _ H6).
             eapply Qle_trans; [|exact H8]. discriminate.
          -- split; [discriminate|intros [_ H]].
             exact (Qlt_not_le _ _ H H5).
          -- exfalso. exact (Qlt_not_le _ _ H6 H6').
      + destruct (Qlt_le_dec r (6 # 10)) as [H6|H6].
        * split.
          -- intros [_ H]. right. left. split; [|exact H6].
             apply Qnot_lt_le. intros H5. apply H.
             split; [reflexivity|exact H5].
          -- intros [[H8' _]|[[H5 _]|(H6' & _)]].
             ++ exfalso. exact (Qlt_not_le _ _ H8 H8').
             ++ split; [discriminate|intros [_ H]].
                exact (Qlt_not_le _ _ H H5).
             ++ exfalso. exact (Qlt_not_le _ _ H6 H6').
        * split.
          -- intros _. right. right. repeat split; assumption.
          -- intros _. split; [discriminate|intros [_ H]].
             apply (Qlt_not_le _ _ H). eapply Qle_trans; [|exact H6].
             discriminate. }
  split.
  - intros (Hc & Hpol & _ & Hm & Hh).
    split; [exact Hc|]. split; [exact Hpol|]. apply Hcov. split; assumption.
  - intros (Hc & Hpol & Hr). apply Hcov in Hr as [Hm Hh].
    split; [exact Hc|]. split; [exact Hpol|]. split; [lia|].
    split; assumption.
Qed.

Lemma analysis_approves_iff_witness :
  performComprehensiveAnalysis
    (gatherInputs Examples.db10 Examples.noSchedules Examples.requestJune4
       Examples.fetchedA) = Approve.
Proof.
  apply (analysis_approves_iff Examples.db10 Examples.noSchedules
           Examples.requestJune4 Examples.fetchedA).
  - vm_compute. discriminate.
  - split; [vm_compute; reflexivity|]. split.
    + vm_compute. split; [left; discriminate|]. split; discriminate.
    + left. vm_compute. split; discriminate.
Defined.


Lemma alternativesLoop_sound (db : Db) (request : LeaveRequest)
    (currentCoverage : CoverageAnalysis) (offsets : list Z) :
  Forall (fun i => 0 <= i < 28) offsets ->
  forall alternatives,
    (length alternatives < 3)%nat ->
    Forall (goodAlternative db request currentCoverage) alternatives ->
    (length (alternativesLoop db request currentCoverage offsets
               alternatives) <= 3)%nat
    /\ Forall (goodAlternative db request currentCoverage)
              (alternativesLoop db request currentCoverage offsets
                 alternatives).
Proof.
  induction 1 as [|i offsets Hi _ IH]; intros alternatives Hlen Hgood.
  - simpl. split; [lia|exact Hgood].
  - cbn [alternativesLoop]. cbv zeta.
    destruct ((lr_startDate request - 14 + i <=? lr_endDate request)
              && (lr_startDate request
                  <=? lr_startDate request - 14 + i + leaveDays request - 1))
      eqn:Eov.
    + apply IH; assumption.
    + set (cov := analyzeCoverageImpact db
                    (withDates request (lr_startDate request - 14 + i)
                       (lr_startDate request - 14 + i
                        + leaveDays request - 1))).
      destruct (bool_decide (riskLevel cov = Low)
                && JS.Qgtb (coverageRatio cov)
                           (coverageRatio currentCoverage)) eqn:Eb.
      * assert (Hnew : goodAlternative db request currentCoverage
                         (lr_startDate request - 14 + i)).
        { apply andb_true_iff in Eb as [Er Eq].
          apply bool_decide_eq_true in Er. apply Qgtb_lt in Eq.
          unfold goodAlternative. split; [lia|]. split.
          - apply andb_false_iff in Eov as [E|E];
              [left; apply Z.leb_gt in E; lia
              |right; apply Z.leb_gt in E; lia].
          - split; [exact Er|exact Eq]. }
        assert (Hgood' : Forall (goodAlternative db request currentCoverage)
                           (alternatives ++ [lr_startDate request - 14 + i])).
        { apply Forall_app. split; [exact Hgood|].
          constructor; [exact Hnew|constructor]. }
        destruct (Nat.leb_spec 3
                    (length (alternatives
                             ++ [lr_startDate request - 14 + i])))
          as [H3|H3].
        -- split; [|exact Hgood']. rewrite length_app in *. simpl in *. lia.
        -- apply IH; assumption.
      * destruct (Nat.leb_spec 3 (length alternatives)) as [H3|H3]; [lia|].
        apply IH; assumption.
Qed.

(** X7. [findAlternativeDates] offers at most three start dates; each lies
    between 14 days before and 13 days after the start of the request,
    gives a period of the same length that does not overlap the request,
    and has a coverage that is rated Low with a ratio above that of the
    request. *)
Theorem alternatives_are_good (db : Db) (request : LeaveRequest)
    (currentCoverage : CoverageAnalysis) :
  (length (findAlternativeDates db request currentCoverage) <= 3)%nat
  /\ Forall (goodAlternative db request currentCoverage)
            (findAlternativeDates db request currentCoverage).
Proof.
  unfold findAlternativeDates. apply alternativesLoop_sound.
  - apply Forall_seqZ. intros i Hi. lia.
  - simpl. lia.
  - constructor.
Qed.

(** *** Weekend days of a range *)

Lemma isSatSun_shift (q d : Z) : isSatSun (7 * q + d) = isSatSun d.
Proof.
  unfold isSatSun, JS.getDay.
  replace (7 * q + d + 4) with (d + 4 + q * 7) by lia.
  rewrite Z_mod_plus_full. reflexivity.
Qed.

Lemma filter_length_map {A B : Type} (f : A -> B) (P : B -> bool)
    (l : list A) :
  length (List.filter P (map f l))
  = length (List.filter (fun x => P (f x)) l).
Proof.
  induction l as [|x l IH]; [reflexivity|].
  simpl. destruct (P (f x)); simpl; rewrite IH; reflexivity.
Qed.

Lemma thirteen_days_three_weekend_days (s : Z) :
  (3 <= length (List.filter isSatSun (seqZ s 13)))%nat.
Proof.
  assert (Hs : s = 7 * (s / 7) + s mod 7) by (apply Z.div_mod; lia).
  rewrite Hs at 1. rewrite <- (fmap_add_seqZ (7 * (s / 7)) (s mod 7) 13).
  change (Z.add (7 * (s / 7)) <$> seqZ (s mod 7) 13)
    with (map (Z.add (7 * (s / 7))) (seqZ (s mod 7) 13)).
  rewrite filter_length_map.
  erewrite (List.filter_ext (fun x => isSatSun (7 * (s / 7) + x)) isSatSun)
    by (intros x; apply isSatSun_shift).
  assert (Hr : 0 <= s mod 7 < 7) by (apply Z.mod_pos_bound; lia).
  assert (Hcases : s mod 7 = 0 \/ s mod 7 = 1 \/ s mod 7 = 2 \/ s mod 7 = 3
                   \/ s mod 7 = 4 \/ s mod 7 = 5 \/ s mod 7 = 6) by lia.
  destruct Hcases as [E|[E|[E|[E|[E|[E|E]]]]]]; rewrite E;
    vm_compute; lia.
Qed.

Lemma long_range_weekend_days (s len : Z) :
  13 <= len ->
  (3 <= length (List.filter isSatSun (seqZ s len)))%nat.
Proof.
  intros Hlen. replace len with (13 + (len - 13)) by lia.
  rewrite seqZ_app by lia. rewrite List.filter_app, length_app.
  pose proof (thirteen_days_three_weekend_days s). lia.
Qed.

Lemma long_request_not_low (db : Db) (request : LeaveRequest) :
  13 <= leaveDays request ->
  riskLevel (analyzeCoverageImpact db request) <> Low.
Proof.
  intros Hlen Hlow.
  apply (proj1 (coverage_risk_cases db request)) in Hlow as [_ Hn].
  pose proof (long_range_weekend_days (lr_startDate request)
                (lr_endDate request - lr_startDate request + 1)) as H.
  unfold leaveDays in Hlen. specialize (H Hlen).
  unfold weekendDates in Hn. fold isSatSun in Hn.
  change (fun current : Z =>
            let dayOfWeek := JS.getDay current in
            (dayOfWeek =? 0) || (dayOfWeek =? 6)) with isSatSun in Hn.
  lia.
Qed.

Lemma alternativesLoop_long (db : Db) (request : LeaveRequest)
    (currentCoverage : CoverageAnalysis) (offsets : list Z) :
  13 <= leaveDays request ->
  alternativesLoop db request currentCoverage offsets [] = [].
Proof.
  intros Hlen. induction offsets as [|i offsets IH]; [reflexivity|].
  cbn [alternativesLoop]. cbv zeta.
  destruct (_ && _); [exact IH|].
  rewrite bool_decide_eq_false_2.
  - cbn [andb length Nat.leb]. exact IH.
  - apply long_request_not_low. unfold leaveDays, withDates in *.
    cbn [lr_startDate lr_endDate]. lia.
Qed.

(** X8. A range of 13 days or more always holds at least three
    weekend days: a request of that length is never rated Low and is never
    offered alternative dates. *)
Theorem long_request_no_alternatives (db : Db) (request : LeaveRequest)
    (currentCoverage : CoverageAnalysis) :
  13 <= leaveDays request ->
  (3 <= length (weekendDates request))%nat
  /\ riskLevel (analyzeCoverageImpact db request) <> Low
  /\ findAlternativeDates db request currentCoverage = [].
Proof.
  intros Hlen. split; [|split].
  - unfold weekendDates.
    apply (long_range_weekend_days (lr_startDate request)
             (lr_endDate request - lr_startDate request + 1)).
    exact Hlen.
  - apply long_request_not_low. exact Hlen.
  - apply alternativesLoop_long. exact Hlen.
Qed.

Lemma long_request_no_alternatives_witness :
  findAlternativeDates Examples.db10 Examples.request3weeks
    (analyzeCoverageImpact Examples.db10 Examples.request3weeks) = [].
Proof.
  apply (long_request_no_alternatives Examples.db10 Examples.request3weeks).
  vm_compute. discriminate.
Defined.


(** *** Conflicts with the stored schedules *)

Lemma includes_In (x : string) (l : list string) :
  JS.includes x l = true <-> In x l.
Proof.
  unfold JS.includes. rewrite existsb_exists. split.
  - intros [y [Hy E]]. apply String.eqb_eq in E. subst y. exact Hy.
  - intros H. exists x. split; [exact H|apply String.eqb_refl].
Qed.

Lemma uniqueFrom_In (x : string) (l seen : list string) :
  In x (uniqueFrom seen l) <-> In x l /\ ~ In x seen.
Proof.
  revert seen. induction l as [|y l IH]; intros seen; simpl.
  - tauto.
  - destruct (JS.includes y seen) eqn:E.
    + apply includes_In in E. rewrite IH. split.
      * intros [H1 H2]. tauto.
      * intros [[->|H1] H2]; [contradiction|tauto].
    + assert (Hy : ~ In y seen).
      { intros H. apply includes_In in H. congruence. }
      simpl. rewrite IH. simpl. split.
      * intros [->|[H1 H2]]; [tauto|]. split; [tauto|]. tauto.
      * intros [[->|H1] H2]; [tauto|].
        destruct (string_dec y x) as [->|Hne]; [tauto|]. right. tauto.
Qed.

Lemma unique_In (x : string) (l : list string) : In x (unique l) <-> In x l.
Proof. unfold unique. rewrite uniqueFrom_In. simpl. tauto. Qed.

Lemma requestDates_In (request : LeaveRequest) (d : JS.Date) :
  In d (requestDates request)
  <-> lr_startDate request <= d <= lr_endDate request.
Proof.
  unfold requestDates. rewrite <- list_elem_of_In, elem_of_seqZ. lia.
Qed.

Lemma sameDayAsSome_true (dates : list JS.Date) (d : JS.Date) :
  sameDayAsSome dates d = true <-> In d dates.
Proof.
  unfold sameDayAsSome. rewrite existsb_exists. split.
  - intros [y [Hy E]]. apply Z.eqb_eq in E. subst y. exact Hy.
  - intros H. exists d. split; [exact H|apply Z.eqb_refl].
Qed.

Lemma call_conflict_found (sdb : ScheduleDb) (request : LeaveRequest)
    (a : CallAssignment) (assignments : list CallAssignment) :
  monthlySchedules sdb !! monthIdOf (ca_date a) = Some assignments ->
  In a assignments ->
  ca_residentId a = lr_residentId request ->
  lr_startDate request <= ca_date a <= lr_endDate request ->
  In {| c_type := Call; c_date := ca_date a; c_severity := SevHigh |}
     (checkScheduleConflicts sdb request).
Proof.
  intros Hdoc Hin Hid Hrange. unfold checkScheduleConflicts.
  apply in_or_app. left. apply in_flat_map.
  exists (monthIdOf (ca_date a)). split.
  - apply unique_In. apply in_map. apply requestDates_In. exact Hrange.
  - rewrite Hdoc.
    apply (in_map (fun call => {| c_type := Call; c_date := ca_date call;
                                  c_severity := SevHigh |})).
    apply filter_In. split; [exact Hin|].
    rewrite Hid, String.eqb_refl. cbn [andb].
    apply sameDayAsSome_true. apply requestDates_In. exact Hrange.
Qed.

Lemma clinical_conflict_found (sdb : ScheduleDb) (request : LeaveRequest)
    (d : JS.Date) (day : WeekDay) (days : list WeekDay) :
  lr_startDate request <= d <= lr_endDate request ->
  weeklySchedules sdb !! weekIdOf d = Some days ->
  In day days ->
  lr_startDate request <= wd_date day <= lr_endDate request ->
  (In (lr_residentId request) (wd_or day) ->
   In {| c_type := OR; c_date := wd_date day; c_severity := SevHigh |}
      (checkScheduleConflicts sdb request))
  /\ (In (lr_residentId request) (wd_clinic day) ->
      In {| c_type := Clinic; c_date := wd_date day;
            c_severity := SevMedium |}
         (checkScheduleConflicts sdb request)).
Proof.
  intros Hd Hdoc Hin Hrange.
  assert (Hweek : In (weekIdOf d)
                     (unique (map weekIdOf (requestDates request)))).
  { apply unique_In. apply in_map. apply requestDates_In. exact Hd. }
  assert (Hsame : sameDayAsSome (requestDates request) (wd_date day) = true).
  { apply sameDayAsSome_true. apply requestDates_In. exact Hrange. }
  split; intros Hres; unfold checkScheduleConflicts;
    apply in_or_app; right; apply in_flat_map;
    exists (weekIdOf d); (split; [exact Hweek|]);
    rewrite Hdoc; apply in_flat_map; exists day; (split; [exact Hin|]);
    rewrite Hsame; apply in_or_app.
  - left.
    apply (in_map_iff (fun _ : string =>
                         {| c_type := OR; c_date := wd_date day;
                            c_severity := SevHigh |})).
    exists (lr_residentId request). split; [reflexivity|].
    apply filter_In. split; [exact Hres|apply String.eqb_refl].
  - right.
    apply (in_map_iff (fun _ : string =>
                         {| c_type := Clinic; c_date := wd_date day;
                            c_severity := SevMedium |})).
    exists (lr_residentId request). split; [reflexivity|].
    apply filter_In. split; [exact Hres|apply String.eqb_refl].
Qed.

(** X9. An assignment of the requester stored in the monthly schedule of
    its month and dated within the request (a post-call marker as much as
    a call) makes the analysis deny the request, whatever the coverage,
    the fairness and the policy check. *)
Theorem stored_assignment_denies (db : Db) (sdb : ScheduleDb)
    (request : LeaveRequest) (fe : Fetched) (a : CallAssignment)
    (assignments : list CallAssignment) :
  monthlySchedules sdb !! monthIdOf (ca_date a) = Some assignments ->
  In a assignments ->
  ca_residentId a = lr_residentId request ->
  lr_startDate request <= ca_date a <= lr_endDate request ->
  performComprehensiveAnalysis (gatherInputs db sdb request fe) = Deny.
Proof.
  intros Hdoc Hin Hid Hrange.
  unfold performComprehensiveAnalysis, gatherInputs.
  cbn [ai_fairness ai_coverage ai_conflicts ai_policy].
  apply generateRecommendation_deny. left.
  eexists. split; [eapply call_conflict_found; eassumption|reflexivity].
Qed.

Lemma stored_assignment_denies_witness :
  performComprehensiveAnalysis
    (gatherInputs Examples.db10 Examples.storedJune Examples.requestR1
       Examples.fetchedA) = Deny.
Proof.
  apply (stored_assignment_denies Examples.db10 Examples.storedJune
           Examples.requestR1 Examples.fetchedA
           {| ca_residentId := "r1"; ca_date := JS.newDate 2025 5 2;
              ca_type := PostCall; ca_points := 0; ca_isHoliday := false;
              ca_team := None; ca_status := StatusPostCall |}
           (MonthlyCallScheduler.generateSchedule Examples.soloJune Normal)).
  - vm_compute. reflexivity.
  - vm_compute. right. left. reflexivity.
  - reflexivity.
  - vm_compute. split; discriminate.
Defined.

(** X10. The analysis reads the weekly schedules stored under the ids it
    computes for the dates of the request: for a date [d], the calendar
    year of [d], a dash and the ISO week number of [d], unpadded ("2025-23"
    for June 4th 2025, "2025-1" for December 30th 2025).  If the document
    stored under the id of some date of the request has a day dated within
    the request with the requester in the OR, the analysis denies the
    request; with the requester in clinic, it does not approve it. *)
Theorem clinical_assignment_blocks (db : Db) (sdb : ScheduleDb)
    (request : LeaveRequest) (fe : Fetched) (d : JS.Date) (day : WeekDay)
    (days : list WeekDay) :
  lr_startDate request <= d <= lr_endDate request ->
  weeklySchedules sdb !! weekIdOf d = Some days ->
  In day days ->
  lr_startDate request <= wd_date day <= lr_endDate request ->
  (In (lr_residentId request) (wd_or day) ->
   performComprehensiveAnalysis (gatherInputs db sdb request fe) = Deny)
  /\ (In (lr_residentId request) (wd_clinic day) ->
      performComprehensiveAnalysis (gatherInputs db sdb request fe)
      <> Approve).
Proof.
  intros Hd Hdoc Hin Hrange.
  destruct (clinical_conflict_found sdb request d day days Hd Hdoc Hin Hrange)
    as [Hor Hclinic].
  unfold performComprehensiveAnalysis, gatherInputs.
  cbn [ai_fairness ai_coverage ai_conflicts ai_policy].
  split; intros Hres.
  - apply generateRecommendation_deny. left.
    eexists. split; [apply Hor; exact Hres|reflexivity].
  - intros Happ. apply generateRecommendation_approve in Happ as [Hnil _].
    specialize (Hclinic Hres). rewrite Hnil in Hclinic. destruct Hclinic.
Qed.

Lemma clinical_assignment_blocks_witness :
  weekIdOf (JS.newDate 2025 5 4) = "2025-23"%string
  /\ performComprehensiveAnalysis
       (gatherInputs Examples.db10 Examples.storedJune Examples.requestJune4
          Examples.fetchedA) = Deny
  /\ weekIdOf (JS.newDate 2025 11 30) = "2025-1"%string
  /\ performComprehensiveAnalysis
       (gatherInputs Examples.db10 Examples.storedCalendarYearWeek
          Examples.requestDec30 Examples.fetchedA) = Deny.
Proof.
  split; [vm_compute; reflexivity|]. split; [|split].
  - apply (clinical_assignment_blocks Examples.db10 Examples.storedJune
             Examples.requestJune4 Examples.fetchedA (JS.newDate 2025 5 4)
             Examples.june4Clinical [Examples.june4Clinical]).
    + vm_compute. split; discriminate.
    + vm_compute. reflexivity.
    + left. reflexivity.
    + vm_compute. split; discriminate.
    + left. reflexivity.
  - vm_compute. reflexivity.
  - apply (clinical_assignment_blocks Examples.db10
             Examples.storedCalendarYearWeek Examples.requestDec30
             Examples.fetchedA (JS.newDate 2025 11 30)
             Examples.dec30Clinical [Examples.dec30Clinical]).
    + vm_compute. split; discriminate.
    + vm_compute. reflexivity.
    + left. reflexivity.
    + vm_compute. split; discriminate.
    + left. reflexivity.
Defined.

(** The id is not the ISO one at the turn of the year: the week of
    December 30th 2025, stored under the ISO year and week, is not read,
    and the OR day of the requester in it raises no conflict. *)
Lemma week_document_under_iso_year_is_not_read :
  getWeekNumber (JS.newDate 2025 11 30) = 1
  /\ JS.getFullYear (JS.newDate 2025 11 30) = 2025
  /\ checkScheduleConflicts Examples.storedIsoWeek Examples.requestDec30 = []
  /\ checkScheduleConflicts Examples.storedCalendarYearWeek
       Examples.requestDec30
     = [{| c_type := OR; c_date := JS.newDate 2025 11 30;
           c_severity := SevHigh |}].
Proof.
  split; [vm_compute; reflexivity|].
  split; [vm_compute; reflexivity|].
  split; vm_compute; reflexivity.
Qed.

End AnalyzerMore.

(** ** Guarantees of the monthly call scheduler *)

(** *** The states of a run *)


Section Reach.
Import MonthlyCallScheduler.
Import Spec.
Variable this : Scheduler.
Variable s : StaffingLevel.

Lemma fillDay_reached (day : Z) (n : nat) :
  1 <= day <= daysInMonth this ->
  dr_callType (dayRequirement this day) <> NoCall ->
  forall selected st,
    Reached this s st ->
    Reached this s (fillDay this n s (dayRequirement this day) selected st).
Proof.
  intros Hd Hc. induction n as [|n IH]; intros selected [cs out] H;
    [exact H|].
  cbn [fillDay].
  destruct (selectBestResident this cs (dr_date (dayRequirement this day))
              (dr_callType (dayRequirement this day)) s (map id selected))
    as [best|] eqn:Hsel.
  - apply IH. exact (Reached_call this s cs out day _ best H Hd Hc Hsel).
  - apply IH. exact H.
Qed.

Lemma sortedDayRequirements_In (d : DayRequirements) :
  In d (sortedDayRequirements this) ->
  exists day, 1 <= day <= daysInMonth this /\ d = dayRequirement this day.
Proof.
  unfold sortedDayRequirements, calculateDayRequirements. cbv zeta.
  rewrite sortDesc_In, in_map_iff. intros [day [<- Hin]].
  exists day. split; [|reflexivity].
  apply list_elem_of_In, elem_of_seqZ in Hin. unfold daysInMonth. lia.
Qed.

Lemma runSchedule_reached :
  Reached this s (runSchedule this s (initializeCallStats this)).
Proof.
  unfold runSchedule.
  assert (H : forall days st,
             (forall d, In d days -> In d (sortedDayRequirements this)) ->
             Reached this s st ->
             Reached this s (fold_left (processDay this s) days st)).
  { induction days as [|d days IH]; intros st Hin Hst; [exact Hst|].
    cbn [fold_left]. apply IH; [intros d' Hd'; apply Hin; right; exact Hd'|].
    unfold processDay.
    destruct (bool_decide_reflect (dr_callType d = NoCall)) as [E|E];
      [exact Hst|].
    destruct (sortedDayRequirements_In d) as [day [Hday ->]];
      [apply Hin; left; reflexivity|].
    apply fillDay_reached; assumption. }
  apply H; [tauto|constructor].
Qed.

(** *** What a day requires *)

Lemma dayRequirement_cases (day : Z) :
  let dr := dayRequirement this day in
  let d := JS.newDate (year this) (month this) day in
  dr_date dr = d
  /\ dr_isHoliday dr = isHoliday this d
  /\ dr_isWeekend dr = isWeekend this d
  /\ ((isHoliday this d = true /\ dr_callType dr = Holiday)
      \/ (isHoliday this d = false /\ isWeekend this d = true
          /\ dr_callType dr = Weekend)
      \/ (isHoliday this d = false /\ isWeekend this d = false
          /\ 1 <= JS.getDay d <= 4 /\ dr_callType dr = Night)
      \/ (isHoliday this d = false /\ isWeekend this d = false
          /\ ~ (1 <= JS.getDay d <= 4) /\ dr_callType dr = NoCall)).
Proof.
  cbv zeta. unfold dayRequirement.
  set (d := JS.newDate (year this) (month this) day).
  destruct (isHoliday this d) eqn:Eh; cbn [dr_date dr_isHoliday dr_isWeekend
                                            dr_callType];
    [repeat split; left; split; reflexivity|].
  destruct (isWeekend this d) eqn:Ew; cbn [dr_date dr_isHoliday dr_isWeekend
                                           dr_callType];
    [repeat split; right; left; repeat split|].
  destruct (Z.leb_spec 1 (JS.getDay d)) as [H1|H1];
    destruct (Z.leb_spec (JS.getDay d) 4) as [H4|H4];
    cbn [andb dr_date dr_isHoliday dr_isWeekend dr_callType];
    repeat split;
    first [ right; right; left; repeat split; assumption
          | right; right; right; repeat split; lia ].
Qed.

Lemma dayRequirement_not_postCall (day : Z) :
  dr_callType (dayRequirement this day) <> PostCall.
Proof.
  destruct (dayRequirement_cases day) as (_ & _ & _ & H).
  intros E. rewrite E in H.
  destruct H as [[_ H]|[(_ & _ & H)|[(_ & _ & _ & H)|(_ & _ & _ & H)]]];
    discriminate H.
Qed.

(** *** Eligibility, spelled out *)

Lemma isEligibleForCall_inv (callStats : gmap string CallStats)
    (r : Resident) (date : JS.Date) :
  isEligibleForCall this callStats r date s = true ->
  exists block rotation,
    getCurrentBlock this date = Some block
    /\ findRotation block (id r) = Some rotation
    /\ rotationType rotation = CORE_NSX
    /\ isOnLeave this (id r) date = false
    /\ isPostCall callStats (id r) date = false
    /\ totalCalls (callStats !!! id r)
       < getMaxCalls this r (getWorkingDaysForBlock this (Some block)) s
    /\ (isWeekend this date = true ->
        weekendCalls (callStats !!! id r) < maxWeekends this)
    /\ checkPAROCompliance callStats (id r) date = true.
Proof.
  unfold isEligibleForCall.
  destruct (getCurrentBlock this date) as [block|]; [|discriminate].
  destruct (findRotation block (id r)) as [rotation|] eqn:Erot;
    [|discriminate].
  destruct (bool_decide_reflect (rotationType rotation = CORE_NSX))
    as [Ecore|]; [|discriminate].
  cbn [negb].
  destruct (isOnLeave this (id r) date); [discriminate|].
  destruct (isPostCall callStats (id r) date); [discriminate|].
  cbv zeta.
  destruct (Z.leb_spec
              (getMaxCalls this r (getWorkingDaysForBlock this (Some block)) s)
              (totalCalls (callStats !!! id r))) as [Hmax|Hmax];
    [discriminate|].
  fold (maxWeekends this).
  destruct (isWeekend this date) eqn:Ew; cbn [andb].
  - destruct (Z.leb_spec (maxWeekends this) (weekendCalls (callStats !!! id r)))
      as [Hw|Hw]; [discriminate|].
    destruct (checkPAROCompliance callStats (id r) date); [|discriminate].
    intros _. exists block, rotation.
    split; [reflexivity|]. split; [exact Erot|]. split; [exact Ecore|].
    split; [reflexivity|]. split; [reflexivity|]. split; [exact Hmax|].
    split; [intros _; exact Hw|reflexivity].
  - destruct (checkPAROCompliance callStats (id r) date); [|discriminate].
    intros _. exists block, rotation.
    split; [reflexivity|]. split; [exact Erot|]. split; [exact Ecore|].
    split; [reflexivity|]. split; [reflexivity|]. split; [exact Hmax|].
    split; [discriminate|reflexivity].
Qed.


(** *** The statistics along a run *)

Lemma initializeCallStats_nonneg (k : string) :
  0 <= totalCalls (initializeCallStats this !!! k)
  /\ 0 <= weekendCalls (initializeCallStats this !!! k).
Proof.
  unfold initializeCallStats.
  assert (H : forall (l : list Resident) (m : gmap string CallStats),
             (forall st, m !! k = Some st ->
                         0 <= totalCalls st /\ 0 <= weekendCalls st) ->
             forall st,
               fold_left
                 (fun cs resident =>
                    <[id resident := initialStats this resident]> cs)
                 l m !! k = Some st ->
               0 <= totalCalls st /\ 0 <= weekendCalls st).
  { induction l as [|x l IH]; intros m Hm st; cbn [fold_left];
      [apply Hm|].
    apply IH. intros st'.
    destruct (decide (id x = k)) as [E|E].
    - rewrite E, lookup_insert_eq. intros [= <-].
      unfold initialStats. cbn [totalCalls weekendCalls]. lia.
    - rewrite lookup_insert_ne by exact E. apply Hm. }
  rewrite lookup_total_alt.
  destruct (fold_left _ (residents this) ∅ !! k) as [st|] eqn:E.
  - cbn [default]. eapply (H _ ∅); [|exact E].
    intros st'. rewrite lookup_empty. discriminate.
  - cbn. lia.
Qed.

Lemma reached_covers (st : RunState) :
  Reached this s st ->
  forall r, In r (residents this) -> is_Some (fst st !! id r).
Proof.
  induction 1 as [|cs out day excl best _ IH _ _ _]; intros r Hr;
    cbn [fst] in *.
  - apply initializeCallStats_covers. exact Hr.
  - apply updateResidentStats_covers. apply IH. exact Hr.
Qed.

Lemma callsOf_step (k : string) (out : list CallAssignment)
    (best : Resident) (day : Z) :
  Spec.callsOf k
    (out ++ [callFor this best (dayRequirement this day)]
         ++ createPostCallAssignments this
              (callFor this best (dayRequirement this day))
              (dr_callType (dayRequirement this day)))
  = Spec.callsOf k out
    ++ (if String.eqb (id best) k
        then [dr_date (dayRequirement this day)] else []).
Proof.
  rewrite !callsOf_app, callsOf_postCall, app_nil_r. f_equal.
  unfold Spec.callsOf, callFor.
  cbn [List.filter createCallAssignment ca_residentId ca_type].
  rewrite (bool_decide_eq_false_2 _ (dayRequirement_not_postCall day)).
  cbn [negb]. rewrite andb_true_r.
  destruct (String.eqb (id best) k); reflexivity.
Qed.

Lemma lastOr_snoc (o : option JS.Date) (l : list JS.Date) (d : JS.Date) :
  lastOr o (l ++ [d]) = Some d.
Proof.
  unfold lastOr. rewrite last_last.
  destruct l; reflexivity.
Qed.

Lemma reached_stats (st : RunState) :
  Reached this s st ->
  forall k,
    totalCalls (fst st !!! k)
    = totalCalls (initializeCallStats this !!! k)
      + Z.of_nat (length (Spec.callsOf k (snd st)))
    /\ weekendCalls (fst st !!! k)
       = weekendCalls (initializeCallStats this !!! k)
         + Z.of_nat (length (weekendCallsOf this k (snd st)))
    /\ lastCallDate (fst st !!! k)
       = lastOr (lastCallDate (initializeCallStats this !!! k))
                (Spec.callsOf k (snd st)).
Proof.
  induction 1 as [|cs out day excl best Hr IH Hday Hct Hsel]; intros k;
    cbn [fst snd] in *.
  - unfold weekendCallsOf. cbn. repeat split; lia.
  - destruct (IH k) as (Ht & Hw & Hl).
    apply selectBestResident_eligible in Hsel as (Hin & _ & _).
    unfold weekendCallsOf in *. rewrite callsOf_step.
    destruct (String.eqb_spec (id best) k) as [<-|Hne].
    + rewrite lookup_total_updateResidentStats_eq
        by (apply (reached_covers _ Hr); exact Hin).
      cbn [totalCalls weekendCalls lastCallDate updateStats].
      rewrite List.filter_app, !length_app, lastOr_snoc.
      destruct (dayRequirement_cases day) as (Hd & _ & Hwe & _).
      cbv zeta in Hd, Hwe. rewrite Hwe, Hd.
      cbn [List.filter length].
      destruct (isWeekend this (JS.newDate (year this) (month this) day));
        cbn [length]; repeat split; lia.
    + rewrite lookup_total_updateResidentStats_ne by exact Hne.
      rewrite !app_nil_r. repeat split; assumption.
Qed.

Lemma spacedFrom_snoc (o : option JS.Date) (l : list JS.Date) (d : JS.Date) :
  spacedFrom o l ->
  match lastOr o l with
  | Some d0 => 2 <= Z.abs (d - d0)
  | None => True
  end ->
  spacedFrom o (l ++ [d]).
Proof.
  revert o. induction l as [|x l IH]; intros o Hs Hd.
  - cbn in *. split; [exact Hd|exact I].
  - cbn [app spacedFrom] in *. destruct Hs as [Hx Hs].
    split; [exact Hx|]. apply IH; [exact Hs|].
    unfold lastOr in *. destruct l as [|y l]; [exact Hd|exact Hd].
Qed.

Lemma spacedFrom_pairs (o : option JS.Date) (l : list JS.Date) :
  spacedFrom o l ->
  (forall l1 d1 d2 l2, l = l1 ++ d1 :: d2 :: l2 -> 2 <= Z.abs (d2 - d1))
  /\ (forall d0 d l', o = Some d0 -> l = d :: l' -> 2 <= Z.abs (d - d0)).
Proof.
  revert o. induction l as [|x l IH]; intros o Hs.
  - split; [intros [|? ?] ? ? ? E; discriminate E|intros ? ? ? _ E;
                                                    discriminate E].
  - cbn [spacedFrom] in Hs. destruct Hs as [Hx Hs].
    destruct (IH _ Hs) as [Hp Hh]. split.
    + intros [|y l1] d1 d2 l2 E; cbn [app] in E.
      * injection E as -> ->. eapply Hh; reflexivity.
      * injection E as -> ->. eapply Hp. reflexivity.
    + intros d0 d l' -> [= -> ->]. exact Hx.
Qed.

Lemma isPostCall_false (callStats : gmap string CallStats)
    (k : string) (date : JS.Date) :
  isPostCall callStats k date = false ->
  match lastCallDate (callStats !!! k) with
  | Some d0 => 2 <= Z.abs (date - d0)
  | None => True
  end.
Proof.
  unfold isPostCall, getDaysBetween.
  destruct (lastCallDate (callStats !!! k)) as [d0|]; [|tauto].
  intros H. apply Z.ltb_ge in H. exact H.
Qed.

Lemma reached_spaced (st : RunState) :
  Reached this s st ->
  forall k,
    spacedFrom (lastCallDate (initializeCallStats this !!! k))
               (Spec.callsOf k (snd st)).
Proof.
  induction 1 as [|cs out day excl best Hr IH Hday Hct Hsel]; intros k;
    cbn [fst snd] in *; [exact I|].
  rewrite callsOf_step.
  apply selectBestResident_eligible in Hsel as (Hin & _ & Hel).
  destruct (String.eqb_spec (id best) k) as [<-|Hne];
    [|rewrite app_nil_r; apply IH].
  apply spacedFrom_snoc; [apply IH|].
  destruct (reached_stats _ Hr (id best)) as (_ & _ & Hl).
  cbn [fst snd] in Hl. rewrite <- Hl.
  apply isEligibleForCall_inv in Hel
      as (block & rotation & _ & _ & _ & _ & Hpc & _).
  apply isPostCall_false. exact Hpc.
Qed.

(** *** The assignments of a run *)

Lemma reached_calls (st : RunState) :
  Reached this s st ->
  forall a, In a (snd st) -> ca_type a <> PostCall ->
  exists callStats out day excludeIds best,
    Reached this s (callStats, out)
    /\ 1 <= day <= daysInMonth this
    /\ dr_callType (dayRequirement this day) <> NoCall
    /\ selectBestResident this callStats
         (dr_date (dayRequirement this day))
         (dr_callType (dayRequirement this day)) s excludeIds = Some best
    /\ a = callFor this best (dayRequirement this day).
Proof.
  induction 1 as [|cs out day excl best Hr IH Hday Hct Hsel]; intros a Hin Ha;
    cbn [fst snd] in *; [destruct Hin|].
  apply in_app_or in Hin as [Hin|Hin]; [apply IH; assumption|].
  apply in_app_or in Hin as [[<-|[]]|Hin].
  - exists cs, out, day, excl, best. repeat split; try assumption; lia.
  - apply createPostCallAssignments_type in Hin. contradiction.
Qed.

End Reach.

Section MonthlyGuarantees.
Import MonthlyCallScheduler.
Import Spec.
Variable this : Scheduler.
Variable s : StaffingLevel.

Lemma generateSchedule_calls (a : CallAssignment) :
  In a (generateSchedule this s) -> Spec.isCall a ->
  exists callStats out day excludeIds best,
    Reached this s (callStats, out)
    /\ 1 <= day <= daysInMonth this
    /\ dr_callType (dayRequirement this day) <> NoCall
    /\ selectBestResident this callStats
         (dr_date (dayRequirement this day))
         (dr_callType (dayRequirement this day)) s excludeIds = Some best
    /\ a = callFor this best (dayRequirement this day).
Proof.
  unfold generateSchedule. apply reached_calls. apply runSchedule_reached.
Qed.

Lemma reached_nonneg (st : RunState) (k : string) :
  Reached this s st -> 0 <= totalCalls (fst st !!! k).
Proof.
  intros H. destruct (reached_stats this s st H k) as (Ht & _).
  pose proof (initializeCallStats_nonneg this k). lia.
Qed.

Lemma generateSchedule_core (a : CallAssignment) :
  In a (generateSchedule this s) -> Spec.isCall a ->
  exists r block rotation,
    In r (residents this) /\ id r = ca_residentId a
    /\ isChief r && callExempt r = false
    /\ getCurrentBlock this (ca_date a) = Some block
    /\ findRotation block (id r) = Some rotation
    /\ rotationType rotation = CORE_NSX
    /\ ca_team a = team rotation.
Proof.
  intros Hin Ha.
  destruct (generateSchedule_calls a Hin Ha)
    as (cs & out & day & excl & best & Hr & _ & _ & Hsel & ->).
  apply selectBestResident_eligible in Hsel as (Hbest & _ & Hel).
  apply (isEligibleForCall_inv this s) in Hel
      as (block & rotation & Hb & Hrot & Hcore & _ & _ & Hmax & _).
  exists best, block, rotation.
  unfold callFor, createCallAssignment, getResidentTeam, rotationTeam.
  cbn [ca_residentId ca_date ca_team]. rewrite Hb, Hrot.
  split; [exact Hbest|]. split; [reflexivity|].
  split; [|split; [reflexivity|split; [reflexivity|split;
                                         [exact Hcore|reflexivity]]]].
  destruct (isChief best && callExempt best) eqn:E; [|reflexivity].
  exfalso. unfold getMaxCalls in Hmax. rewrite E in Hmax.
  pose proof (reached_nonneg _ (id best) Hr) as H0. cbn [fst] in H0. lia.
Qed.

(** X11. Every call of a generated schedule goes to a resident of
    the roster who is not a call-exempt chief and who, in the block of the
    academic year that holds the date, is on the core neurosurgery
    rotation; the team of the assignment is the team of that rotation. *)
Theorem calls_go_to_core_residents (a : CallAssignment) :
  In a (generateSchedule this s) -> Spec.isCall a ->
  exists r block rotation,
    In r (residents this) /\ id r = ca_residentId a
    /\ isChief r && callExempt r = false
    /\ getCurrentBlock this (ca_date a) = Some block
    /\ findRotation block (id r) = Some rotation
    /\ rotationType rotation = CORE_NSX
    /\ ca_team a = team rotation.
Proof. apply generateSchedule_core. Qed.


(** X12. A call is dated on a day of the scheduled month, and
    its type and points follow from the day: a holiday gives a Holiday
    call of 3 points; a day of the weekend definition that is no holiday
    gives a Weekend call of 2 points; any other call is a Night call of 1
    point on a Monday to Thursday.  A Friday, Saturday or Sunday that is
    neither a holiday nor in the weekend definition gets no call. *)
Theorem call_type_follows_the_day (a : CallAssignment) :
  In a (generateSchedule this s) -> Spec.isCall a ->
  let d := ca_date a in
  (exists day, 1 <= day <= daysInMonth this
               /\ d = JS.newDate (year this) (month this) day)
  /\ ca_isHoliday a = isHoliday this d
  /\ ca_status a = Scheduled
  /\ (ca_type a, ca_points a)
     = (if isHoliday this d then (Holiday, 3)
        else if isWeekend this d then (Weekend, 2)
        else (Night, 1))
  /\ (isHoliday this d = false -> isWeekend this d = false ->
      1 <= JS.getDay d <= 4).
Proof.
  intros Hin Ha. cbv zeta.
  destruct (generateSchedule_calls a Hin Ha)
    as (cs & out & day & excl & best & _ & Hday & Hct & _ & ->).
  destruct (dayRequirement_cases this day) as (Hd & Hh & _ & Hcases).
  cbv zeta in Hd, Hh, Hcases.
  unfold callFor, createCallAssignment.
  cbn [ca_date ca_isHoliday ca_status ca_type ca_points].
  rewrite Hd, Hh.
  split; [exists day; split; [exact Hday|reflexivity]|].
  split; [reflexivity|]. split; [reflexivity|].
  destruct Hcases as [[E1 E]|[(E1 & E2 & E)|[(E1 & E2 & E3 & E)
                                             |(_ & _ & _ & E)]]];
    [| | |contradiction]; rewrite E; cbn [calculateCallPoints];
    rewrite E1; try rewrite E2.
  - split; [reflexivity|discriminate].
  - split; [reflexivity|discriminate].
  - split; [reflexivity|intros _ _; exact E3].
Qed.


Lemma createPostCallAssignments_spec (a : CallAssignment) (day : Z) :
  dr_callType (dayRequirement this day) <> NoCall ->
  createPostCallAssignments this a (dr_callType (dayRequirement this day))
  = if JS.getMonth (JS.addDays (ca_date a) 1) =? month this
    then [postCallOf a] else [].
Proof.
  intros Hct. unfold createPostCallAssignments.
  destruct (dayRequirement_cases this day) as (_ & _ & _ & H).
  cbv zeta in H.
  destruct H as [[_ E]|[(_ & _ & E)|[(_ & _ & _ & E)|(_ & _ & _ & E)]]];
    [| | |contradiction]; rewrite E; cbn [requiresPostCall negb];
    destruct (JS.getMonth (JS.addDays (ca_date a) 1) =? month this);
    reflexivity.
Qed.

Lemma reached_markers (st : RunState) :
  Reached this s st ->
  (forall m, In m (snd st) -> ca_type m = PostCall ->
             JS.getMonth (ca_date m) = month this
             /\ exists a, In a (snd st) /\ Spec.isCall a /\ m = postCallOf a)
  /\ (forall a, In a (snd st) -> Spec.isCall a ->
                JS.getMonth (JS.addDays (ca_date a) 1) = month this ->
                In (postCallOf a) (snd st)).
Proof.
  induction 1 as [|cs out day excl best Hr IH Hday Hct Hsel];
    cbn [fst snd] in *; [split; intros ? []|].
  destruct IH as [IH1 IH2].
  rewrite (createPostCallAssignments_spec _ day Hct).
  set (a0 := callFor this best (dayRequirement this day)).
  assert (Ha0 : Spec.isCall a0).
  { unfold a0, callFor, createCallAssignment, Spec.isCall. cbn [ca_type].
    apply dayRequirement_not_postCall. }
  split.
  - intros m Hin Hm. apply in_app_or in Hin as [Hin|Hin].
    + destruct (IH1 m Hin Hm) as [Hmonth (a & Hain & Ha & ->)].
      split; [exact Hmonth|]. exists a.
      split; [apply in_or_app; left; exact Hain|]. split; [exact Ha|].
      reflexivity.
    + cbn [app] in Hin. destruct Hin as [<-|Hin]; [contradiction|].
      destruct (Z.eqb_spec (JS.getMonth (JS.addDays (ca_date a0) 1))
                           (month this)) as [E|E]; [|destruct Hin].
      destruct Hin as [<-|[]]. split; [exact E|]. exists a0.
      split; [apply in_or_app; right; left; reflexivity|].
      split; [exact Ha0|reflexivity].
  - intros a Hin Ha Hmonth. apply in_app_or in Hin as [Hin|Hin].
    + apply in_or_app. left. apply IH2; assumption.
    + cbn [app] in Hin. apply in_or_app. right. right.
      destruct Hin as [<-|Hin].
      * rewrite (proj2 (Z.eqb_eq _ _) Hmonth). left. reflexivity.
      * destruct (JS.getMonth (JS.addDays (ca_date a0) 1) =? month this);
          [|destruct Hin].
        destruct Hin as [<-|[]]. exfalso. apply Ha. reflexivity.
Qed.

(** X13. The post-call markers of a generated schedule are the
    markers of its calls: a marker lies in the scheduled month and repeats
    the resident, the team and the holiday flag of a call dated the day
    before, with 0 points; and every call whose next day lies in the
    scheduled month has its marker in the schedule.  A call on the last
    day of the month has none. *)
Theorem postcall_markers_follow_calls :
  (forall m, In m (generateSchedule this s) -> ca_type m = PostCall ->
             JS.getMonth (ca_date m) = month this
             /\ exists a, In a (generateSchedule this s)
                          /\ Spec.isCall a /\ m = postCallOf a)
  /\ (forall a, In a (generateSchedule this s) -> Spec.isCall a ->
                JS.getMonth (JS.addDays (ca_date a) 1) = month this ->
                In (postCallOf a) (generateSchedule this s)).
Proof.
  unfold generateSchedule. apply reached_markers. apply runSchedule_reached.
Qed.


(** X14. In the order in which a run assigns them, two calls of
    a resident that follow each other are dated two days or more apart,
    and so are the first call of the run and the latest existing call of
    the resident: the post-call rule compares a day with the last call
    assigned only. *)
Theorem successive_calls_two_days_apart (k : string) :
  let dates := Spec.callsOf k (generateSchedule this s) in
  (forall l1 d1 d2 l2,
      dates = l1 ++ d1 :: d2 :: l2 -> 2 <= Z.abs (d2 - d1))
  /\ (forall d0 d l,
         lastCallDate (initializeCallStats this !!! k) = Some d0 ->
         dates = d :: l -> 2 <= Z.abs (d - d0)).
Proof.
  cbv zeta. apply spacedFrom_pairs. unfold generateSchedule.
  apply (reached_spaced this s). apply runSchedule_reached.
Qed.


Lemma getMaxCalls_le (B : Z) (r : Resident) (workingDays : Z) :
  8 <= B ->
  Forall (fun rule => calls rule <= B) (paroHardCaps (config this)) ->
  getMaxCalls this r workingDays s <= B.
Proof.
  intros HB Hcaps. unfold getMaxCalls.
  destruct (isChief r && callExempt r); [lia|]. cbv zeta.
  assert (Hcap : match List.find
                         (fun rule => (minDays rule <=? workingDays)
                                      && (workingDays <=? maxDays rule))
                         (paroHardCaps (config this)) with
                 | Some rule => calls rule
                 | None => 8
                 end <= B).
  { destruct (List.find _ (paroHardCaps (config this))) as [rule|] eqn:E;
      [|exact HB].
    apply find_some in E as [Hin _].
    rewrite List.Forall_forall in Hcaps. apply Hcaps. exact Hin. }
  destruct (callRatios (config this) !! pgyLevel r) as [ratio|];
    [|exact Hcap].
  destruct (ratio =? 0); [exact Hcap|].
  destruct s; [|exact Hcap]. lia.
Qed.

Lemma reached_within_cap (B : Z) (st : RunState) :
  8 <= B ->
  Forall (fun rule => calls rule <= B) (paroHardCaps (config this)) ->
  Reached this s st ->
  forall k, Spec.callsOf k (snd st) <> [] -> totalCalls (fst st !!! k) <= B.
Proof.
  intros HB Hcaps.
  induction 1 as [|cs out day excl best Hr IH Hday Hct Hsel]; intros k;
    cbn [fst snd] in *; [intros H; contradiction|].
  rewrite callsOf_step.
  apply selectBestResident_eligible in Hsel as (Hin & _ & Hel).
  destruct (String.eqb_spec (id best) k) as [<-|Hne].
  - intros _.
    rewrite lookup_total_updateResidentStats_eq
      by (apply (reached_covers _ _ _ Hr); exact Hin).
    cbn [totalCalls updateStats].
    apply (isEligibleForCall_inv this s) in Hel
        as (block & rotation & _ & _ & _ & _ & _ & Hmax & _).
    pose proof (getMaxCalls_le B best
                  (getWorkingDaysForBlock this (Some block)) HB Hcaps).
    lia.
  - rewrite app_nil_r, lookup_total_updateResidentStats_ne by exact Hne.
    apply IH.
Qed.

Lemma reached_cap_total (B : Z) (st : RunState) (k : string) :
  8 <= B ->
  Forall (fun rule => calls rule <= B) (paroHardCaps (config this)) ->
  Reached this s st ->
  Spec.callsOf k (snd st) <> [] ->
  totalCalls (initializeCallStats this !!! k)
  + Z.of_nat (length (Spec.callsOf k (snd st))) <= B.
Proof.
  intros HB Hcaps Hr Hne.
  destruct (reached_stats this s _ Hr k) as (Ht & _).
  pose proof (reached_within_cap B _ HB Hcaps Hr k Hne). lia.
Qed.

(** X15. With every PARO rule allowing [B] calls at most, [B] being
    8 (the default cap) or more, a resident who is given a call ends with
    [B] calls at most, the existing calls of the resident counted in. *)
Theorem calls_within_cap (B : Z) (k : string) :
  8 <= B ->
  Forall (fun rule => calls rule <= B) (paroHardCaps (config this)) ->
  Spec.callsOf k (generateSchedule this s) <> [] ->
  totalCalls (initializeCallStats this !!! k)
  + Z.of_nat (length (Spec.callsOf k (generateSchedule this s))) <= B.
Proof.
  intros HB Hcaps. unfold generateSchedule.
  apply reached_cap_total; [exact HB|exact Hcaps|].
  apply runSchedule_reached.
Qed.

Lemma reached_weekends (st : RunState) :
  Reached this s st ->
  forall k, weekendCallsOf this k (snd st) <> [] ->
            weekendCalls (fst st !!! k) <= maxWeekends this.
Proof.
  induction 1 as [|cs out day excl best Hr IH Hday Hct Hsel]; intros k;
    cbn [fst snd] in *; [intros H; contradiction|].
  unfold weekendCallsOf in *. rewrite callsOf_step.
  apply selectBestResident_eligible in Hsel as (Hin & _ & Hel).
  destruct (String.eqb_spec (id best) k) as [<-|Hne].
  - rewrite lookup_total_updateResidentStats_eq
      by (apply (reached_covers _ _ _ Hr); exact Hin).
    cbn [weekendCalls updateStats].
    rewrite List.filter_app. cbn [List.filter].
    destruct (dayRequirement_cases this day) as (Hd & _ & Hwe & _).
    cbv zeta in Hd, Hwe. rewrite Hwe, Hd in *.
    apply (isEligibleForCall_inv this s) in Hel
        as (block & rotation & _ & _ & _ & _ & _ & _ & Hw & _).
    destruct (isWeekend this (JS.newDate (year this) (month this) day)).
    + intros _. specialize (Hw eq_refl). lia.
    + rewrite app_nil_r. apply IH.
  - rewrite app_nil_r, lookup_total_updateResidentStats_ne by exact Hne.
    apply IH.
Qed.

Lemma reached_weekends_total (st : RunState) (k : string) :
  Reached this s st ->
  weekendCallsOf this k (snd st) <> [] ->
  weekendCalls (initializeCallStats this !!! k)
  + Z.of_nat (length (weekendCallsOf this k (snd st)))
  <= maxWeekends this.
Proof.
  intros Hr Hne.
  destruct (reached_stats this s _ Hr k) as (_ & Hw & _).
  pose proof (reached_weekends _ Hr k Hne). lia.
Qed.

(** X16. A resident who is given a call on a day of the
    weekend definition ends with at most [maxWeekendsPerRotation] (2 when
    it is 0) such calls, counted over the whole run and with the existing
    Weekend calls of the resident counted in. *)
Theorem weekend_calls_within_cap (k : string) :
  weekendCallsOf this k (generateSchedule this s) <> [] ->
  weekendCalls (initializeCallStats this !!! k)
  + Z.of_nat (length (weekendCallsOf this k (generateSchedule this s)))
  <= maxWeekends this.
Proof.
  unfold generateSchedule. apply reached_weekends_total.
  apply runSchedule_reached.
Qed.

End MonthlyGuarantees.

Section MonthlyGuaranteesExamples.
Import MonthlyCallScheduler.
Import Spec.

Lemma calls_go_to_core_residents_witness :
  exists r, In r (residents Examples.soloJune)
            /\ id r = ca_residentId Examples.june1Call
            /\ isChief r && callExempt r = false.
Proof.
  destruct (calls_go_to_core_residents Examples.soloJune Normal
              Examples.june1Call) as (r & _ & _ & Hin & Hid & Hc & _).
  - vm_compute. left. reflexivity.
  - discriminate.
  - exists r. split; [exact Hin|]. split; [exact Hid|exact Hc].
Defined.

Lemma call_type_follows_the_day_witness :
  ca_isHoliday Examples.june1Call
  = isHoliday Examples.soloJune (ca_date Examples.june1Call).
Proof.
  destruct (call_type_follows_the_day Examples.soloJune Normal
              Examples.june1Call) as (_ & H & _).
  - vm_compute. left. reflexivity.
  - discriminate.
  - exact H.
Defined.

Lemma postcall_markers_follow_calls_witness :
  In (postCallOf Examples.june1Call)
     (generateSchedule Examples.soloJune Normal).
Proof.
  apply (proj2 (postcall_markers_follow_calls Examples.soloJune Normal)).
  - vm_compute. left. reflexivity.
  - discriminate.
  - vm_compute. reflexivity.
Defined.

Lemma successive_calls_two_days_apart_witness :
  2 <= Z.abs (JS.newDate 2025 5 6 - JS.newDate 2025 5 1).
Proof.
  apply (proj1 (successive_calls_two_days_apart Examples.soloJune Normal "r1")
           [] (JS.newDate 2025 5 1) (JS.newDate 2025 5 6)
           (tl (tl (Spec.callsOf "r1"
                      (generateSchedule Examples.soloJune Normal))))).
  vm_compute. reflexivity.
Defined.

Lemma calls_within_cap_witness :
  totalCalls (initializeCallStats Examples.soloJune !!! "r1"%string)
  + Z.of_nat (length (Spec.callsOf "r1"
                        (generateSchedule Examples.soloJune Normal))) <= 8.
Proof.
  apply (calls_within_cap Examples.soloJune Normal 8 "r1").
  - lia.
  - repeat constructor. vm_compute. discriminate.
  - vm_compute. discriminate.
Defined.

Lemma weekend_calls_within_cap_witness :
  weekendCalls (initializeCallStats Examples.soloJune !!! "r1"%string)
  + Z.of_nat (length (weekendCallsOf Examples.soloJune "r1"
                        (generateSchedule Examples.soloJune Normal)))
  <= maxWeekends Examples.soloJune.
Proof.
  apply (weekend_calls_within_cap Examples.soloJune Normal "r1").
  vm_compute. discriminate.
Defined.

End MonthlyGuaranteesExamples.

(** *** The calls of one day *)

Section PerDay.
Import MonthlyCallScheduler.
Import Spec.
Variable this : Scheduler.
Variable s : StaffingLevel.

Lemma callsOn_app (d : JS.Date) (l1 l2 : list CallAssignment) :
  callsOn d (l1 ++ l2) = callsOn d l1 ++ callsOn d l2.
Proof. unfold callsOn. apply List.filter_app. Qed.

Lemma callsOn_postCall (d : JS.Date) (a : CallAssignment)
    (callType : CallType) :
  callsOn d (createPostCallAssignments this a callType) = [].
Proof.
  unfold createPostCallAssignments.
  destruct (negb (requiresPostCall callType)); [reflexivity|].
  destruct (negb _); [reflexivity|]. reflexivity.
Qed.

Lemma callsOn_step (d : JS.Date) (out : list CallAssignment)
    (best : Resident) (day : Z) :
  callsOn d
    (out ++ [callFor this best (dayRequirement this day)]
         ++ createPostCallAssignments this
              (callFor this best (dayRequirement this day))
              (dr_callType (dayRequirement this day)))
  = callsOn d out
    ++ (if dr_date (dayRequirement this day) =? d
        then [callFor this best (dayRequirement this day)] else []).
Proof.
  rewrite !callsOn_app, callsOn_postCall, app_nil_r. f_equal.
  unfold callsOn at 1. cbn [List.filter].
  change (ca_type (callFor this best (dayRequirement this day)))
    with (dr_callType (dayRequirement this day)).
  change (ca_date (callFor this best (dayRequirement this day)))
    with (dr_date (dayRequirement this day)).
  rewrite (bool_decide_eq_false_2 _ (dayRequirement_not_postCall this day)).
  cbn [negb andb].
  destruct (dr_date (dayRequirement this day) =? d); reflexivity.
Qed.

Lemma fillDay_other_day (d : JS.Date) (day : Z) (n : nat) :
  dr_date (dayRequirement this day) <> d ->
  forall selected st,
    callsOn d (snd (fillDay this n s (dayRequirement this day) selected st))
    = callsOn d (snd st).
Proof.
  intros Hd. induction n as [|n IH]; intros selected [cs out]; [reflexivity|].
  cbn [fillDay].
  destruct (selectBestResident this cs (dr_date (dayRequirement this day))
              (dr_callType (dayRequirement this day)) s (map id selected))
    as [best|]; rewrite IH; [|reflexivity].
  cbn [snd].
  change (createCallAssignment this best (dr_date (dayRequirement this day))
            (dr_callType (dayRequirement this day))
            (dr_isHoliday (dayRequirement this day)))
    with (callFor this best (dayRequirement this day)).
  rewrite callsOn_step.
  rewrite (proj2 (Z.eqb_neq _ _) Hd). apply app_nil_r.
Qed.

Lemma fillDay_same_day (day : Z) (n : nat) :
  forall selected st,
    map ca_residentId (callsOn (dr_date (dayRequirement this day)) (snd st))
    = map id selected ->
    NoDup (map id selected) ->
    let out' :=
      callsOn (dr_date (dayRequirement this day))
        (snd (fillDay this n s (dayRequirement this day) selected st)) in
    NoDup (map ca_residentId out')
    /\ (length out' <= length selected + n)%nat.
Proof.
  induction n as [|n IH]; intros selected [cs out] Hids Hnd; cbv zeta.
  - cbn [fillDay]. rewrite Hids. split; [exact Hnd|].
    rewrite <- (length_map ca_residentId), Hids, length_map. lia.
  - cbn [fillDay].
    destruct (selectBestResident this cs (dr_date (dayRequirement this day))
                (dr_callType (dayRequirement this day)) s (map id selected))
      as [best|] eqn:Hsel.
    + apply selectBestResident_eligible in Hsel as (_ & Hex & _).
      change (createCallAssignment this best
                (dr_date (dayRequirement this day))
                (dr_callType (dayRequirement this day))
                (dr_isHoliday (dayRequirement this day)))
        with (callFor this best (dayRequirement this day)).
      specialize (IH (selected ++ [best])
                    (updateResidentStats cs (id best)
                       (dayRequirement this day),
                     out ++ [callFor this best (dayRequirement this day)]
                         ++ createPostCallAssignments this
                              (callFor this best (dayRequirement this day))
                              (dr_callType (dayRequirement this day)))).
      cbv zeta in IH. cbn [snd] in IH, Hids.
      rewrite callsOn_step, Z.eqb_refl in IH.
      rewrite !map_app, Hids in IH. cbn [map callFor createCallAssignment
                                          ca_residentId] in IH.
      destruct IH as [IH1 IH2]; [reflexivity| |].
      * apply NoDup_app. split; [exact Hnd|]. split.
        -- intros x Hx Hx'. apply list_elem_of_In in Hx'.
           destruct Hx' as [<-|[]].
           apply list_elem_of_In, includes_In in Hx. congruence.
        -- apply NoDup_singleton.
      * split; [exact IH1|]. rewrite length_app in IH2. cbn [length] in IH2. lia.
    + destruct (IH selected (cs, out) Hids Hnd) as [IH1 IH2].
      split; [exact IH1|lia].
Qed.

Lemma newDate_day_inj (y m d1 d2 : Z) :
  JS.newDate y m d1 = JS.newDate y m d2 -> d1 = d2.
Proof. unfold JS.newDate. cbv zeta. lia. Qed.

Lemma insertDesc_NoDup {A K B : Type} (key : A -> K) (gtb : K -> K -> bool)
    (f : A -> B) (x : A) (l : list A) :
  NoDup (map f (x :: l)) -> NoDup (map f (JS.insertDesc key gtb x l)).
Proof.
  induction l as [|y l IH]; [tauto|].
  cbn [JS.insertDesc]. destruct (gtb (key y) (key x)); [|tauto].
  cbn [map]. rewrite !NoDup_cons. intros [Hx [Hy Hl]].
  split.
  - intros Hin. apply list_elem_of_In, in_map_iff in Hin
      as [z [Hz Hin]].
    apply insertDesc_In in Hin as [->|Hin].
    + apply Hx. rewrite Hz. left.
    + apply Hy. rewrite <- Hz. apply list_elem_of_In, in_map. exact Hin.
  - apply IH. cbn [map]. apply NoDup_cons. split; [|exact Hl].
    intros Hin. apply Hx. right. exact Hin.
Qed.

Lemma sortDesc_NoDup {A K B : Type} (key : A -> K) (gtb : K -> K -> bool)
    (f : A -> B) (l : list A) :
  NoDup (map f l) -> NoDup (map f (JS.sortDesc key gtb l)).
Proof.
  induction l as [|x l IH]; [tauto|].
  cbn [JS.sortDesc map]. intros H. apply insertDesc_NoDup.
  cbn [map]. apply NoDup_cons in H as [Hx Hl].
  apply NoDup_cons. split; [|apply IH; exact Hl].
  intros Hin. apply Hx.
  apply list_elem_of_In, in_map_iff in Hin as [z [Hz Hin]].
  apply sortDesc_In in Hin. rewrite <- Hz.
  apply list_elem_of_In, in_map. exact Hin.
Qed.

Lemma dr_date_inj (d1 d2 : Z) :
  dr_date (dayRequirement this d1) = dr_date (dayRequirement this d2) ->
  d1 = d2.
Proof.
  destruct (dayRequirement_cases this d1) as (H1 & _).
  destruct (dayRequirement_cases this d2) as (H2 & _).
  cbv zeta in H1, H2. rewrite H1, H2. apply newDate_day_inj.
Qed.

Lemma dayRequirements_NoDup (days : list Z) :
  NoDup days -> NoDup (map dr_date (map (dayRequirement this) days)).
Proof.
  induction 1 as [|d days Hd _ IH]; cbn [map]; [constructor|].
  constructor; [|exact IH].
  intros Hin. apply Hd. apply list_elem_of_In in Hin.
  rewrite map_map in Hin. apply in_map_iff in Hin as [d' [Heq Hin]].
  apply dr_date_inj in Heq. subst d'. apply list_elem_of_In. exact Hin.
Qed.

Lemma sortedDayRequirements_NoDup :
  NoDup (map dr_date (sortedDayRequirements this)).
Proof.
  unfold sortedDayRequirements, calculateDayRequirements. cbv zeta.
  apply sortDesc_NoDup. apply dayRequirements_NoDup. apply NoDup_seqZ.
Qed.

Lemma processDay_same_day (day : Z) (st : RunState) :
  callsOn (dr_date (dayRequirement this day)) (snd st) = [] ->
  dayFilled this (dr_date (dayRequirement this day))
            (snd (processDay this s st (dayRequirement this day))).
Proof.
  intros Hnil. unfold processDay, dayFilled.
  destruct (bool_decide (dr_callType (dayRequirement this day) = NoCall)).
  - rewrite Hnil. split; [constructor|]. cbn. destruct (isHoliday _ _); lia.
  - destruct (fillDay_same_day day
                (getRequiredResidentCount
                   (dr_callType (dayRequirement this day))) [] st)
      as [H1 H2]; [rewrite Hnil; reflexivity|constructor|].
    split; [exact H1|]. cbn [length] in H2.
    assert (Hn : (getRequiredResidentCount
                    (dr_callType (dayRequirement this day))
                  <= if isHoliday this (dr_date (dayRequirement this day))
                     then 2 else 1)%nat).
    { destruct (dayRequirement_cases this day) as (Hd & _ & _ & Hc).
      cbv zeta in Hd, Hc. rewrite Hd.
      destruct Hc as [[E1 E]|[(E1 & _ & E)|[(E1 & _ & _ & E)
                                            |(E1 & _ & _ & E)]]];
        rewrite E, E1; cbn; lia. }
    lia.
Qed.

Lemma processDay_other_day (d : JS.Date) (day : Z) (st : RunState) :
  dr_date (dayRequirement this day) <> d ->
  callsOn d (snd (processDay this s st (dayRequirement this day)))
  = callsOn d (snd st).
Proof.
  intros Hd. unfold processDay.
  destruct (bool_decide _); [reflexivity|].
  apply fillDay_other_day. exact Hd.
Qed.

Lemma fold_processDay_filled (d : JS.Date) (days : list DayRequirements) :
  NoDup (map dr_date days) ->
  (forall dr, In dr days -> exists day, dr = dayRequirement this day) ->
  forall st,
    (In d (map dr_date days) /\ callsOn d (snd st) = [])
    \/ (~ In d (map dr_date days) /\ dayFilled this d (snd st)) ->
    dayFilled this d (snd (fold_left (processDay this s) days st)).
Proof.
  induction days as [|dr days IH]; intros Hnd Hdays st Hst.
  - destruct Hst as [[[] _]|[_ H]]. exact H.
  - cbn [fold_left]. cbn [map] in Hnd. apply NoDup_cons in Hnd as [Hdr Hnd].
    destruct (Hdays dr (or_introl eq_refl)) as [day ->].
    apply IH; [exact Hnd|intros dr' Hin; apply Hdays; right; exact Hin|].
    destruct (decide (dr_date (dayRequirement this day) = d)) as [E|E].
    + right. subst d. split; [intros Hin; apply Hdr, list_elem_of_In, Hin|].
      destruct Hst as [[_ Hnil]|[Hnot _]];
        [|exfalso; apply Hnot; left; reflexivity].
      apply processDay_same_day. exact Hnil.
    + unfold dayFilled in *.
      rewrite (processDay_other_day d day st E).
      destruct Hst as [[[Hin|Hin] Hnil]|[Hnot H]].
      * contradiction.
      * left. split; assumption.
      * right. split; [|exact H]. intros Hin. apply Hnot. right. exact Hin.
Qed.

(** X17. On any date a generated schedule holds at most two calls
    if the date is a holiday and at most one otherwise, and two calls of
    one date go to residents with different ids. *)
Theorem calls_of_a_day (d : JS.Date) :
  NoDup (map ca_residentId (callsOn d (generateSchedule this s)))
  /\ (length (callsOn d (generateSchedule this s))
      <= if isHoliday this d then 2 else 1)%nat.
Proof.
  unfold generateSchedule, runSchedule.
  apply (fold_processDay_filled d).
  - apply sortedDayRequirements_NoDup.
  - intros dr Hin. apply sortedDayRequirements_In in Hin as [day [_ ->]].
    exists day. reflexivity.
  - cbn [snd].
    destruct (in_dec Z.eq_dec d (map dr_date (sortedDayRequirements this)))
      as [Hin|Hin]; [left; split; [exact Hin|reflexivity]|].
    right. split; [exact Hin|]. unfold dayFilled. cbn.
    split; [constructor|]. destruct (isHoliday this d); lia.
Qed.

End PerDay.

(** *** Counting the calls of a schedule *)

Section Counting.
Import MonthlyCallScheduler.
Import Spec.

Lemma getCount_countUp_eq (k : string) (m : list (string * Z)) :
  getCount (countUp k m) k = Some (default 0 (getCount m k) + 1).
Proof.
  unfold getCount. induction m as [|[k' c] m IH]; cbn [countUp List.find fst].
  - rewrite String.eqb_refl. reflexivity.
  - destruct (String.eqb k' k) eqn:E; cbn [List.find fst]; rewrite E.
    + reflexivity.
    + exact IH.
Qed.

Lemma getCount_countUp_ne (k k0 : string) (m : list (string * Z)) :
  k <> k0 -> getCount (countUp k m) k0 = getCount m k0.
Proof.
  intros Hne. unfold getCount.
  induction m as [|[k' c] m IH]; cbn [countUp List.find fst].
  - rewrite (proj2 (String.eqb_neq _ _) Hne). reflexivity.
  - destruct (String.eqb_spec k' k) as [->|E]; cbn [List.find fst].
    + rewrite (proj2 (String.eqb_neq _ _) Hne). reflexivity.
    + destruct (String.eqb k' k0); [reflexivity|exact IH].
Qed.

Lemma countUp_keys (k k0 : string) (m : list (string * Z)) :
  In k0 (map fst (countUp k m)) <-> k0 = k \/ In k0 (map fst m).
Proof.
  induction m as [|[k' c] m IH]; cbn [countUp map fst In].
  - intuition congruence.
  - destruct (String.eqb_spec k' k) as [->|E]; cbn [map fst In].
    + intuition congruence.
    + rewrite IH. intuition congruence.
Qed.

Lemma countUp_NoDup (k : string) (m : list (string * Z)) :
  NoDup (map fst m) -> NoDup (map fst (countUp k m)).
Proof.
  induction m as [|[k' c] m IH]; cbn [countUp map fst]; intros Hnd.
  - apply NoDup_singleton.
  - apply NoDup_cons in Hnd as [Hk Hnd].
    destruct (String.eqb_spec k' k) as [->|E]; cbn [map fst].
    + apply NoDup_cons. split; assumption.
    + apply NoDup_cons. split; [|apply IH; exact Hnd].
      intros Hin. apply list_elem_of_In, countUp_keys in Hin as [->|Hin].
      * congruence.
      * apply Hk, list_elem_of_In, Hin.
Qed.

Lemma getCount_In (k : string) (c : Z) (m : list (string * Z)) :
  NoDup (map fst m) -> In (k, c) m -> getCount m k = Some c.
Proof.
  unfold getCount.
  induction m as [|[k' c'] m IH]; intros Hnd Hin; [destruct Hin|].
  cbn [map fst] in Hnd. apply NoDup_cons in Hnd as [Hk Hnd].
  cbn [List.find fst]. destruct Hin as [[= -> ->]|Hin].
  - rewrite String.eqb_refl. reflexivity.
  - destruct (String.eqb_spec k' k) as [->|E]; [|apply IH; assumption].
    exfalso. apply Hk. apply list_elem_of_In.
    apply (in_map fst) in Hin. exact Hin.
Qed.

Lemma countUp_pos (k : string) (m : list (string * Z)) :
  Forall (fun e => 0 < snd e) m -> Forall (fun e => 0 < snd e) (countUp k m).
Proof.
  induction 1 as [|[k' c] m Hc Hm IH]; cbn [countUp].
  - constructor; [cbn; lia|constructor].
  - destruct (String.eqb k' k).
    + constructor; [cbn in *; lia|exact Hm].
    + constructor; [exact Hc|exact IH].
Qed.

Lemma callsOf_snoc (k : string) (l : list CallAssignment)
    (a : CallAssignment) :
  Spec.callsOf k (l ++ [a])
  = Spec.callsOf k l
    ++ (if String.eqb (ca_residentId a) k
           && negb (bool_decide (ca_type a = PostCall))
        then [ca_date a] else []).
Proof.
  rewrite callsOf_app. f_equal. unfold Spec.callsOf. cbn [List.filter].
  destruct (_ && _); reflexivity.
Qed.

Lemma countCalls_spec (assignments : list CallAssignment) :
  NoDup (map fst (countCalls assignments))
  /\ Forall (fun e => 0 < snd e) (countCalls assignments)
  /\ forall k,
       default 0 (getCount (countCalls assignments) k)
       = Z.of_nat (length (Spec.callsOf k assignments)).
Proof.
  unfold countCalls.
  induction assignments as [|a l IH] using rev_ind.
  - cbn. split; [constructor|]. split; [constructor|reflexivity].
  - rewrite fold_left_app. cbn [fold_left].
    destruct IH as (Hnd & Hpos & Hcount).
    destruct (bool_decide_reflect (ca_type a = PostCall)) as [E|E].
    + split; [exact Hnd|]. split; [exact Hpos|].
      intros k. rewrite callsOf_snoc, (bool_decide_eq_true_2 _ E).
      cbn [negb]. rewrite andb_false_r, app_nil_r. apply Hcount.
    + split; [apply countUp_NoDup; exact Hnd|].
      split; [apply countUp_pos; exact Hpos|].
      intros k. rewrite callsOf_snoc, (bool_decide_eq_false_2 _ E).
      cbn [negb]. rewrite andb_true_r.
      destruct (String.eqb_spec (ca_residentId a) k) as [<-|Hne].
      * rewrite getCount_countUp_eq, length_app. cbn [length].
        match goal with
        | |- context [default 0 (Some ?x)] =>
            change (default 0 (Some x)) with x
        end.
        rewrite Hcount. lia.
      * rewrite getCount_countUp_ne by exact Hne.
        rewrite app_nil_r. apply Hcount.
Qed.

End Counting.

Section Validation.
Import MonthlyCallScheduler.
Import Spec.
Variable this : Scheduler.
Variable s : StaffingLevel.

Lemma no_errors (rs : list Resident) (m : list (string * Z)) :
  (forall k c, In (k, c) m -> c <= 8) ->
  flat_map (fun '(residentId, count) =>
              match List.find (fun r => String.eqb (id r) residentId) rs with
              | Some resident =>
                  if 8 <? count then [(resident, count)] else []
              | None => []
              end) m = [].
Proof.
  induction m as [|[k c] m IH]; intros Hm; [reflexivity|].
  cbn [flat_map].
  rewrite IH by (intros k' c' Hin; apply (Hm k'); right; exact Hin).
  destruct (List.find _ rs); [|reflexivity].
  destruct (Z.ltb_spec 8 c) as [Hc|Hc]; [|reflexivity].
  specialize (Hm k c (or_introl eq_refl)). lia.
Qed.

Lemma isValid_no_errors (assignments : list CallAssignment)
    (rs : list Resident) :
  Index.errors (Index.validateGeneratedSchedule assignments rs) = [] ->
  Index.isValid (Index.validateGeneratedSchedule assignments rs) = true.
Proof.
  unfold Index.validateGeneratedSchedule. cbn [Index.errors Index.isValid].
  intros ->. reflexivity.
Qed.

Lemma reached_valid (rs : list Resident) (st : RunState) :
  Forall (fun rule => calls rule <= 8) (paroHardCaps (config this)) ->
  Reached this s st ->
  Index.errors (Index.validateGeneratedSchedule (snd st) rs) = [].
Proof.
  intros Hcaps Hr.
  unfold Index.validateGeneratedSchedule. cbn [Index.errors].
  destruct (countCalls_spec (snd st)) as (Hnd & _ & Hcount).
  apply no_errors. intros k c Hin.
  pose proof (getCount_In k c _ Hnd Hin) as Hk.
  specialize (Hcount k). rewrite Hk in Hcount.
  change (default 0 (Some c)) with c in Hcount.
  destruct (Spec.callsOf k (snd st)) as [|d l] eqn:El;
    [cbn in Hcount; lia|].
  assert (H8 : 8 <= 8) by lia.
  assert (Hne : Spec.callsOf k (snd st) <> [])
    by (rewrite El; discriminate).
  pose proof (reached_cap_total this s 8 st k H8 Hcaps Hr Hne) as Hc.
  pose proof (initializeCallStats_nonneg this k) as [H0 _].
  rewrite El in Hc. lia.
Qed.

(** X18. With every PARO rule allowing 8 calls at most, the
    validation of the callable function accepts every generated schedule,
    whatever list of residents it is given. *)
Theorem generated_schedule_is_valid (rs : list Resident) :
  Forall (fun rule => calls rule <= 8) (paroHardCaps (config this)) ->
  Index.isValid
    (Index.validateGeneratedSchedule (generateSchedule this s) rs) = true
  /\ Index.errors
       (Index.validateGeneratedSchedule (generateSchedule this s) rs) = [].
Proof.
  intros Hcaps. unfold generateSchedule.
  split; [apply isValid_no_errors|]; apply reached_valid;
    first [exact Hcaps | apply runSchedule_reached].
Qed.

End Validation.

Section ValidationExamples.
Import MonthlyCallScheduler.
Import Spec.

Lemma generated_schedule_is_valid_witness :
  Index.isValid
    (Index.validateGeneratedSchedule
       (generateSchedule Examples.soloJune Normal)
       (residents Examples.soloJune)) = true.
Proof.
  apply (generated_schedule_is_valid Examples.soloJune Normal
           (residents Examples.soloJune)).
  repeat constructor. vm_compute. discriminate.
Defined.


End ValidationExamples.

(** *** The fairness index of the metrics *)

Section Gini.
Import MonthlyCallScheduler.
Import Spec.

Lemma insertDesc_sorted (x : Z) (l : list Z) :
  StronglySorted Z.le l ->
  StronglySorted Z.le (JS.insertDesc (fun v : Z => v) Z.ltb x l).
Proof.
  induction 1 as [|y l Hs IH Hy]; cbn [JS.insertDesc].
  - constructor; [constructor|constructor].
  - destruct (Z.ltb_spec y x) as [Hlt|Hge].
    + constructor; [exact IH|].
      apply List.Forall_forall. intros z Hz.
      apply insertDesc_In in Hz as [->|Hz]; [lia|].
      rewrite List.Forall_forall in Hy. apply Hy. exact Hz.
    + constructor; [constructor; assumption|].
      constructor; [exact Hge|].
      eapply List.Forall_impl; [|exact Hy]. intros z Hz. cbv beta in Hz. lia.
Qed.

Lemma sortDesc_sorted (l : list Z) :
  StronglySorted Z.le (JS.sortDesc (fun v : Z => v) Z.ltb l).
Proof.
  induction l as [|x l IH]; cbn [JS.sortDesc]; [constructor|].
  apply insertDesc_sorted. exact IH.
Qed.

Lemma insertDesc_length {A K : Type} (key : A -> K) (gtb : K -> K -> bool)
    (x : A) (l : list A) :
  length (JS.insertDesc key gtb x l) = S (length l).
Proof.
  induction l as [|y l IH]; cbn [JS.insertDesc]; [reflexivity|].
  destruct (gtb (key y) (key x)); cbn [length]; [rewrite IH|]; reflexivity.
Qed.

Lemma sortDesc_length {A K : Type} (key : A -> K) (gtb : K -> K -> bool)
    (l : list A) :
  length (JS.sortDesc key gtb l) = length l.
Proof.
  induction l as [|x l IH]; cbn [JS.sortDesc]; [reflexivity|].
  rewrite insertDesc_length, IH. reflexivity.
Qed.

Lemma cumulative_length (acc : Z) (l : list Z) :
  length (cumulative acc l) = length l.
Proof.
  revert acc. induction l as [|x l IH]; intros acc; cbn; [|rewrite IH];
    reflexivity.
Qed.

Lemma cumulative_last (acc : Z) (l : list Z) (d : Z) :
  l <> [] -> List.last (cumulative acc l) d = acc + sumZ l.
Proof.
  revert acc. induction l as [|x l IH]; intros acc Hne; [contradiction|].
  cbn [cumulative sumZ]. destruct l as [|y l].
  - cbn. lia.
  - change (List.last (acc + x :: cumulative (acc + x) (y :: l)) d)
      with (List.last (cumulative (acc + x) (y :: l)) d).
    rewrite IH by discriminate. cbn [sumZ]. lia.
Qed.

Lemma sumZ_ge (m : Z) (l : list Z) :
  Forall (fun y => m <= y) l -> Z.of_nat (length l) * m <= sumZ l.
Proof.
  induction 1 as [|y l Hy _ IH]; cbn [length sumZ]; [lia|nia].
Qed.

(** The integers that the sum of the terms is made of: the indices plus
    one, and the running sums. *)
Lemma cumulative_bounds (n S : Z) (l : list Z) :
  StronglySorted Z.le l ->
  forall k acc m,
    Forall (fun y => m <= y) l -> Forall (fun y => 0 <= y) l ->
    0 <= k -> 0 <= acc -> acc <= k * m ->
    n = k + Z.of_nat (length l) -> S = acc + sumZ l ->
    n * sumZ (cumulative acc l)
    <= S * sumZ (map (fun i => i + 1) (seqZ k (Z.of_nat (length l))))
    /\ (l <> [] -> S <= sumZ (cumulative acc l))
    /\ 0 <= sumZ (cumulative acc l)
    /\ 2 * sumZ (map (fun i => i + 1) (seqZ k (Z.of_nat (length l))))
       = Z.of_nat (length l) * (2 * k + Z.of_nat (length l) + 1).
Proof.
  induction 1 as [|x l Hs IH Hx]; intros k acc m Hm Hpos Hk Hacc Hkm Hn HS.
  - cbn [length cumulative sumZ]. change (Z.of_nat 0) with 0.
    rewrite seqZ_nil by lia. cbn [map sumZ].
    split; [lia|]. split; [intros H; exfalso; apply H; reflexivity|].
    split; lia.
  - apply Forall_cons in Hm as [Hmx Hm]. apply Forall_cons in Hpos as [Hx0 Hpos].
    cbn [cumulative sumZ length] in *.
    replace (Z.of_nat (Datatypes.S (length l))) with (1 + Z.of_nat (length l))
      in * by lia.
    rewrite seqZ_cons by lia. cbn [map sumZ].
    replace (Z.pred (1 + Z.of_nat (length l))) with (Z.of_nat (length l))
      by lia.
    replace (Z.succ k) with (k + 1) by lia.
    assert (Hx' : Forall (fun y => x <= y) l) by exact Hx.
    destruct (IH (k + 1) (acc + x) x Hx' Hpos) as (I1 & I2 & I3 & I4);
      try lia; try nia.
    pose proof (sumZ_ge x l Hx') as Hge.
    assert (Hax : acc + x <= (k + 1) * x) by nia.
    split; [|split; [|split]].
    + (* n * (c + rest) <= S * ((k+1) + idx) *)
      assert (Hterm : n * (acc + x) <= (k + 1) * S) by nia.
      nia.
    + intros _. destruct l as [|y l'].
      * cbn in *. lia.
      * specialize (I2 ltac:(discriminate)). nia.
    + lia.
    + nia.
Qed.

Lemma giniSum_eq (n S : Z) :
  n <> 0 -> S <> 0 ->
  forall (idx cum : list Z) (g0 : Q),
    length idx = length cum ->
    (fold_left (fun g '(i, l) =>
                  (g + (inject_Z (i + 1) / inject_Z n - l))%Q)
               (combine idx
                  (map (fun s => (inject_Z s / inject_Z S)%Q) cum)) g0
     == g0 + inject_Z (S * sumZ (map (fun i => i + 1) idx) - n * sumZ cum)%Z
             / inject_Z (n * S)%Z)%Q.
Proof.
  intros Hn HS.
  assert (Hn' : ~ (inject_Z n == 0)%Q).
  { intros E. apply Hn. unfold Qeq in E. cbn in E. lia. }
  assert (HS' : ~ (inject_Z S == 0)%Q).
  { intros E. apply HS. unfold Qeq in E. cbn in E. lia. }
  induction idx as [|i idx IH]; intros [|c cum] g0 Hlen;
    try discriminate Hlen.
  - cbn [combine map fold_left sumZ].
    replace (S * 0 - n * 0) with 0 by lia.
    unfold Qdiv. rewrite Qmult_0_l, Qplus_0_r. reflexivity.
  - cbn [combine map fold_left sumZ].
    rewrite IH by (cbn in Hlen; lia).
    unfold Z.sub.
    rewrite !inject_Z_plus, !inject_Z_mult, !inject_Z_opp,
      !inject_Z_mult, !inject_Z_plus.
    field. split; assumption.
Qed.

Lemma inject_Z_pos (z : Z) : 0 < z -> (0 < inject_Z z)%Q.
Proof. intros H. unfold Qlt. cbn. lia. Qed.

Lemma calculateGiniCoefficient_range (values : list Z) :
  Forall (fun v => 0 <= v) values ->
  (0 <= calculateGiniCoefficient values)%Q
  /\ (calculateGiniCoefficient values < 1 # 2)%Q.
Proof.
  intros Hpos. unfold calculateGiniCoefficient.
  destruct (length values =? 0)%nat eqn:El; [split; [apply Qle_refl|reflexivity]|].
  apply Nat.eqb_neq in El. cbv zeta.
  set (sorted := JS.sortDesc (fun v : Z => v) Z.ltb values).
  assert (Hlen : length sorted = length values) by apply sortDesc_length.
  assert (Hsorted : StronglySorted Z.le sorted) by apply sortDesc_sorted.
  assert (Hpos' : Forall (fun v => 0 <= v) sorted).
  { apply List.Forall_forall. intros v Hv. apply sortDesc_In in Hv.
    rewrite List.Forall_forall in Hpos. apply Hpos. exact Hv. }
  assert (Hne : sorted <> []).
  { intros E. rewrite E in Hlen. cbn in Hlen. lia. }
  rewrite (cumulative_last 0 sorted 0 Hne), !Z.add_0_l.
  destruct (Z.eqb_spec (sumZ sorted) 0) as [E0|E0];
    [split; [apply Qle_refl|reflexivity]|].
  set (n := Z.of_nat (length sorted)).
  set (S := sumZ sorted) in *.
  assert (Hn : 0 < n) by (unfold n; lia).
  destruct (cumulative_bounds n S sorted Hsorted 0 0 0 Hpos' Hpos')
    as (B1 & B2 & B3 & B4); try lia.
  specialize (B2 Hne). fold n in B1, B4.
  assert (HS : 0 < S).
  { pose proof (sumZ_ge 0 sorted Hpos') as H0. fold S in H0. lia. }
  rewrite giniSum_eq; try lia;
    [|unfold n; rewrite length_seqZ, cumulative_length; lia].
  set (I := sumZ (map (fun i => i + 1) (seqZ 0 n))) in *.
  set (C := sumZ (cumulative 0 sorted)) in *.
  rewrite Qplus_0_l.
  assert (HnS : 0 < n * S) by nia.
  split.
  - apply Qle_shift_div_l; [apply inject_Z_pos; exact Hn|].
    rewrite Qmult_0_l.
    apply Qle_shift_div_l; [apply inject_Z_pos; exact HnS|].
    rewrite Qmult_0_l. rewrite <- (Zle_Qle 0). nia.
  - apply Qlt_shift_div_r; [apply inject_Z_pos; exact Hn|].
    apply Qlt_shift_div_r; [apply inject_Z_pos; exact HnS|].
    unfold Qlt. cbn. nia.
Qed.

End Gini.


Section MetricsRange.
Import MonthlyCallScheduler.
Import Spec.
Variable this : Scheduler.

Lemma countCalls_single (k : string) (assignments : list CallAssignment) :
  (forall a, In a assignments -> Spec.isCall a -> ca_residentId a = k) ->
  countCalls assignments = []
  \/ exists c, 0 < c /\ countCalls assignments = [(k, c)].
Proof.
  unfold countCalls.
  induction assignments as [|a l IH] using rev_ind; intros Hk;
    [left; reflexivity|].
  rewrite fold_left_app. cbn [fold_left].
  assert (IH' := IH (fun a' Hin => Hk a' (in_or_app _ _ _ (or_introl Hin)))).
  destruct (bool_decide_reflect (ca_type a = PostCall)) as [E|E];
    [exact IH'|].
  assert (Ha : In a (l ++ [a])) by (apply in_or_app; right; left; reflexivity).
  rewrite (Hk a Ha E).
  right. destruct IH' as [->|[c [Hc ->]]].
  - exists 1. split; [lia|reflexivity].
  - exists (c + 1). split; [lia|]. cbn [countUp].
    rewrite String.eqb_refl. reflexivity.
Qed.

Lemma calculateGiniCoefficient_single (c : Z) :
  (calculateGiniCoefficient [c] == 0)%Q.
Proof.
  unfold calculateGiniCoefficient.
  cbn [length Nat.eqb JS.sortDesc JS.insertDesc cumulative List.last].
  rewrite Z.add_0_l.
  destruct (Z.eqb_spec c 0) as [E|E]; [reflexivity|].
  cbn [Z.of_nat Pos.of_succ_nat map]. rewrite seqZ_cons by lia.
  cbn [combine fold_left]. rewrite Z.add_0_l.
  assert (Hc : ~ (inject_Z c == 0)%Q).
  { intros H. apply E. unfold Qeq in H. cbn in H. lia. }
  rewrite combine_nil. cbn [fold_left]. change (Z.of_nat 1) with 1.
  field. exact Hc.
Qed.

(** X19. The fairness index of the metrics lies between 0 and 1/2,
    1/2 left out, for every list of assignments; the residents without any
    call do not enter it, so it is 0 when all the calls are of one
    resident. *)
Theorem fairness_index_range (assignments : list CallAssignment) :
  let index := sm_fairnessIndex (calculateScheduleMetrics this assignments) in
  ((0 <= index)%Q /\ (index < 1 # 2)%Q)
  /\ forall k,
       (forall a, In a assignments -> Spec.isCall a -> ca_residentId a = k) ->
       (index == 0)%Q.
Proof.
  cbv zeta. unfold calculateScheduleMetrics. cbn [sm_fairnessIndex]. split.
  - apply calculateGiniCoefficient_range.
    destruct (countCalls_spec assignments) as (_ & Hpos & _).
    apply List.Forall_forall. intros v Hv.
    apply in_map_iff in Hv as [e [<- He]].
    rewrite List.Forall_forall in Hpos. specialize (Hpos e He). lia.
  - intros k Hk.
    destruct (countCalls_single k assignments Hk) as [->|[c [_ ->]]].
    + reflexivity.
    + apply calculateGiniCoefficient_single.
Qed.


End MetricsRange.

Section MetricsExamples.
Import MonthlyCallScheduler.
Import Spec.

Lemma fairness_index_range_witness :
  (sm_fairnessIndex
     (calculateScheduleMetrics Examples.pairJuneAB
        (generateSchedule Examples.soloJune Normal)) == 0)%Q.
Proof.
  apply (proj2 (fairness_index_range Examples.pairJuneAB
                  (generateSchedule Examples.soloJune Normal)) "r1"%string).
  intros a Hin _. vm_compute in Hin.
  repeat (destruct Hin as [<-|Hin]; [reflexivity|]). destruct Hin.
Defined.

End MetricsExamples.

(** ** The academic year of the yearly engine *)


Section YearlyGrid.
Import YearlyScheduleEngine.
Variable this : Engine.

Lemma existsb_pgy (r : Resident) (rule : MandatoryRule) :
  existsb (Z.eqb (pgyLevel r)) (mr_pgyLevels rule) = true
  <-> In (pgyLevel r) (mr_pgyLevels rule).
Proof.
  rewrite existsb_exists. split.
  - intros [x [Hx E]]. apply Z.eqb_eq in E. subst x. exact Hx.
  - intros H. exists (pgyLevel r). split; [exact H|apply Z.eqb_refl].
Qed.

Lemma indexedResidents_lookup (i : nat) (r : Resident) :
  (i, r) ∈ indexedResidents this <-> residents this !! i = Some r.
Proof.
  unfold indexedResidents. rewrite elem_of_lookup_imap. split.
  - intros [j [x [[= -> ->] Hx]]]. exact Hx.
  - intros H. exists i, r. split; [reflexivity|exact H].
Qed.

Lemma isSlotEmpty_None (g : Grid) (bz : Z) (i : nat) :
  shaped this g ->
  (isSlotEmpty g bz i = None <-> ~ (0 <= bz < 13)).
Proof.
  intros [Hlen _]. unfold isSlotEmpty. unfold BLOCKS_PER_YEAR in Hlen.
  destruct (Z.ltb_spec bz 0) as [Hneg|Hpos]; [split; [lia|reflexivity]|].
  destruct (g !! Z.to_nat bz) as [row|] eqn:E.
  - apply lookup_lt_Some in E. split; [discriminate|lia].
  - apply lookup_ge_None in E. split; [lia|reflexivity].
Qed.

Lemma isSlotEmpty_Some (g : Grid) (bz : Z) (i : nat) (e : bool) :
  shaped this g -> (i < length (residents this))%nat ->
  isSlotEmpty g bz i = Some e ->
  0 <= bz < 13
  /\ if e then cellAt g (Z.to_nat bz) i = Some None
     else exists a, cellAt g (Z.to_nat bz) i = Some (Some a).
Proof.
  intros [Hlen Hrows] Hi. unfold isSlotEmpty, cellAt.
  unfold BLOCKS_PER_YEAR in Hlen.
  destruct (Z.ltb_spec bz 0) as [Hneg|Hpos]; [discriminate|].
  destruct (g !! Z.to_nat bz) as [row|] eqn:E; [|discriminate].
  pose proof (lookup_lt_Some _ _ _ E) as Hb.
  specialize (Hrows _ _ E).
  destruct (lookup_lt_is_Some_2 row i) as [cell Hcell]; [lia|].
  rewrite Hcell. intros [= <-]. split; [lia|].
  destruct cell as [a|]; [exists a|]; reflexivity.
Qed.

Lemma cellAt_write (g : Grid) (b i b' i' : nat)
    (c : option RotationAssignment) :
  cellAt g b i = Some None ->
  cellAt (alter (fun row => <[i := c]> row) b g) b' i'
  = if decide (b' = b /\ i' = i) then Some c else cellAt g b' i'.
Proof.
  unfold cellAt. intros H.
  destruct (g !! b) as [row|] eqn:E; [|discriminate].
  destruct (decide (b' = b)) as [->|Hb].
  - rewrite list_lookup_alter_eq, E. cbn [fmap option_fmap option_map].
    destruct (decide (i' = i)) as [->|Hi].
    + rewrite decide_True by tauto.
      apply list_lookup_insert_eq. eapply lookup_lt_Some. exact H.
    + rewrite decide_False by tauto.
      apply list_lookup_insert_ne. congruence.
  - rewrite list_lookup_alter_ne by congruence.
    rewrite decide_False by tauto. reflexivity.
Qed.

Lemma shaped_write (g : Grid) (b i : nat) (c : option RotationAssignment) :
  shaped this g -> shaped this (alter (fun row => <[i := c]> row) b g).
Proof.
  intros [Hlen Hrows]. split; [rewrite length_alter; exact Hlen|].
  intros b' row'. destruct (decide (b' = b)) as [->|Hb].
  - rewrite list_lookup_alter_eq.
    destruct (g !! b) as [row|] eqn:E; [|discriminate].
    intros [= <-]. rewrite length_insert. eapply Hrows. exact E.
  - rewrite list_lookup_alter_ne by congruence. apply Hrows.
Qed.

(** What [assign] does to a shaped grid: the block is one of the year, the
    cell is filled afterwards, with what it held or, if it was empty, with
    the rotation given; no other cell changes. *)
Lemma assign_spec (g g' : Grid) (bz : Z) (i : nat) (rotation : Rotation) :
  shaped this g -> (i < length (residents this))%nat ->
  assign this g bz i rotation = Some g' ->
  0 <= bz < 13
  /\ shaped this g'
  /\ (forall b' i', (b' <> Z.to_nat bz \/ i' <> i) ->
                    cellAt g' b' i' = cellAt g b' i')
  /\ exists a,
       cellAt g' (Z.to_nat bz) i = Some (Some a)
       /\ (cellAt g (Z.to_nat bz) i = Some (Some a)
           \/ (cellAt g (Z.to_nat bz) i = Some None
               /\ exists r, residents this !! i = Some r
                            /\ a = cellOf r rotation)).
Proof.
  intros Hs Hi. unfold assign.
  destruct (isSlotEmpty g bz i) as [e|] eqn:E; [|discriminate].
  apply (isSlotEmpty_Some g bz i e Hs Hi) in E as [Hb Hcell].
  destruct e.
  - destruct (residents this !! i) as [r|] eqn:Er; [|discriminate].
    intros [= <-]. split; [exact Hb|]. split; [apply shaped_write; exact Hs|].
    split.
    + intros b' i' Hne. rewrite (cellAt_write _ _ _ _ _ _ Hcell).
      rewrite decide_False by tauto. reflexivity.
    + eexists. split.
      * rewrite (cellAt_write _ _ _ _ _ _ Hcell).
        rewrite decide_True by tauto. reflexivity.
      * right. split; [exact Hcell|]. exists r. split; reflexivity.
  - intros [= <-]. split; [exact Hb|]. split; [exact Hs|].
    split; [reflexivity|].
    destruct Hcell as [a Ha]. exists a. split; [exact Ha|left; exact Ha].
Qed.

Lemma keeps_refl (g : Grid) : keeps g g.
Proof. intros b i a H. exact H. Qed.

Lemma keeps_trans (g1 g2 g3 : Grid) : keeps g1 g2 -> keeps g2 g3 -> keeps g1 g3.
Proof. intros H1 H2 b i a H. apply H2, H1, H. Qed.

(** [assign] with a rotation that has a source keeps the invariant. *)
Lemma assign_sound (T : RotationType -> Prop) (g g' : Grid) (bz : Z)
    (i : nat) (rotation : Rotation) :
  sound this T g -> (i < length (residents this))%nat ->
  T (r_rotationType rotation) ->
  (forall r, residents this !! i = Some r -> 0 <= bz < 13 ->
             rotationSource this (Z.to_nat bz) r (cellOf r rotation)) ->
  assign this g bz i rotation = Some g' ->
  sound this T g' /\ keeps g g'
  /\ 0 <= bz < 13
  /\ exists a, cellAt g' (Z.to_nat bz) i = Some (Some a).
Proof.
  intros [Hs Hcells] Hi HT Hsrc Ha.
  destruct (assign_spec g g' bz i rotation Hs Hi Ha)
    as (Hb & Hs' & Hother & a & Hnew & Hold).
  split; [split; [exact Hs'|]|split; [|split; [exact Hb|]]].
  - intros b' i' a' H'.
    destruct (decide (b' = Z.to_nat bz /\ i' = i)) as [[-> ->]|Hne].
    + rewrite Hnew in H'. injection H' as <-.
      destruct Hold as [Hold|[_ [r [Hr ->]]]]; [apply Hcells; exact Hold|].
      split; [exact HT|]. split; [reflexivity|].
      exists r. split; [exact Hr|]. apply Hsrc; assumption.
    + apply Hcells. rewrite <- Hother; [exact H'|].
      destruct (decide (b' = Z.to_nat bz)); [right|left]; tauto.
  - intros b' i' a' H'.
    destruct (decide (b' = Z.to_nat bz /\ i' = i)) as [[-> ->]|Hne].
    + destruct Hold as [Hold|[Hold _]]; [congruence|congruence].
    + rewrite Hother; [exact H'|].
      destruct (decide (b' = Z.to_nat bz)); [right|left]; tauto.
  - exists a. exact Hnew.
Qed.

(** A loop whose body keeps [I], only fills cells, and establishes [Q x]
    for its element [x], a property that filling cells keeps. *)
Lemma forEachM_grow {A : Type} (I : Grid -> Prop) (Q : A -> Grid -> Prop)
    (body : Grid -> A -> option Grid) (l : list A) :
  (forall g x g', I g -> x ∈ l -> body g x = Some g' ->
                  I g' /\ keeps g g' /\ Q x g') ->
  (forall x g g', keeps g g' -> Q x g -> Q x g') ->
  forall g g',
    I g -> forEachM body l g = Some g' ->
    I g' /\ keeps g g' /\ forall x, x ∈ l -> Q x g'.
Proof.
  intros Hbody Hmono.
  induction l as [|x l IH]; intros g g' Hg; cbn [forEachM].
  - intros [= <-]. split; [exact Hg|]. split; [apply keeps_refl|].
    intros x Hx. apply elem_of_nil in Hx. destruct Hx.
  - destruct (body g x) as [g1|] eqn:E; [|discriminate].
    destruct (Hbody g x g1 Hg ltac:(left) E) as (Hg1 & Hk1 & Hq1).
    intros Hrest.
    destruct IH with (g := g1) (g' := g') as (Hg' & Hk' & Hq');
      [intros g0 y g0' Hg0 Hy; apply Hbody; [exact Hg0|right; exact Hy]
      |exact Hg1|exact Hrest|].
    split; [exact Hg'|]. split; [eapply keeps_trans; eassumption|].
    intros y Hy. apply elem_of_cons in Hy as [->|Hy];
      [eapply Hmono; eassumption|apply Hq'; exact Hy].
Qed.


Lemma placed_keeps (T : RotationType -> Prop) (rule : MandatoryRule)
    (g g' : Grid) :
  keeps g g' -> placed this T rule g -> placed this T rule g'.
Proof.
  intros Hk Hp i r Hr Hin. destruct (Hp i r Hr Hin) as [Hb [a [Ha HT]]].
  split; [exact Hb|]. exists a. split; [apply Hk; exact Ha|exact HT].
Qed.

Lemma placed_weaken (T T' : RotationType -> Prop) (rule : MandatoryRule)
    (g : Grid) :
  (forall t, T t -> T' t) -> placed this T rule g -> placed this T' rule g.
Proof.
  intros HT Hp i r Hr Hin. destruct (Hp i r Hr Hin) as [Hb [a [Ha Hta]]].
  split; [exact Hb|]. exists a. split; [exact Ha|apply HT; exact Hta].
Qed.

Lemma sound_weaken (T T' : RotationType -> Prop) (g : Grid) :
  (forall t, T t -> T' t) -> sound this T g -> sound this T' g.
Proof.
  intros HT [Hs Hc]. split; [exact Hs|].
  intros b i a Ha. destruct (Hc b i a Ha) as (H1 & H2 & H3).
  split; [apply HT; exact H1|]. split; assumption.
Qed.

(** Phases 1 and 2: one rule. *)
Lemma applyRule_sound (T : RotationType -> Prop) (rtype : RotationType)
    (rule : MandatoryRule) (g g' : Grid) :
  sound this T g -> T rtype ->
  (rtype = MANDATORY_OFF_SERVICE
   /\ In rule (mandatoryRotations (config this)))
  \/ (rtype = EXAM_LEAVE /\ In rule (examLeave (config this))) ->
  applyRule this rtype g rule = Some g' ->
  sound this T g' /\ keeps g g' /\ placed this T rule g'.
Proof.
  intros Hg HT Hrule Happ. unfold applyRule in Happ.
  match type of Happ with
  | forEachM ?body ?l g = Some g' =>
      destruct (forEachM_grow (sound this T)
                  (fun (x : nat * Resident) g =>
                     In (pgyLevel (snd x)) (mr_pgyLevels rule) ->
                     1 <= mr_blockNumber rule <= 13
                     /\ exists a,
                          cellAt g (Z.to_nat (mr_blockNumber rule - 1))
                                 (fst x)
                          = Some (Some a) /\ T (rotationType a))
                  body l) with (g := g) (g' := g')
        as (Hg' & Hk & Hq); [| |exact Hg|exact Happ|]
  end.
  - intros g0 [i r] g1 Hg0 Hx. apply indexedResidents_lookup in Hx.
    cbn [fst snd].
    destruct (existsb (Z.eqb (pgyLevel r)) (mr_pgyLevels rule)) eqn:Ee.
    + intros Ha.
      pose proof (lookup_lt_Some _ _ _ Hx) as Hlt.
      assert (Hsrc : forall r', residents this !! i = Some r' ->
                       0 <= mr_blockNumber rule - 1 < 13 ->
                       rotationSource this
                         (Z.to_nat (mr_blockNumber rule - 1)) r'
                         (cellOf r' {| r_rotationName := mr_rotationName rule;
                                       r_rotationType := rtype;
                                       r_holidayType := None |})).
      { intros r' Hr' Hb. rewrite Hx in Hr'. injection Hr' as <-.
        apply existsb_pgy in Ee.
        unfold rotationSource, cellOf.
        cbn [ra_residentId rotationType rotationName holidayType
             r_rotationName r_rotationType r_holidayType].
        split; [reflexivity|].
        destruct Hrule as [[-> Hin]|[-> Hin]]; exists rule;
          (split; [exact Hin|]); (split; [lia|]);
          (split; [exact Ee|]); split; reflexivity. }
      match type of Ha with
      | assign _ _ ?bz _ ?rot = _ =>
          destruct (assign_sound T g0 g1 bz i rot Hg0 Hlt HT Hsrc Ha)
            as (Hg1 & Hk1 & Hb & a & Hcell)
      end.
      split; [exact Hg1|]. split; [exact Hk1|]. intros _.
      split; [lia|]. exists a. split; [exact Hcell|].
      destruct Hg1 as [_ Hc]. apply (Hc _ _ _ Hcell).
    + intros [= <-]. split; [exact Hg0|]. split; [apply keeps_refl|].
      intros Hin. apply existsb_pgy in Hin. congruence.
  - intros [i r] g0 g1 Hk H Hin. destruct (H Hin) as [Hb [a [Ha Hta]]].
    split; [exact Hb|]. exists a. split; [apply Hk; exact Ha|exact Hta].
  - split; [exact Hg'|]. split; [exact Hk|].
    intros i r Hr Hin.
    apply (Hq (i, r)); [apply indexedResidents_lookup; exact Hr|exact Hin].
Qed.

Lemma rules_sound (T : RotationType -> Prop) (rtype : RotationType)
    (rules : list MandatoryRule) (g g' : Grid) :
  sound this T g -> T rtype ->
  (rtype = MANDATORY_OFF_SERVICE
   /\ rules = mandatoryRotations (config this))
  \/ (rtype = EXAM_LEAVE /\ rules = examLeave (config this)) ->
  forEachM (applyRule this rtype) rules g = Some g' ->
  sound this T g' /\ keeps g g'
  /\ forall rule, In rule rules -> placed this T rule g'.
Proof.
  intros Hg HT Hrules Hloop.
  destruct (forEachM_grow (sound this T) (placed this T)
              (applyRule this rtype) rules) with (g := g) (g' := g')
    as (Hg' & Hk & Hq); [| |exact Hg|exact Hloop|].
  - intros g0 rule g1 Hg0 Hin. apply list_elem_of_In in Hin.
    apply applyRule_sound; [exact Hg0|exact HT|].
    destruct Hrules as [[-> ->]|[-> ->]]; [left|right]; tauto.
  - intros rule g0 g1. apply placed_keeps.
  - split; [exact Hg'|]. split; [exact Hk|].
    intros rule Hin. apply Hq. apply list_elem_of_In. exact Hin.
Qed.

Lemma emptySchedule_sound (T : RotationType -> Prop) :
  sound this T (emptySchedule this).
Proof.
  unfold emptySchedule. split.
  - split; [apply length_replicate|].
    intros b row H. apply lookup_replicate in H as [-> _].
    apply length_replicate.
  - intros b i a. unfold cellAt.
    destruct (replicate BLOCKS_PER_YEAR _ !! b) as [row|] eqn:E;
      [|discriminate].
    apply lookup_replicate in E as [-> _].
    intros H. apply lookup_replicate in H as [H _]. discriminate H.
Qed.

(** Phase 3. *)
Lemma phase3_sound (T : RotationType -> Prop) (g g' : Grid) :
  sound this T g -> T HOLIDAY_LEAVE ->
  phase3_AssignHolidayBlocks this g = Some g' ->
  sound this T g' /\ keeps g g'.
Proof.
  intros Hg HT Hp. unfold phase3_AssignHolidayBlocks in Hp. cbv zeta in Hp.
  match type of Hp with
  | forEachM ?body ?l g = Some g' =>
      destruct (forEachM_grow (sound this T) (fun _ _ => True) body l)
        with (g := g) (g' := g') as (Hg' & Hk & _);
        [| |exact Hg|exact Hp|]
  end.
  - intros g0 [idx [i r]] g1 Hg0 Hx. cbn [fst].
    apply elem_of_lookup_imap in Hx as [j [x [[= -> <-] Hx]]].
    apply list_elem_of_lookup_2, list_elem_of_In, sortDesc_In in Hx.
    apply filter_In in Hx as [Hx Hpgy]. cbn [snd] in Hpgy.
    apply Z.leb_le in Hpgy.
    apply list_elem_of_In, indexedResidents_lookup in Hx.
    pose proof (lookup_lt_Some _ _ _ Hx) as Hi.
    destruct (isSlotEmpty g0 ((if Nat.even j then 6 else 7) - 1) i)
      as [[|]|]; [|intros [= <-]; split; [exact Hg0|];
                    split; [apply keeps_refl|exact I]|discriminate].
    intros Ha.
    match type of Ha with
    | assign _ _ ?bz _ ?rot = _ =>
        assert (Hsrc : forall r', residents this !! i = Some r' ->
                         0 <= bz < 13 ->
                         rotationSource this (Z.to_nat bz) r' (cellOf r' rot))
    end.
    { intros r' Hr' Hb. rewrite Hx in Hr'. injection Hr' as <-.
      unfold rotationSource, cellOf.
      cbn [ra_residentId rotationType rotationName holidayType
           r_rotationName r_rotationType r_holidayType].
      split; [reflexivity|]. split; [exact Hpgy|]. split; [reflexivity|].
      destruct (Nat.even j); [left|right]; split; reflexivity. }
    match type of Ha with
    | assign _ _ ?bz _ ?rot = _ =>
        destruct (assign_sound T g0 g1 bz i rot Hg0 Hi HT Hsrc Ha)
          as (Hg1 & Hk1 & _)
    end.
    split; [exact Hg1|]. split; [exact Hk1|exact I].
  - intros; exact I.
  - split; assumption.
Qed.

(** Phase 4 fills every cell that is left. *)
Lemma phase4_sound (T : RotationType -> Prop) (g g' : Grid) :
  sound this T g -> T CORE_NSX ->
  phase4_AssignCoreNeurosurgeryRotations this g = Some g' ->
  sound this T g' /\ keeps g g' /\ full this g'.
Proof.
  intros Hg HT Hp. unfold phase4_AssignCoreNeurosurgeryRotations in Hp.
  match type of Hp with
  | forEachM ?body ?l g = Some g' =>
      destruct (forEachM_grow (sound this T)
                  (fun (b : nat) g =>
                     forall i, (i < length (residents this))%nat ->
                               exists a, cellAt g b i = Some (Some a))
                  body l)
        with (g := g) (g' := g') as (Hg' & Hk & Hq);
        [| |exact Hg|exact Hp|]
  end.
  - intros g0 b g1 Hg0 Hb Hrow. apply elem_of_seq in Hb.
    match type of Hrow with
    | forEachM ?body ?l g0 = Some g1 =>
        destruct (forEachM_grow (sound this T)
                    (fun (i : nat) g => exists a, cellAt g b i = Some (Some a))
                    body l)
          with (g := g0) (g' := g1) as (Hg1 & Hk1 & Hq1);
          [| |exact Hg0|exact Hrow|]
    end.
    + intros h0 i h1 Hh0 Hi. apply elem_of_seq in Hi.
      assert (Hi' : (i < length (residents this))%nat) by lia.
      destruct (isSlotEmpty h0 (Z.of_nat b) i) as [[|]|] eqn:Ee;
        [| |discriminate].
      * intros Ha.
        match type of Ha with
        | assign _ _ ?bz _ ?rot = _ =>
            assert (Hsrc : forall r', residents this !! i = Some r' ->
                             0 <= bz < 13 ->
                             rotationSource this (Z.to_nat bz) r'
                               (cellOf r' rot))
        end.
        { intros r Hr _. unfold rotationSource, cellOf.
          cbn [ra_residentId rotationType rotationName holidayType
               r_rotationName r_rotationType r_holidayType].
          repeat split. }
        match type of Ha with
        | assign _ _ ?bz _ ?rot = _ =>
            destruct (assign_sound T h0 h1 bz i rot Hh0 Hi' HT Hsrc Ha)
              as (Hh1 & Hkh & _ & a & Hcell)
        end.
        split; [exact Hh1|]. split; [exact Hkh|].
        exists a. rewrite Nat2Z.id in Hcell. exact Hcell.
      * intros [= <-]. split; [exact Hh0|]. split; [apply keeps_refl|].
        destruct Hh0 as [Hs _].
        apply (isSlotEmpty_Some h0 _ i false Hs Hi') in Ee as [_ Hc].
        rewrite Nat2Z.id in Hc. exact Hc.
    + intros i h0 h1 Hkh [a Ha]. exists a. apply Hkh. exact Ha.
    + split; [exact Hg1|]. split; [exact Hk1|].
      intros i Hi. apply Hq1. apply elem_of_seq. lia.
  - intros b g0 g1 Hk0 H i Hi. destruct (H i Hi) as [a Ha].
    exists a. apply Hk0. exact Ha.
  - split; [exact Hg'|]. split; [exact Hk|].
    intros b i Hb Hi. apply Hq; [apply elem_of_seq; lia|exact Hi].
Qed.

(** The grid after phases 1 to 4. *)
Lemma phases_spec (g1 g2 g3 g4 : Grid) :
  phase1_AssignMandatoryRotations this (emptySchedule this) = Some g1 ->
  phase2_AssignExamBlocks this g1 = Some g2 ->
  phase3_AssignHolidayBlocks this g2 = Some g3 ->
  phase4_AssignCoreNeurosurgeryRotations this g3 = Some g4 ->
  sound this (fun _ => True) g4 /\ full this g4
  /\ (forall rule, In rule (mandatoryRotations (config this)) ->
                   placed this isMandatory rule g4)
  /\ (forall rule, In rule (examLeave (config this)) ->
                   placed this isMandatoryOrExam rule g4).
Proof.
  intros H1 H2 H3 H4.
  destruct (rules_sound isMandatory MANDATORY_OFF_SERVICE
              (mandatoryRotations (config this)) (emptySchedule this) g1
              (emptySchedule_sound _)) as (S1 & _ & P1);
    [reflexivity|left; split; reflexivity|exact H1|].
  apply (sound_weaken _ isMandatoryOrExam) in S1; [|intros t Ht; left; exact Ht].
  destruct (rules_sound isMandatoryOrExam EXAM_LEAVE
              (examLeave (config this)) g1 g2 S1)
    as (S2 & K2 & P2);
    [right; reflexivity|right; split; reflexivity|exact H2|].
  apply (sound_weaken _ (fun _ => True)) in S2; [|intros; exact I].
  destruct (phase3_sound _ _ g3 S2 I H3) as (S3 & K3).
  destruct (phase4_sound _ _ g4 S3 I H4) as (S4 & K4 & F4).
  split; [exact S4|]. split; [exact F4|]. split.
  - intros rule Hin. eapply placed_keeps; [|apply P1; exact Hin].
    eapply keeps_trans; [exact K2|]. eapply keeps_trans; eassumption.
  - intros rule Hin. eapply placed_keeps; [|apply P2; exact Hin].
    eapply keeps_trans; eassumption.
Qed.


(** Phase 6 and the formatting. *)
Lemma assignTeams_lookup (row : list (option RotationAssignment)) :
  forall red blue i,
    match row !! i with
    | Some (Some a) =>
        exists a', assignTeams red blue row !! i = Some (Some a')
                   /\ retag a a'
    | Some None => assignTeams red blue row !! i = Some None
    | None => assignTeams red blue row !! i = None
    end.
Proof.
  induction row as [|cell row IH]; intros red blue i; [reflexivity|].
  destruct i as [|i].
  - cbn [lookup list_lookup]. destruct cell as [a|]; cbn [assignTeams].
    + destruct (isCore a && bool_decide (team a = None)).
      * destruct (red <=? blue); cbn [lookup list_lookup];
          eexists; (split; [reflexivity|]); right; eexists; reflexivity.
      * cbn [lookup list_lookup]. exists a. split; [reflexivity|left].
        reflexivity.
    + reflexivity.
  - change ((cell :: row) !! S i) with (row !! i).
    destruct cell as [a|]; cbn [assignTeams].
    + destruct (isCore a && bool_decide (team a = None)).
      * destruct (red <=? blue).
        -- change ((Some (setTeam Red a)
                    :: assignTeams (red + 1) blue row) !! S i)
             with (assignTeams (red + 1) blue row !! i). apply IH.
        -- change ((Some (setTeam Blue a)
                    :: assignTeams red (blue + 1) row) !! S i)
             with (assignTeams red (blue + 1) row !! i). apply IH.
      * change ((Some a :: assignTeams red blue row) !! S i)
          with (assignTeams red blue row !! i). apply IH.
    + change ((None :: assignTeams red blue row) !! S i)
        with (assignTeams red blue row !! i). apply IH.
Qed.

Lemma phase6_cell (g : Grid) (n i : nat) :
  (n < BLOCKS_PER_YEAR)%nat ->
  match cellAt g n i with
  | Some (Some a) =>
      exists a', cellAt (phase6_BalanceTeams g) n i = Some (Some a')
                 /\ retag a a'
  | Some None => cellAt (phase6_BalanceTeams g) n i = Some None
  | None => cellAt (phase6_BalanceTeams g) n i = None
  end.
Proof.
  intros Hn. unfold cellAt. rewrite phase6_lookup by exact Hn.
  destruct (g !! n) as [row|]; [|reflexivity].
  cbn [fmap option_fmap option_map]. unfold balanceBlock.
  apply assignTeams_lookup.
Qed.

Lemma lookup_map {A B : Type} (f : A -> B) (l : list A) (i : nat) :
  map f l !! i = f <$> l !! i.
Proof.
  revert i. induction l as [|x l IH]; intros [|i]; try reflexivity.
  apply IH.
Qed.

Lemma omap_lookup_full {A : Type} (row : list (option A)) :
  (forall i, (i < length row)%nat -> exists a, row !! i = Some (Some a)) ->
  forall i,
    omap (fun cell => cell) row !! i
    = match row !! i with Some cell => cell | None => None end.
Proof.
  induction row as [|cell row IH]; intros Hfull i; [reflexivity|].
  destruct (Hfull 0%nat) as [a Ha]; [cbn; lia|].
  injection Ha as ->. cbn [omap list_omap].
  destruct i as [|i]; [reflexivity|].
  apply IH. intros j Hj. apply (Hfull (S j)). cbn. lia.
Qed.

Lemma retag_source (b : nat) (r : Resident) (a a' : RotationAssignment) :
  retag a a' -> rotationSource this b r a -> rotationSource this b r a'.
Proof. intros [->|[t ->]] H; exact H. Qed.

Lemma retag_type (a a' : RotationAssignment) :
  retag a a' -> rotationType a' = rotationType a.
Proof. intros [->|[t ->]]; reflexivity. Qed.

Lemma format_block (g : Grid) (n : nat) (b : RotationBlock) :
  blocks (formatScheduleForFirestore this g) !! n = Some b ->
  (n < BLOCKS_PER_YEAR)%nat
  /\ blockNumber b = Z.of_nat n + 1
  /\ startDate b = JS.newDate (startYear this) 6 1 + 28 * Z.of_nat n
  /\ endDate b = startDate b + 27
  /\ assignments b = omap (fun cell => cell) (default [] (g !! n)).
Proof.
  unfold formatScheduleForFirestore. cbn [blocks]. cbv zeta.
  rewrite lookup_map.
  destruct (seq 0 BLOCKS_PER_YEAR !! n) as [m|] eqn:E; [|discriminate].
  apply lookup_seq in E as [-> Hn]. cbn [fmap option_fmap option_map].
  intros [= <-]. cbn [blockNumber startDate endDate assignments].
  split; [exact Hn|]. split; [reflexivity|].
  unfold generateBlockDates. rewrite lookup_map.
  rewrite (lookup_seq_lt 0 BLOCKS_PER_YEAR n Hn).
  cbn [fmap option_fmap option_map from_option Nat.add].
  unfold Datatypes.id, DAYS_PER_BLOCK. cbn [fst snd].
  split; [lia|]. split; [lia|reflexivity].
Qed.

Lemma format_block_lookup (g : Grid) (n : nat) :
  (n < BLOCKS_PER_YEAR)%nat ->
  exists b, blocks (formatScheduleForFirestore this g) !! n = Some b.
Proof.
  intros Hn. unfold formatScheduleForFirestore. cbn [blocks]. cbv zeta.
  rewrite lookup_map, (lookup_seq_lt 0 BLOCKS_PER_YEAR n Hn).
  eexists. reflexivity.
Qed.

(** The rows of the academic year, cell by cell. *)
Lemma final_assignments (g4 : Grid) (n i : nat) :
  sound this (fun _ => True) g4 -> full this g4 ->
  (n < BLOCKS_PER_YEAR)%nat ->
  match residents this !! i with
  | Some r =>
      exists a a',
        cellAt g4 n i = Some (Some a) /\ retag a a'
        /\ rotationSource this n r a
        /\ omap (fun cell => cell)
                (default [] (phase6_BalanceTeams g4 !! n)) !! i = Some a'
  | None =>
      omap (fun cell => cell)
           (default [] (phase6_BalanceTeams g4 !! n)) !! i = None
  end.
Proof.
  intros [[Hlen Hrows] Hcells] Hfull Hn.
  destruct (lookup_lt_is_Some_2 g4 n) as [row4 Hrow4]; [lia|].
  pose proof (Hrows _ _ Hrow4) as Hlen4.
  assert (Hcell6 : forall j,
             cellAt (phase6_BalanceTeams g4) n j
             = default [] (phase6_BalanceTeams g4 !! n) !! j).
  { intros j. unfold cellAt.
    destruct (phase6_BalanceTeams g4 !! n); reflexivity. }
  assert (Hfull6 : forall j,
             (j < length (default [] (phase6_BalanceTeams g4 !! n)))%nat ->
             exists a, default [] (phase6_BalanceTeams g4 !! n) !! j
                       = Some (Some a)).
  { intros j Hj. pose proof (phase6_cell g4 n j Hn) as H6.
    destruct (decide (j < length (residents this))%nat) as [Hlt|Hge].
    - destruct (Hfull n j Hn Hlt) as [a Ha]. rewrite Ha in H6.
      destruct H6 as [a' [H6 _]]. exists a'. rewrite <- Hcell6. exact H6.
    - assert (Hnone : cellAt g4 n j = None).
      { unfold cellAt. rewrite Hrow4. apply lookup_ge_None. lia. }
      rewrite Hnone, Hcell6 in H6. apply lookup_ge_None in H6. lia. }
  rewrite (omap_lookup_full _ Hfull6).
  pose proof (phase6_cell g4 n i Hn) as H6.
  destruct (residents this !! i) as [r|] eqn:Er.
  - destruct (Hfull n i Hn (lookup_lt_Some _ _ _ Er)) as [a Ha].
    rewrite Ha in H6. destruct H6 as [a' [H6 Hre]].
    destruct (Hcells n i a Ha) as (_ & _ & r' & Hr' & Hsrc).
    rewrite Er in Hr'. injection Hr' as <-.
    exists a, a'. split; [exact Ha|]. split; [exact Hre|].
    split; [exact Hsrc|]. rewrite <- Hcell6, H6. reflexivity.
  - assert (Hnone : cellAt g4 n i = None).
    { unfold cellAt. rewrite Hrow4. apply lookup_ge_None.
      apply lookup_ge_None in Er. lia. }
    rewrite Hnone, Hcell6 in H6. rewrite H6. reflexivity.
Qed.

Lemma generateSchedule_phases (ay : AcademicYear) :
  generateSchedule this = Some ay ->
  exists g1 g2 g3 g4,
    phase1_AssignMandatoryRotations this (emptySchedule this) = Some g1
    /\ phase2_AssignExamBlocks this g1 = Some g2
    /\ phase3_AssignHolidayBlocks this g2 = Some g3
    /\ phase4_AssignCoreNeurosurgeryRotations this g3 = Some g4
    /\ ay = formatScheduleForFirestore this (phase6_BalanceTeams g4).
Proof.
  unfold generateSchedule.
  destruct (phase1_AssignMandatoryRotations this (emptySchedule this))
    as [g1|] eqn:H1; [|discriminate].
  destruct (phase2_AssignExamBlocks this g1) as [g2|] eqn:H2;
    [|discriminate].
  destruct (phase3_AssignHolidayBlocks this g2) as [g3|] eqn:H3;
    [|discriminate].
  destruct (phase4_AssignCoreNeurosurgeryRotations this g3) as [g4|] eqn:H4;
    [|discriminate].
  intros [= <-]. exists g1, g2, g3, g4.
  split; [reflexivity|]. split; [exact H2|]. split; [exact H3|].
  split; [exact H4|reflexivity].
Qed.

(** The academic year the engine returns, row by row. *)
Lemma generateSchedule_rows (ay : AcademicYear) :
  generateSchedule this = Some ay ->
  (forall n, (n < 13)%nat -> is_Some (blocks ay !! n))
  /\ (forall n b, blocks ay !! n = Some b ->
        (n < 13)%nat
        /\ blockNumber b = Z.of_nat n + 1
        /\ startDate b = JS.newDate (startYear this) 6 1 + 28 * Z.of_nat n
        /\ endDate b = startDate b + 27
        /\ forall i,
             match residents this !! i with
             | Some r =>
                 exists a, assignments b !! i = Some a
                           /\ rotationSource this n r a
             | None => assignments b !! i = None
             end)
  /\ (forall rule i r,
        residents this !! i = Some r ->
        In (pgyLevel r) (mr_pgyLevels rule) ->
        (In rule (mandatoryRotations (config this)) ->
         1 <= mr_blockNumber rule <= 13
         /\ exists b a,
              blocks ay !! Z.to_nat (mr_blockNumber rule - 1) = Some b
              /\ assignments b !! i = Some a
              /\ rotationType a = MANDATORY_OFF_SERVICE)
        /\ (In rule (examLeave (config this)) ->
            1 <= mr_blockNumber rule <= 13
            /\ exists b a,
                 blocks ay !! Z.to_nat (mr_blockNumber rule - 1) = Some b
                 /\ assignments b !! i = Some a
                 /\ (rotationType a = MANDATORY_OFF_SERVICE
                     \/ rotationType a = EXAM_LEAVE))).
Proof.
  intros Hgen.
  destruct (generateSchedule_phases ay Hgen)
    as (g1 & g2 & g3 & g4 & H1 & H2 & H3 & H4 & ->).
  destruct (phases_spec g1 g2 g3 g4 H1 H2 H3 H4) as (S4 & F4 & P1 & P2).
  split; [|split].
  - intros n Hn. destruct (format_block_lookup (phase6_BalanceTeams g4) n)
      as [b Hb]; [unfold BLOCKS_PER_YEAR; lia|]. exists b. exact Hb.
  - intros n b Hb. apply format_block in Hb as (Hn & Hnum & Hs & He & Has).
    split; [unfold BLOCKS_PER_YEAR in Hn; lia|].
    split; [exact Hnum|]. split; [exact Hs|]. split; [exact He|].
    intros i. pose proof (final_assignments g4 n i S4 F4 Hn) as Hf.
    rewrite Has. destruct (residents this !! i) as [r|]; [|exact Hf].
    destruct Hf as (a & a' & _ & Hre & Hsrc & Ha').
    exists a'. split; [exact Ha'|]. eapply retag_source; eassumption.
  - assert (Hplaced : forall (T : RotationType -> Prop) rule i r,
               placed this T rule g4 ->
               residents this !! i = Some r ->
               In (pgyLevel r) (mr_pgyLevels rule) ->
               1 <= mr_blockNumber rule <= 13
               /\ exists b a,
                    blocks (formatScheduleForFirestore this
                              (phase6_BalanceTeams g4))
                      !! Z.to_nat (mr_blockNumber rule - 1) = Some b
                    /\ assignments b !! i = Some a
                    /\ T (rotationType a)).
    { intros T rule i r Hp Hr Hin.
      destruct (Hp i r Hr Hin) as [Hb [a [Ha HT]]].
      split; [exact Hb|].
      assert (Hn : (Z.to_nat (mr_blockNumber rule - 1) < BLOCKS_PER_YEAR)%nat)
        by (unfold BLOCKS_PER_YEAR; lia).
      destruct (format_block_lookup (phase6_BalanceTeams g4) _ Hn)
        as [b Hblock].
      exists b.
      pose proof (final_assignments g4 _ i S4 F4 Hn) as Hf.
      rewrite Hr in Hf. destruct Hf as (a0 & a' & Ha0 & Hre & _ & Ha').
      rewrite Ha in Ha0. injection Ha0 as <-.
      exists a'. split; [exact Hblock|].
      apply format_block in Hblock as (_ & _ & _ & _ & ->).
      split; [exact Ha'|]. rewrite (retag_type _ _ Hre). exact HT. }
    intros rule i r Hr Hin. split; intros Hrule.
    + apply (Hplaced isMandatory rule i r (P1 rule Hrule) Hr Hin).
    + apply (Hplaced isMandatoryOrExam rule i r (P2 rule Hrule) Hr Hin).
Qed.

End YearlyGrid.

Section YearlyFailure.
Import YearlyScheduleEngine.
Variable this : Engine.

Lemma forEachM_fails {S A : Type} (I : S -> Prop)
    (body : S -> A -> option S) (l : list A) (x : A) :
  (forall s y s', I s -> body s y = Some s' -> I s') ->
  x ∈ l -> (forall s, I s -> body s x = None) ->
  forall s, I s -> forEachM body l s = None.
Proof.
  intros Hbody Hx Hnone. induction l as [|y l IH]; intros s Hs.
  - apply elem_of_nil in Hx. destruct Hx.
  - cbn [forEachM]. apply elem_of_cons in Hx as [<-|Hx].
    + rewrite (Hnone s Hs). reflexivity.
    + destruct (body s y) as [s'|] eqn:E; [|reflexivity].
      apply IH; [exact Hx|]. eapply Hbody; eassumption.
Qed.

Lemma assign_length (g g' : Grid) (bz : Z) (i : nat) (rotation : Rotation) :
  length g = BLOCKS_PER_YEAR ->
  assign this g bz i rotation = Some g' -> length g' = BLOCKS_PER_YEAR.
Proof.
  intros Hg. unfold assign.
  destruct (isSlotEmpty g bz i) as [[|]|]; [|congruence|discriminate].
  destruct (residents this !! i); [|discriminate].
  intros [= <-]. rewrite length_alter. exact Hg.
Qed.

Lemma applyRule_length (rtype : RotationType) (g g' : Grid)
    (rule : MandatoryRule) :
  length g = BLOCKS_PER_YEAR ->
  applyRule this rtype g rule = Some g' -> length g' = BLOCKS_PER_YEAR.
Proof.
  intros Hg. unfold applyRule.
  apply (forEachM_invariant (fun h : Grid => length h = BLOCKS_PER_YEAR));
    [|exact Hg].
  intros h [i r] h' Hh _.
  destruct (existsb _ _); [apply assign_length; exact Hh|congruence].
Qed.

Lemma failingb_spec (rule : MandatoryRule) :
  failingb this rule = true <-> failing this rule.
Proof.
  unfold failingb, failing, blockInRange, ruleMatches.
  rewrite andb_true_iff, negb_true_iff, andb_false_iff, !Z.leb_gt.
  rewrite existsb_exists. split.
  - intros [Hb [r [Hr Hin]]]. split; [lia|].
    exists r. split; [exact Hr|]. apply existsb_pgy. exact Hin.
  - intros [Hb [r [Hr Hin]]]. split; [lia|].
    exists r. split; [exact Hr|]. apply existsb_pgy. exact Hin.
Qed.

Lemma applyRule_fails (rtype : RotationType) (g : Grid)
    (rule : MandatoryRule) :
  length g = BLOCKS_PER_YEAR -> failing this rule ->
  applyRule this rtype g rule = None.
Proof.
  intros Hg [Hrange [r [Hr Hin]]]. unfold applyRule.
  apply list_elem_of_In, list_elem_of_lookup_1 in Hr as [i Hi].
  apply (forEachM_fails (fun h => length h = BLOCKS_PER_YEAR) _ _ (i, r));
    [| |
     |exact Hg].
  - intros h [j r'] h' Hh.
    destruct (existsb _ _); [apply assign_length; exact Hh|congruence].
  - apply indexedResidents_lookup. exact Hi.
  - intros h Hh. rewrite (proj2 (existsb_pgy r rule) Hin).
    unfold assign, isSlotEmpty. unfold blockInRange in Hrange.
    destruct (Z.ltb_spec (mr_blockNumber rule - 1) 0); [reflexivity|].
    rewrite (proj2 (lookup_ge_None h _)); [reflexivity|].
    rewrite Hh. unfold BLOCKS_PER_YEAR. lia.
Qed.

Lemma rules_fail (rtype : RotationType) (rules : list MandatoryRule)
    (rule : MandatoryRule) (g : Grid) :
  length g = BLOCKS_PER_YEAR -> In rule rules -> failing this rule ->
  forEachM (applyRule this rtype) rules g = None.
Proof.
  intros Hg Hin Hf.
  apply (forEachM_fails (fun h => length h = BLOCKS_PER_YEAR) _ _ rule);
    [| | |exact Hg].
  - intros h y h' Hh. apply applyRule_length. exact Hh.
  - apply list_elem_of_In. exact Hin.
  - intros h Hh. apply applyRule_fails; assumption.
Qed.

Lemma applyRule_defined_weak (rtype : RotationType) (g : Grid)
    (rule : MandatoryRule) :
  ~ failing this rule -> length g = BLOCKS_PER_YEAR ->
  exists g', applyRule this rtype g rule = Some g'
             /\ length g' = BLOCKS_PER_YEAR.
Proof.
  intros Hnf Hg.
  destruct (decide (1 <= mr_blockNumber rule <= 13)) as [Hr|Hr];
    [apply applyRule_defined; assumption|].
  unfold applyRule.
  apply (forEachM_defined (fun g => length g = BLOCKS_PER_YEAR)); [|exact Hg].
  intros h [i r] Hh Hx. apply indexedResidents_lookup in Hx.
  destruct (existsb (Z.eqb (pgyLevel r)) (mr_pgyLevels rule)) eqn:E.
  - exfalso. apply Hnf. split; [exact Hr|].
    exists r. split; [|apply existsb_pgy; exact E].
    apply list_elem_of_In. eapply list_elem_of_lookup_2. exact Hx.
  - exists h. split; [reflexivity|exact Hh].
Qed.

Lemma rules_defined (rtype : RotationType) (rules : list MandatoryRule)
    (g : Grid) :
  (forall rule, In rule rules -> ~ failing this rule) ->
  length g = BLOCKS_PER_YEAR ->
  exists g', forEachM (applyRule this rtype) rules g = Some g'
             /\ length g' = BLOCKS_PER_YEAR.
Proof.
  intros Hok Hg.
  apply (forEachM_defined (fun g => length g = BLOCKS_PER_YEAR)); [|exact Hg].
  intros h rule Hh Hin. apply applyRule_defined_weak; [|exact Hh].
  apply Hok. apply list_elem_of_In. exact Hin.
Qed.

Lemma phases34_defined (g2 : Grid) :
  length g2 = BLOCKS_PER_YEAR ->
  exists g3 g4,
    phase3_AssignHolidayBlocks this g2 = Some g3
    /\ phase4_AssignCoreNeurosurgeryRotations this g3 = Some g4.
Proof.
  intros L2.
  unfold phase3_AssignHolidayBlocks.
  match goal with
  | |- exists g3 g4, forEachM ?body ?l g2 = Some g3 /\ _ =>
      destruct (forEachM_defined (fun g : Grid => length g = BLOCKS_PER_YEAR)
                  body l) with (s := g2) as [g3 [H3 L3]]
  end.
  { intros h [idx [resIndex senior]] Hs Hin. cbv zeta. cbn [fst].
    apply elem_of_lookup_imap in Hin as [i [x [Heq Hx]]].
    injection Heq as -> <-.
    apply list_elem_of_lookup_2 in Hx.
    apply list_elem_of_In in Hx.
    apply sortDesc_In in Hx. apply filter_In in Hx as [Hx _].
    apply list_elem_of_In in Hx. apply indexedResidents_lt in Hx.
    assert (Hblock : 0 <= (if Nat.even i then 6 else 7) - 1 < 13)
      by (destruct (Nat.even i); lia).
    destruct (isSlotEmpty_defined h ((if Nat.even i then 6 else 7) - 1)
                resIndex Hs Hblock) as [[|] ->].
    - apply assign_defined; assumption.
    - exists h. split; [reflexivity|exact Hs]. }
  { exact L2. }
  exists g3.
  unfold phase4_AssignCoreNeurosurgeryRotations.
  match goal with
  | |- exists g4, _ /\ forEachM ?body ?l g3 = Some g4 =>
      destruct (forEachM_defined (fun g : Grid => length g = BLOCKS_PER_YEAR)
                  body l) with (s := g3) as [g4 [H4 L4]]
  end.
  { intros h block Hs Hin. apply elem_of_seq in Hin.
    apply (forEachM_defined (fun g : Grid => length g = BLOCKS_PER_YEAR));
      [|exact Hs].
    intros t resIndex Ht Hi. apply elem_of_seq in Hi.
    assert (Hblock : 0 <= Z.of_nat block < 13)
      by (unfold BLOCKS_PER_YEAR in Hin; lia).
    destruct (isSlotEmpty_defined t (Z.of_nat block) resIndex Ht Hblock)
      as [[|] ->].
    - apply assign_defined; [assumption|assumption|lia].
    - exists t. split; [reflexivity|exact Ht]. }
  { exact L3. }
  exists g4. split; [exact H3|exact H4].
Qed.

Lemma generateSchedule_fails :
  generateSchedule this = None
  <-> exists rule,
        (In rule (mandatoryRotations (config this))
         \/ In rule (examLeave (config this)))
        /\ failing this rule.
Proof.
  assert (L0 : length (emptySchedule this) = BLOCKS_PER_YEAR)
    by (unfold emptySchedule; apply length_replicate).
  split.
  - intros Hnone.
    destruct (existsb (failingb this)
                (mandatoryRotations (config this)
                 ++ examLeave (config this))) eqn:E.
    + apply existsb_exists in E as [rule [Hin Hf]].
      exists rule. split; [apply in_app_or; exact Hin|].
      apply failingb_spec. exact Hf.
    + exfalso.
      assert (Hok : forall rule,
                 In rule (mandatoryRotations (config this)
                          ++ examLeave (config this)) ->
                 ~ failing this rule).
      { intros rule Hin Hf. apply failingb_spec in Hf.
        assert (Ht : existsb (failingb this)
                       (mandatoryRotations (config this)
                        ++ examLeave (config this)) = true)
          by (apply existsb_exists; exists rule; split; assumption).
        congruence. }
      destruct (rules_defined MANDATORY_OFF_SERVICE
                  (mandatoryRotations (config this)) (emptySchedule this))
        as [g1 [H1 L1]];
        [intros rule Hin; apply Hok, in_or_app; left; exact Hin|exact L0|].
      destruct (rules_defined EXAM_LEAVE (examLeave (config this)) g1)
        as [g2 [H2 L2]];
        [intros rule Hin; apply Hok, in_or_app; right; exact Hin|exact L1|].
      destruct (phases34_defined g2 L2) as [g3 [g4 [H3 H4]]].
      unfold generateSchedule in Hnone.
      unfold phase1_AssignMandatoryRotations, phase2_AssignExamBlocks
        in Hnone.
      rewrite H1, H2, H3, H4 in Hnone. discriminate Hnone.
  - intros [rule [[Hin|Hin] Hf]]; unfold generateSchedule.
    + unfold phase1_AssignMandatoryRotations.
      rewrite (rules_fail MANDATORY_OFF_SERVICE _ rule _ L0 Hin Hf).
      reflexivity.
    + destruct (phase1_AssignMandatoryRotations this (emptySchedule this))
        as [g1|] eqn:H1; [|reflexivity].
      assert (L1 : length g1 = BLOCKS_PER_YEAR).
      { revert H1. unfold phase1_AssignMandatoryRotations.
        apply (forEachM_invariant
                 (fun h : Grid => length h = BLOCKS_PER_YEAR)); [|exact L0].
        intros h y h' Hh _. apply applyRule_length. exact Hh. }
      unfold phase2_AssignExamBlocks.
      rewrite (rules_fail EXAM_LEAVE _ rule _ L1 Hin Hf). reflexivity.
Qed.

End YearlyFailure.

Section YearlyGuarantees.
Import YearlyScheduleEngine.
Variable this : Engine.
Variable ay : AcademicYear.
Hypothesis Hgen : generateSchedule this = Some ay.

Lemma generateSchedule_ids (n : nat) (b : RotationBlock) :
  blocks ay !! n = Some b ->
  map ra_residentId (assignments b) = map id (residents this).
Proof.
  intros Hb.
  destruct (generateSchedule_rows this ay Hgen) as (_ & Hrows & _).
  destruct (Hrows n b Hb) as (_ & _ & _ & _ & Hcells).
  apply list_eq. intros i. rewrite !lookup_map.
  specialize (Hcells i).
  destruct (residents this !! i) as [r|].
  - destruct Hcells as (a & -> & Hid & _). cbn. rewrite Hid. reflexivity.
  - rewrite Hcells. reflexivity.
Qed.

End YearlyGuarantees.

Section YearlyTheorems.
Import YearlyScheduleEngine.

(** X20. The academic year the engine returns numbers its blocks
    from 1; block [n + 1] starts [28 n] days after July 1st of the start
    year and ends 27 days later; and every block has one row per resident,
    in the order of the roster. *)
Theorem yearly_blocks_and_rows (this : Engine) (ay : AcademicYear) :
  generateSchedule this = Some ay ->
  forall n b, blocks ay !! n = Some b ->
    (n < 13)%nat
    /\ blockNumber b = Z.of_nat n + 1
    /\ startDate b = JS.newDate (startYear this) 6 1 + 28 * Z.of_nat n
    /\ endDate b = startDate b + 27
    /\ map ra_residentId (assignments b) = map id (residents this).
Proof.
  intros Hgen n b Hb.
  destruct (generateSchedule_rows this ay Hgen) as (_ & Hrows & _).
  destruct (Hrows n b Hb) as (H1 & H2 & H3 & H4 & _).
  split; [exact H1|]. split; [exact H2|]. split; [exact H3|].
  split; [exact H4|]. eapply generateSchedule_ids; eassumption.
Qed.

Lemma yearly_blocks_and_rows_witness :
  exists b, blocks Examples.year2025 !! 1%nat = Some b
            /\ blockNumber b = 2
            /\ map ra_residentId (assignments b)
               = map id (residents Examples.engine5).
Proof.
  destruct (blocks Examples.year2025 !! 1%nat) as [b|] eqn:E.
  - exists b. split; [reflexivity|].
    assert (Hgen : generateSchedule Examples.engine5 = Some Examples.year2025)
      by (vm_compute; reflexivity).
    destruct (yearly_blocks_and_rows Examples.engine5 Examples.year2025 Hgen
                1%nat b E) as (_ & H2 & _ & _ & H5).
    split; [exact H2|exact H5].
  - exfalso. vm_compute in E. discriminate E.
Defined.

(** X21. Every row of the academic year has a source: the row of
    the resident at index [i] of the roster in block [n + 1] is an
    off-service or exam-leave rotation named by a rule of the
    configuration for that block and that PGY level, or the holiday leave
    of a resident of PGY 4 or more in block 6 (Christmas) or 7 (New Year),
    or the core neurosurgery rotation. *)
Theorem yearly_rotation_sources (this : Engine) (ay : AcademicYear) :
  generateSchedule this = Some ay ->
  forall n b i a,
    blocks ay !! n = Some b -> assignments b !! i = Some a ->
    exists r, residents this !! i = Some r /\ rotationSource this n r a.
Proof.
  intros Hgen n b i a Hb Ha.
  destruct (generateSchedule_rows this ay Hgen) as (_ & Hrows & _).
  destruct (Hrows n b Hb) as (_ & _ & _ & _ & Hcells).
  specialize (Hcells i). destruct (residents this !! i) as [r|].
  - destruct Hcells as (a' & Ha' & Hsrc). rewrite Ha in Ha'.
    injection Ha' as <-. exists r. split; [reflexivity|exact Hsrc].
  - rewrite Ha in Hcells. discriminate Hcells.
Qed.

Lemma yearly_rotation_sources_witness :
  exists b a r,
    blocks Examples.year2025 !! 1%nat = Some b
    /\ assignments b !! 0%nat = Some a
    /\ residents Examples.engine5 !! 0%nat = Some r
    /\ rotationSource Examples.engine5 1 r a.
Proof.
  destruct (blocks Examples.year2025 !! 1%nat) as [b|] eqn:E;
    [|exfalso; vm_compute in E; discriminate E].
  destruct (assignments b !! 0%nat) as [a|] eqn:Ea;
    [|exfalso; vm_compute in E; injection E as <-; discriminate Ea].
  assert (Hgen : generateSchedule Examples.engine5 = Some Examples.year2025)
    by (vm_compute; reflexivity).
  destruct (yearly_rotation_sources Examples.engine5 Examples.year2025 Hgen
              1%nat b 0%nat a E Ea) as [r [Hr Hsrc]].
  exists b, a, r. split; [reflexivity|]. split; [exact Ea|].
  split; [exact Hr|exact Hsrc].
Defined.

(** X22. When the engine returns an academic year, every rule that
    lists the PGY level of a resident names a block of the year, and the
    rules are honoured in the order of the phases: the residents a
    mandatory-rotation rule names are off service in its block, and the
    residents an exam-leave rule names are on exam leave in its block
    unless a mandatory rotation holds the slot. *)
Theorem yearly_rules_honoured (this : Engine) (ay : AcademicYear) :
  generateSchedule this = Some ay ->
  forall rule i r,
    residents this !! i = Some r ->
    In (pgyLevel r) (mr_pgyLevels rule) ->
    (In rule (mandatoryRotations (config this)) ->
     1 <= mr_blockNumber rule <= 13
     /\ exists b a,
          blocks ay !! Z.to_nat (mr_blockNumber rule - 1) = Some b
          /\ assignments b !! i = Some a
          /\ rotationType a = MANDATORY_OFF_SERVICE)
    /\ (In rule (examLeave (config this)) ->
        1 <= mr_blockNumber rule <= 13
        /\ exists b a,
             blocks ay !! Z.to_nat (mr_blockNumber rule - 1) = Some b
             /\ assignments b !! i = Some a
             /\ (rotationType a = MANDATORY_OFF_SERVICE
                 \/ rotationType a = EXAM_LEAVE)).
Proof.
  intros Hgen.
  destruct (generateSchedule_rows this ay Hgen) as (_ & _ & Hrules).
  exact Hrules.
Qed.

Lemma yearly_rules_honoured_witness :
  exists b a,
    blocks Examples.year2025 !! 1%nat = Some b
    /\ assignments b !! 0%nat = Some a
    /\ rotationType a = MANDATORY_OFF_SERVICE.
Proof.
  assert (Hgen : generateSchedule Examples.engine5 = Some Examples.year2025)
    by (vm_compute; reflexivity).
  destruct (yearly_rules_honoured Examples.engine5 Examples.year2025 Hgen
              {| mr_blockNumber := 2; mr_pgyLevels := [1];
                 mr_rotationName := "Neurology" |}
              0%nat (Examples.resident "r1" 1)) as [H _].
  - reflexivity.
  - left. reflexivity.
  - destruct H as [_ H]; [left; reflexivity|]. exact H.
Defined.

(** X23. The engine throws exactly when some mandatory-rotation or
    exam-leave rule lists the PGY level of a resident of the roster and
    names a block outside 1 to 13; in every other case it returns an
    academic year. *)
Theorem yearly_fails_iff (this : Engine) :
  generateSchedule this = None
  <-> exists rule,
        (In rule (mandatoryRotations (config this))
         \/ In rule (examLeave (config this)))
        /\ failing this rule.
Proof. apply generateSchedule_fails. Qed.

Lemma yearly_fails_iff_witness :
  generateSchedule Examples.engineBlock14 = None.
Proof.
  apply (proj2 (yearly_fails_iff Examples.engineBlock14)).
  exists Examples.block14Rule. split; [left; left; reflexivity|].
  split.
  - unfold blockInRange. cbn. lia.
  - exists (Examples.resident "r1" 1).
    split; left; reflexivity.
Defined.

Section YearToMonth.
Import MonthlyCallScheduler.

Lemma blocks_span (engine : Engine) (ay : AcademicYear) (b : RotationBlock) :
  YearlyScheduleEngine.generateSchedule engine = Some ay ->
  In b (blocks ay) ->
  JS.newDate (startYear engine) 6 1 <= startDate b
  /\ endDate b <= JS.newDate (startYear engine) 6 1 + 363.
Proof.
  intros Hgen Hin.
  apply list_elem_of_In, list_elem_of_lookup_1 in Hin as [n Hn].
  destruct (generateSchedule_rows engine ay Hgen) as (_ & Hrows & _).
  destruct (Hrows n b Hn) as (H1 & _ & H3 & H4 & _). lia.
Qed.

Lemma generateSchedule_span (engine : Engine) (ay : AcademicYear)
    (this : Scheduler) (s : StaffingLevel) (a : CallAssignment) :
  YearlyScheduleEngine.generateSchedule engine = Some ay ->
  academicYear this = ay ->
  In a (generateSchedule this s) -> Spec.isCall a ->
  JS.newDate (startYear engine) 6 1 <= ca_date a
  <= JS.newDate (startYear engine) 6 1 + 363.
Proof.
  intros Hgen Hay Hin Ha.
  destruct (generateSchedule_core this s a Hin Ha)
    as (r & block & rotation & _ & _ & _ & Hb & _).
  unfold getCurrentBlock in Hb. apply find_some in Hb as [Hblock Hd].
  rewrite Hay in Hblock.
  destruct (blocks_span engine ay block Hgen Hblock) as [H1 H2].
  apply andb_true_iff in Hd as [Hd1 Hd2].
  apply Z.leb_le in Hd1, Hd2. lia.
Qed.

End YearToMonth.

(** X24. The 13 blocks of the yearly engine cover the 364 days from
    July 1st of the start year.  A monthly schedule generated on an
    academic year of the engine has all its calls within these days: the
    last day of the twelve months (the last two in a leap year) gets no
    call. *)
Theorem calls_within_the_year_blocks (engine : Engine) (ay : AcademicYear)
    (this : MonthlyCallScheduler.Scheduler) (s : StaffingLevel)
    (a : CallAssignment) :
  YearlyScheduleEngine.generateSchedule engine = Some ay ->
  MonthlyCallScheduler.academicYear this = ay ->
  In a (MonthlyCallScheduler.generateSchedule this s) -> Spec.isCall a ->
  JS.newDate (startYear engine) 6 1 <= ca_date a
  <= JS.newDate (startYear engine) 6 1 + 363.
Proof. apply generateSchedule_span. Qed.

Lemma calls_within_the_year_blocks_witness :
  ca_date Examples.june5Call <= JS.newDate 2025 6 1 + 363
  /\ JS.newDate 2025 6 1 + 363 < JS.newDate 2026 5 30.
Proof.
  split; [|vm_compute; reflexivity].
  apply (calls_within_the_year_blocks Examples.engine5 Examples.year2025
           Examples.june2026 Normal Examples.june5Call).
  - vm_compute. reflexivity.
  - reflexivity.
  - vm_compute. left. reflexivity.
  - discriminate.
Defined.

End YearlyTheorems.

(** ** More on the duplicate class *)


Section BackendThrows.
Import MonthlyCallSchedulerBackendLogic.
Variable this : Scheduler.

Lemma isAvailable_None (res : Resident) (date : JS.Date)
    (callCounts weekendCounts : gmap string Z) (s : StaffingLevel) :
  isAvailable this res date callCounts weekendCounts s = None
  <-> weekendDefinition (config this) = None
      /\ reachesWeekendCheck this res date callCounts s.
Proof.
  unfold isAvailable, reachesWeekendCheck. cbv zeta.
  destruct (List.find (fun b => (startDate b <=? date) && (date <=? endDate b))
              (blocks (academicYear this))) as [block|] eqn:Eb.
  2:{ split; [discriminate|].
      intros [_ (block & rot & H & _)]. discriminate H. }
  destruct (List.find (fun a => String.eqb (ra_residentId a) (id res))
              (assignments block)) as [rot|] eqn:Er.
  2:{ split; [discriminate|].
      intros [_ (block' & rot & H & H' & _)]. injection H as <-.
      rewrite Er in H'. discriminate H'. }
  destruct (bool_decide_reflect (rotationType rot = CORE_NSX)) as [Ec|Ec];
    cbn [negb].
  2:{ split; [discriminate|].
      intros [_ (block' & rot' & H & H' & Hc & _)]. injection H as <-.
      rewrite Er in H'. injection H' as <-. contradiction. }
  destruct (existsb _ (approvedLeave this)) eqn:El.
  { split; [discriminate|].
    intros [_ (block' & rot' & _ & _ & _ & Hl & _)]. exfalso.
    apply existsb_exists in El as [l [Hin Hl']].
    apply andb_true_iff in Hl' as [Hd Hid].
    apply andb_true_iff in Hd as [H1 H2].
    apply String.eqb_eq in Hid. apply Z.leb_le in H1, H2.
    apply (Hl l Hin Hid). lia. }
  assert (Hleave : forall l, In l (approvedLeave this) ->
                     lr_residentId l = id res ->
                     ~ (lr_startDate l <= date <= lr_endDate l)).
  { intros l Hin Hid [H1 H2].
    assert (Ht : existsb (fun l => (lr_startDate l <=? date)
                                   && (date <=? lr_endDate l)
                                   && String.eqb (lr_residentId l) (id res))
                   (approvedLeave this) = true).
    { apply existsb_exists. exists l. split; [exact Hin|].
      rewrite Hid, String.eqb_refl.
      rewrite (proj2 (Z.leb_le _ _) H1), (proj2 (Z.leb_le _ _) H2).
      reflexivity. }
    congruence. }
  change (getWorkingDaysForBlock (Some block)) with 28.
  destruct (Z.leb_spec (getMaxCalls this res 28 s)
              (getOr0 callCounts (id res))) as [Hm|Hm].
  { split; [discriminate|].
    intros [_ (block' & rot' & _ & _ & _ & _ & H)]. lia. }
  destruct (weekendDefinition (config this)) as [def|].
  - split; [|intros [H _]; discriminate H].
    destruct (_ && _); discriminate.
  - split; [|reflexivity]. intros _. split; [reflexivity|].
    exists block, rot. repeat split; assumption.
Qed.

Lemma filterThrowing_None {A : Type} (f : A -> option bool) (l : list A) :
  filterThrowing f l = None <-> exists x, In x l /\ f x = None.
Proof.
  induction l as [|x l IH]; cbn [filterThrowing].
  - split; [discriminate|intros [x [[] _]]].
  - destruct (f x) as [keep|] eqn:E.
    + destruct (filterThrowing f l) as [r|].
      * split; [discriminate|].
        intros [y [[<-|Hy] Hn]]; [congruence|].
        assert (H : Some r = None)
          by (apply (proj2 IH); exists y; split; assumption).
        discriminate H.
      * split; [|reflexivity]. intros _.
        destruct (proj1 IH eq_refl) as [y [Hy Hn]].
        exists y. split; [right; exact Hy|exact Hn].
    + split; [|reflexivity]. intros _. exists x. split; [left; reflexivity|].
      exact E.
Qed.

Lemma schedulingLoop_None (days : list Z)
    (callCounts weekendCounts : gmap string Z) (s : StaffingLevel)
    (acc : list CallAssignment) :
  schedulingLoop this days callCounts weekendCounts s acc = None
  <-> exists day r,
        In day days /\ In r (residents this)
        /\ isAvailable this r (JS.newDate (year this) (month this) day)
             callCounts weekendCounts s = None.
Proof.
  induction days as [|day days IH]; cbn [schedulingLoop].
  - split; [discriminate|intros (day & r & [] & _)].
  - cbv zeta.
    destruct (filterThrowing _ (residents this)) as [el|] eqn:E.
    + rewrite IH. split.
      * intros (d & r & Hd & Hr & Hn). exists d, r.
        split; [right; exact Hd|]. split; assumption.
      * intros (d & r & [<-|Hd] & Hr & Hn).
        -- exfalso.
           assert (Hnone : filterThrowing
                     (fun res => isAvailable this res
                                   (JS.newDate (year this) (month this) day)
                                   callCounts weekendCounts s)
                     (residents this) = None)
             by (apply filterThrowing_None; exists r; split; assumption).
           congruence.
        -- exists d, r. split; [exact Hd|]. split; assumption.
    + split; [|reflexivity]. intros _.
      apply filterThrowing_None in E as [r [Hr Hn]].
      exists day, r. split; [left; reflexivity|]. split; assumption.
Qed.

Lemma zeroCounts_getOr0 (k : string) : getOr0 (zeroCounts this) k = 0.
Proof.
  unfold getOr0, zeroCounts.
  assert (H : forall (l : list Resident) (m : gmap string Z),
             default 0 (m !! k) = 0 ->
             default 0 (fold_left (fun m r => <[id r := 0]> m) l m !! k) = 0).
  { induction l as [|x l IH]; intros m Hm; [exact Hm|].
    cbn [fold_left]. apply IH.
    destruct (decide (id x = k)) as [->|Hne].
    - rewrite lookup_insert_eq. reflexivity.
    - rewrite lookup_insert_ne by exact Hne. exact Hm. }
  apply H. rewrite lookup_empty. reflexivity.
Qed.

Lemma generateSchedule_None (s : StaffingLevel) :
  generateSchedule this s = None
  <-> weekendDefinition (config this) = None
      /\ exists day r,
           1 <= day <= JS.getDate (JS.newDate (year this) (month this + 1) 0)
           /\ In r (residents this)
           /\ reachesWeekendCheck this r
                (JS.newDate (year this) (month this) day)
                (zeroCounts this) s.
Proof.
  unfold generateSchedule. cbv zeta. fold (zeroCounts this).
  rewrite schedulingLoop_None. split.
  - intros (day & r & Hd & Hr & Hn).
    apply isAvailable_None in Hn as [Hw Hreach].
    split; [exact Hw|]. exists day, r.
    apply list_elem_of_In, elem_of_seqZ in Hd.
    split; [lia|]. split; assumption.
  - intros [Hw (day & r & Hd & Hr & Hreach)].
    exists day, r. split; [apply list_elem_of_In, elem_of_seqZ; lia|].
    split; [exact Hr|]. apply isAvailable_None. split; assumption.
Qed.

End BackendThrows.

Section BackendTheorems.
Import MonthlyCallSchedulerBackendLogic.

(** X25. The [generateSchedule] of the duplicate class throws
    exactly when the configuration has no weekend definition and, on some
    day of the month, some resident reaches the weekend check: the resident
    is on the core rotation in the block of the day, no leave request of
    the resident (whatever its status) spans the day, and the maximum for
    the 28 working days the class always assumes is above 0. *)
Theorem backend_logic_throws_iff (this : Scheduler) (s : StaffingLevel) :
  generateSchedule this s = None
  <-> weekendDefinition (config this) = None
      /\ exists day r,
           1 <= day <= JS.getDate (JS.newDate (year this) (month this + 1) 0)
           /\ In r (residents this)
           /\ reachesWeekendCheck this r
                (JS.newDate (year this) (month this) day)
                (zeroCounts this) s.
Proof. apply generateSchedule_None. Qed.

Lemma backend_logic_throws_iff_witness :
  generateSchedule Examples.stubJuneNoWeekend Normal = None.
Proof.
  apply (proj2 (backend_logic_throws_iff Examples.stubJuneNoWeekend Normal)).
  split; [reflexivity|].
  exists 2, (Examples.resident "r1" 2).
  split; [vm_compute; split; discriminate|]. split; [left; reflexivity|].
  exists (Examples.block2024 ["r1"%string] 13), (Examples.core "r1").
  split; [vm_compute; reflexivity|]. split; [vm_compute; reflexivity|].
  split; [reflexivity|]. split; [intros l []|vm_compute; reflexivity].
Defined.

(** X26. The [getMaxCalls] of the duplicate class agrees with the
    one of the full class for a resident whose PGY level has a call ratio
    other than 0.  For a resident without a ratio who is no call-exempt
    chief the two agree at the Shortage level, and at the Normal level the
    duplicate, which reads the missing ratio as 1:99, returns the smaller
    of the value of the full class and [W / 99]. *)
Theorem backend_logic_getMaxCalls_vs_full (this : Scheduler)
    (full : MonthlyCallScheduler.Scheduler) (r : Resident) (W : Z) :
  MonthlyCallScheduler.config full = config this ->
  (forall ratio m,
      callRatios (config this) !! pgyLevel r = Some ratio -> ratio <> 0 ->
      getMaxCalls this r W m = MonthlyCallScheduler.getMaxCalls full r W m)
  /\ (isChief r && callExempt r = false ->
      callRatios (config this) !! pgyLevel r = None ->
      getMaxCalls this r W Shortage
      = MonthlyCallScheduler.getMaxCalls full r W Shortage
      /\ getMaxCalls this r W Normal
         = Z.min (MonthlyCallScheduler.getMaxCalls full r W Normal) (W / 99)).
Proof.
  intros Hcfg. split.
  - intros ratio m Hr Hn. eapply getMaxCalls_agree; eassumption.
  - intros Hc Hr.
    unfold getMaxCalls, MonthlyCallScheduler.getMaxCalls.
    rewrite Hcfg, Hc, Hr. split; reflexivity.
Qed.

Lemma backend_logic_getMaxCalls_vs_full_witness :
  getMaxCalls Examples.stubJune (Examples.resident "r1" 2) 28 Normal
  = MonthlyCallScheduler.getMaxCalls Examples.soloJune
      (Examples.resident "r1" 2) 28 Normal.
Proof.
  apply (proj1 (backend_logic_getMaxCalls_vs_full Examples.stubJune
                  Examples.soloJune (Examples.resident "r1" 2) 28 eq_refl)
           4 Normal).
  - vm_compute. reflexivity.
  - discriminate.
Defined.

End BackendTheorems.
